(** * The MCP streamable-HTTP server: session registry and request handlers

    A shallow embedding of [server/src/server.ts] (class [MCPServer]) and of
    the process wiring in [server/src/index.ts].

    The server keeps one JavaScript object, [this.transports], that maps a
    session id to the SDK transport serving that session.  Everything the
    handlers do is either a read or a write of that object, a call into the
    MCP SDK (the [Server] and the [StreamableHTTPServerTransport]), a draw
    from [crypto.randomUUID], or a write on the HTTP response.  The SDK is
    not part of this code base: it appears here as an interface ([SDK])
    whose operations act on an opaque world; the handlers are embedded as
    programs of a small state-and-exception monad that records the
    observable calls as a list of events.

    A handler is run from its first statement to its last before the next
    request is looked at: the interleaving of two handlers at their [await]
    points is not modelled.  The response of a request is written by the
    server ([res.status(n).json(...)]) or by the transport that is handed
    the request; the state records whether its head has been sent, as a
    second write of the head throws.

    Two operations of the specification, opening the push channel of a
    session and closing a session, are the SDK's: their code is not under
    src/.  Where a claim is about them, they are taken from the
    specification ([spec_sdk]). *)

From Stdlib Require Import ZArith NArith Ascii String List Lia.
From stdpp Require Import base option gmap strings list.

Local Open Scope string_scope.
Local Open Scope list_scope.
Local Set Warnings "-register-all".

(** ** JSON values *)

(** Objects keep their properties in insertion order, as JavaScript does for
    string keys, so that an object literal and its embedding can be compared
    property by property. *)
Inductive Json : Type :=
| JUndefined
| JNull
| JBool (b : bool)
| JNumber (z : Z)                 (* the numbers that occur are integers *)
| JString (s : string)
| JArray (items : list Json)
| JObject (props : list (string * Json)).

(** [obj[k]] on the own properties of an object literal. *)
Fixpoint prop_get (k : string) (props : list (string * Json)) : option Json :=
  match props with
  | [] => None
  | (k', v) :: rest => if String.eqb k k' then Some v else prop_get k rest
  end.

(** [obj[k] = v] on own properties: an existing property keeps its place and
    takes the new value, a new property goes last. *)
Fixpoint prop_set (k : string) (v : Json) (props : list (string * Json))
  : list (string * Json) :=
  match props with
  | [] => [(k, v)]
  | (k', v') :: rest =>
      if String.eqb k k' then (k', v) :: rest else (k', v') :: prop_set k v rest
  end.

Definition json_get (k : string) (j : Json) : option Json :=
  match j with
  | JObject props => prop_get k props
  | _ => None
  end.

Definition json_keys (j : Json) : list string :=
  match j with
  | JObject props => map fst props
  | _ => []
  end.

(** JavaScript truthiness of a string: only the empty string is falsy. *)
Definition truthy_string (s : string) : bool :=
  match s with
  | EmptyString => false
  | String _ _ => true
  end.

(** Truthiness of a [string | undefined]. *)
Definition truthy_header (h : option string) : bool :=
  match h with
  | Some s => truthy_string s
  | None => false
  end.

(** ** [crypto.randomUUID] *)

(** A call of [randomUUID()] draws 128 bits and prints them as a version-4
    UUID: 32 lower-case hexadecimal digits in groups of 8-4-4-4-12, with the
    version digit forced to 4 and the variant digit to one of 8, 9, a, b.
    [Uuid] is the number drawn. *)
Definition Uuid : Type := N.

Definition hex_chars : list ascii :=
  list_ascii_of_string "0123456789abcdef".

Definition hex_digit (d : N) : ascii :=
  nth (N.to_nat d) hex_chars "0"%char.

(** The [i]-th hexadecimal digit of the drawn number, counted from the left. *)
Definition nibble (u : Uuid) (i : nat) : N :=
  ((u / 16 ^ N.of_nat (31 - i)) mod 16)%N.

Definition uuid_char (u : Uuid) (i : nat) : ascii :=
  match i with
  | 12 => "4"%char
  | 16 => hex_digit (8 + nibble u 16 mod 4)%N
  | _ => hex_digit (nibble u i)
  end.

Definition uuid_group (u : Uuid) (start len : nat) : list ascii :=
  map (uuid_char u) (seq start len).

Definition uuid_to_string (u : Uuid) : string :=
  string_of_list_ascii
    (uuid_group u 0 8 ++ "-"%char :: uuid_group u 8 4 ++ "-"%char ::
     uuid_group u 12 4 ++ "-"%char :: uuid_group u 16 4 ++ "-"%char ::
     uuid_group u 20 12).

Arguments uuid_to_string : simpl never.

(** ** The registry object and the JavaScript property lookup *)

(** Identity of a transport object: the rank of its allocation. *)
Definition loc : Type := nat.

(** [this.transports] starts as the literal [{}], so its prototype is
    [Object.prototype]; a property read that finds no own property falls
    through to the prototype.  These are the property names of
    [Object.prototype]; each of them reads as a function, or as
    [Object.prototype] itself for [__proto__], hence as a truthy value that
    has no [handleRequest] or [send] member. *)
Definition Object_prototype_keys : list string :=
  [ "constructor"; "__defineGetter__"; "__defineSetter__"; "hasOwnProperty";
    "__lookupGetter__"; "__lookupSetter__"; "isPrototypeOf";
    "propertyIsEnumerable"; "toString"; "valueOf"; "__proto__";
    "toLocaleString" ].

(** What a read [this.transports[key]] evaluates to. *)
Inductive Slot : Type :=
| SUndefined
| STransport (l : loc)
| SInherited (key : string).

Definition get_slot (own : gmap string loc) (key : string) : Slot :=
  match own !! key with
  | Some l => STransport l
  | None =>
      if bool_decide (key ∈ Object_prototype_keys) then SInherited key
      else SUndefined
  end.

Definition truthy_slot (v : Slot) : bool :=
  match v with
  | SUndefined => false
  | STransport _ | SInherited _ => true
  end.

(** ** Requests, exceptions and observable events *)

(** The two parts of an Express request the handlers read:
    [req.headers["mcp-session-id"]] and [req.body]. *)
Record Request : Type := mkRequest {
  session_header : option string;
  body : Json
}.

Inductive Exn : Type :=
| Error (message : string)
| TypeError (message : string).

Inductive LogItem : Type :=
| LText (s : string)
| LHeader (h : option string)
| LJson (j : Json)
| LArgs (a : option (list (string * Json)))
| LExn (e : Exn).

Inductive Event : Type :=
| EvLog (items : list LogItem)               (* console.log(...) *)
| EvLogError (items : list LogItem)          (* console.error(...) *)
| EvRespond (status : Z) (payload : Json)    (* res.status(n).json(payload) *)
| EvConnect (l : loc)                        (* this.server.connect(transport) *)
| EvHandleRequest (l : loc) (req : Request) (parsed : option Json)
                                             (* transport.handleRequest(...) *)
| EvSend (l : loc) (msg : Json)              (* transport.send(msg) *)
| EvTimeoutClose (t : nat)                   (* this.toolInterval.close() *)
| EvServerClose                              (* this.server.close() *)
| EvUnhandledRejection (e : Exn)             (* a promise nobody awaits rejects *)
| EvExit (code : Z).                         (* process.exit(code) *)

Inductive Completion (A : Type) : Type :=
| Normal (a : A)
| Throw (e : Exn).

Arguments Normal {A} a.
Arguments Throw {A} e.

(** ** The SDK as an interface *)

(** What a call of [transport.handleRequest] did: whether it threw, whether
    the transport ran its [sessionIdGenerator] (it does so when it accepts an
    initialization, and stores the result as its [sessionId]), whether it
    had written the head of the response it was given ([res.headersSent])
    when it returned or threw, and the SDK world it left. *)
Record HandleResult (W : Type) : Type := mkHandleResult {
  hr_exn : option Exn;
  hr_generates : bool;
  hr_headersSent : bool;
  hr_world : W
}.

Arguments mkHandleResult {W} _ _ _ _.
Arguments hr_exn {W} _.
Arguments hr_generates {W} _.
Arguments hr_headersSent {W} _.
Arguments hr_world {W} _.

(** What the server is linked against.  From [@modelcontextprotocol/sdk]:
    the parse of [InitializeRequestSchema], the constructor and the methods
    of a transport, and [connect] and [close] of the [Server]; [World] is
    everything the SDK keeps to itself (the [Server] and the inside of every
    transport), and each operation also sees the session id of every
    transport.  From [crypto]: [randomUUID k] is the number drawn by the
    [k]-th of the calls of [randomUUID()] that the server makes, in
    [createErrorResponse] or through the [sessionIdGenerator] it gives to its
    transports. *)
Class SDK : Type := {
  World : Type;
  InitializeRequestSchema_safeParse : Json -> bool;
  randomUUID : nat -> Uuid;
  sdk_construct : loc -> World -> World;
  sdk_connect : gmap loc Uuid -> loc -> World -> option Exn * World;
  sdk_handleRequest :
    gmap loc Uuid -> loc -> Request -> option Json -> World -> HandleResult World;
  sdk_send : gmap loc Uuid -> loc -> Json -> World -> option Exn * World;
  sdk_close : gmap loc Uuid -> World -> option Exn * World
}.

Section Server.
Context `{sdk_ops : SDK}.

(** ** State of an [MCPServer] and of what it shares with the SDK *)

Record State : Type := mkState {
  transports : gmap string loc;     (* own properties of this.transports *)
  toolInterval : option nat;        (* this.toolInterval *)
  session_ids : gmap loc Uuid;      (* transport.sessionId, per transport *)
  allocated : nat;                  (* transports constructed so far *)
  uuid_draws : nat;                 (* calls of randomUUID() so far *)
  world : World;                    (* the SDK's own state *)
  headersSent : bool                (* res.headersSent, for the response of
                                       the request being handled *)
}.

(** ** A monad of state, exceptions and events *)

Definition M (A : Type) : Type := State -> Completion A * State * list Event.

Definition ret {A} (a : A) : M A := fun s => (Normal a, s, []).

Definition throw {A} (e : Exn) : M A := fun s => (Throw e, s, []).

Definition bind {A B} (m : M A) (k : A -> M B) : M B :=
  fun s =>
    match m s with
    | (Normal a, s1, ev1) =>
        match k a s1 with
        | (r, s2, ev2) => (r, s2, ev1 ++ ev2)
        end
    | (Throw e, s1, ev1) => (Throw e, s1, ev1)
    end.

(** [try { m } catch (error) { h error }] *)
Definition try_catch {A} (m : M A) (h : Exn -> M A) : M A :=
  fun s =>
    match m s with
    | (Normal a, s1, ev1) => (Normal a, s1, ev1)
    | (Throw e, s1, ev1) =>
        match h e s1 with
        | (r, s2, ev2) => (r, s2, ev1 ++ ev2)
        end
    end.

(** A call of an async function whose promise is not awaited: the caller goes
    on normally whatever happens, and a rejection is nobody's to handle. *)
Definition unawaited (m : M unit) : M unit :=
  fun s =>
    match m s with
    | (Normal _, s1, ev1) => (Normal tt, s1, ev1)
    | (Throw e, s1, ev1) => (Normal tt, s1, ev1 ++ [EvUnhandledRejection e])
    end.

Definition emit (e : Event) : M unit := fun s => (Normal tt, s, [e]).

Definition get_state : M State := fun s => (Normal s, s, []).

Notation "x <- m ;; k" := (bind m (fun x => k))
  (at level 100, m at next level, right associativity).
Notation "m ;; k" := (bind m (fun _ => k))
  (at level 100, right associativity).

Definition with_world (s : State) (w : World) : State :=
  mkState (transports s) (toolInterval s) (session_ids s)
          (allocated s) (uuid_draws s) w (headersSent s).

Definition with_headersSent (s : State) (sent : bool) : State :=
  mkState (transports s) (toolInterval s) (session_ids s)
          (allocated s) (uuid_draws s) (world s) sent.

Definition completion_of (e : option Exn) : Completion unit :=
  match e with
  | None => Normal tt
  | Some x => Throw x
  end.

(** ** Primitive operations *)

Definition console_log (items : list LogItem) : M unit := emit (EvLog items).

Definition console_error (items : list LogItem) : M unit :=
  emit (EvLogError items).

(** The [res] that Express hands to a route callback is a new response, on
    which nothing has been written. *)
Definition new_response : M unit :=
  fun s => (Normal tt, with_headersSent s false, []).

(** What [res.json] throws once the head of the response has been sent
    (Node's [ERR_HTTP_HEADERS_SENT]). *)
Definition ERR_HTTP_HEADERS_SENT : Exn :=
  Error "Cannot set headers after they are sent to the client".

(** [res.status(status).json(payload)]: writes the response, unless its head
    has been sent already, in which case setting the headers throws and
    nothing is written. *)
Definition res_status_json (status : Z) (payload : Json) : M unit :=
  fun s =>
    if headersSent s then (Throw ERR_HTTP_HEADERS_SENT, s, [])
    else (Normal tt, with_headersSent s true, [EvRespond status payload]).

(** [randomUUID()]: the next draw, printed. *)
Definition randomUUID_call : M string :=
  fun s =>
    (Normal (uuid_to_string (randomUUID (uuid_draws s))),
     mkState (transports s) (toolInterval s) (session_ids s)
             (allocated s) (S (uuid_draws s)) (world s) (headersSent s),
     []).

(** [new StreamableHTTPServerTransport({ sessionIdGenerator: () => randomUUID() })]:
    a new object, whose [sessionId] is still undefined. *)
Definition new_transport : M loc :=
  fun s =>
    let l := allocated s in
    (Normal l,
     mkState (transports s) (toolInterval s) (delete l (session_ids s))
             (S l) (uuid_draws s) (sdk_construct l (world s)) (headersSent s),
     []).

(** [await this.server.connect(transport)] *)
Definition server_connect (l : loc) : M unit :=
  fun s =>
    let r := sdk_connect (session_ids s) l (world s) in
    (completion_of (fst r), with_world s (snd r), [EvConnect l]).

(** [await transport.handleRequest(req, res, parsed)] on a transport object.
    When the transport runs its [sessionIdGenerator], that is one call of
    [randomUUID()], whose result becomes the transport's [sessionId].  The
    transport writes on [res] as it sees fit. *)
Definition transport_handleRequest (l : loc) (req : Request)
    (parsed : option Json) : M unit :=
  fun s =>
    let r := sdk_handleRequest (session_ids s) l req parsed (world s) in
    let sent := headersSent s || hr_headersSent r in
    let s' :=
      if hr_generates r then
        mkState (transports s) (toolInterval s)
                (<[l := randomUUID (uuid_draws s)]> (session_ids s))
                (allocated s) (S (uuid_draws s)) (hr_world r) sent
      else with_headersSent (with_world s (hr_world r)) sent in
    (completion_of (hr_exn r), s', [EvHandleRequest l req parsed]).

(** [await transport.send(msg)] on a transport object. *)
Definition transport_send (l : loc) (msg : Json) : M unit :=
  fun s =>
    let r := sdk_send (session_ids s) l msg (world s) in
    (completion_of (fst r), with_world s (snd r), [EvSend l msg]).

(** The same two calls on whatever [this.transports[sessionId]] evaluated
    to: a value that is not a transport has no such method, and the call
    throws a [TypeError]. *)
Definition call_handleRequest (transport : Slot) (req : Request)
    (parsed : option Json) : M unit :=
  match transport with
  | STransport l => transport_handleRequest l req parsed
  | SInherited _ => throw (TypeError "transport.handleRequest is not a function")
  | SUndefined =>
      throw (TypeError "Cannot read properties of undefined (reading 'handleRequest')")
  end.

Definition call_send (transport : Slot) (msg : Json) : M unit :=
  match transport with
  | STransport l => transport_send l msg
  | SInherited _ => throw (TypeError "transport.send is not a function")
  | SUndefined =>
      throw (TypeError "Cannot read properties of undefined (reading 'send')")
  end.

(** [transport.sessionId] *)
Definition transport_sessionId (l : loc) : M (option Uuid) :=
  fun s => (Normal (session_ids s !! l), s, []).

(** [this.transports[sessionId] = transport], for a session id printed by
    [randomUUID]: such a key is none of the names of [Object.prototype]
    (see [uuid_not_prototype_key]), so the write defines or replaces an own
    property. *)
Definition set_transport (sessionId : Uuid) (l : loc) : M unit :=
  fun s =>
    (Normal tt,
     mkState (<[uuid_to_string sessionId := l]> (transports s))
             (toolInterval s) (session_ids s) (allocated s) (uuid_draws s)
             (world s) (headersSent s),
     []).

(** [this.transports[sessionId]] for [sessionId : string | undefined]; the
    property key of [undefined] is the string ["undefined"]. *)
Definition lookup_session (own : gmap string loc) (sessionId : option string)
  : Slot :=
  match sessionId with
  | Some sid => get_slot own sid
  | None => get_slot own "undefined"
  end.

(** [await this.server.close()] *)
Definition server_close : M unit :=
  fun s =>
    let r := sdk_close (session_ids s) (world s) in
    (completion_of (fst r), with_world s (snd r), [EvServerClose]).

(** ** The methods of [MCPServer] *)

Definition SESSION_ID_HEADER_NAME : string := "mcp-session-id".
Definition JSON_RPC : string := "2.0".

Definition createErrorResponse (message : string) : M Json :=
  id <- randomUUID_call ;;
  ret (JObject
         [ ("jsonrpc", JString "2.0");
           ("error", JObject [ ("code", JNumber (-32000));
                               ("message", JString message) ]);
           ("id", JString id) ]).

Definition isInitializeRequest (body : Json) : bool :=
  let isInitial := fun data => InitializeRequestSchema_safeParse data in
  match body with
  | JArray items => existsb (fun request => isInitial request) items
  | _ => isInitial body
  end.

(** [{ ...notification, jsonrpc: JSON_RPC }] *)
Definition spread_with (notification : Json) (k : string) (v : Json) : Json :=
  match notification with
  | JObject props => JObject (prop_set k v props)
  | _ => JObject [(k, v)]
  end.

Definition sendNotification (transport : Slot) (notification : Json) : M unit :=
  let rpcNotificaiton := spread_with notification "jsonrpc" (JString JSON_RPC) in
  call_send transport rpcNotificaiton.

(** The promise of [sendNotification] is not awaited, so the [catch] of
    [streamMessages] sees none of its failures. *)
Definition streamMessages (transport : Slot) : M unit :=
  try_catch
    (let message :=
       JObject [ ("method", JString "notifications/message");
                 ("params", JObject [ ("level", JString "info");
                                      ("data", JString "SSE Connection established") ]) ] in
     unawaited (sendNotification transport message))
    (fun error => console_error [LText "Error sending message:"; LExn error]).

Definition handleGetRequest (req : Request) : M unit :=
  new_response ;;
  console_log [LText "Received GET request"] ;;
  s <- get_state ;;
  let sessionId := session_header req in
  if negb (truthy_header sessionId)
     || negb (truthy_slot (lookup_session (transports s) sessionId))
  then
    payload <- createErrorResponse "Bad Request: invalid session ID or method." ;;
    res_status_json 400 payload
  else
    console_log [LText "Establishing SSE stream for session "; LHeader sessionId] ;;
    let transport := lookup_session (transports s) sessionId in
    call_handleRequest transport req None ;;
    streamMessages transport.

Definition handlePostRequest (req : Request) : M unit :=
  new_response ;;
  let sessionId := session_header req in
  console_log [LText "I am here with sessionId: {}"; LHeader sessionId] ;;
  try_catch
    (s <- get_state ;;
     if truthy_header sessionId
        && truthy_slot (lookup_session (transports s) sessionId)
     then
       let transport := lookup_session (transports s) sessionId in
       call_handleRequest transport req (Some (body req))
     else if negb (truthy_header sessionId) && isInitializeRequest (body req)
     then
       transport <- new_transport ;;
       server_connect transport ;;
       transport_handleRequest transport req (Some (body req)) ;;
       sessionId' <- transport_sessionId transport ;;
       match sessionId' with
       | Some sid =>
           if truthy_string (uuid_to_string sid)
           then set_transport sid transport
           else ret tt
       | None => ret tt
       end
     else
       payload <- createErrorResponse "Bad Request: invalid session ID or method." ;;
       res_status_json 400 payload)
    (fun error =>
       console_error [LText "Error handling MCP request:"; LExn error] ;;
       payload <- createErrorResponse "Internal server error." ;;
       res_status_json 500 payload).

Definition cleanup : M unit :=
  s <- get_state ;;
  match toolInterval s with
  | Some t => emit (EvTimeoutClose t)
  | None => ret tt
  end ;;
  server_close.

(** The two request handlers that [setupTools] registers on the [Server]. *)
Record CallToolRequest : Type := mkCallToolRequest {
  params_name : string;
  params_arguments : option (list (string * Json))
}.

Definition listToolsHandler : M Json :=
  ret (JObject [ ("tools", JArray []) ]).

Definition callToolHandler (request : CallToolRequest) : M Json :=
  let args := params_arguments request in
  let toolName := params_name request in
  console_log [LText "Received request for tool with argument:";
               LText toolName; LArgs args] ;;
  if negb (match args with Some _ => true | None => false end)
  then throw (Error "arguments undefined")
  else if negb (truthy_string toolName)
  then throw (Error "tool name undefined")
  else throw (Error "Tool not found").

(** ** Process wiring ([index.ts]) *)

Inductive Call : Type :=
| PostCall (req : Request)     (* router.post("/mcp", ...) *)
| GetCall (req : Request).     (* router.get("/mcp", ...) *)

(** Express does not await the promise of a route callback. *)
Definition route (c : Call) : M unit :=
  match c with
  | PostCall req => unawaited (handlePostRequest req)
  | GetCall req => unawaited (handleGetRequest req)
  end.

(** Requests served one after the other. *)
Fixpoint serve (calls : list Call) : M unit :=
  match calls with
  | [] => ret tt
  | c :: rest => route c ;; serve rest
  end.

(** [process.on("SIGINT", async () => { ... })] *)
Definition on_SIGINT : M unit :=
  unawaited
    (console_log [LText "Shutting down server..."] ;;
     cleanup ;;
     emit (EvExit 0)).

(** A server right after [new MCPServer(new Server(...))]. *)
Definition initial_state (w : World) : State :=
  mkState ∅ None ∅ 0 0 w false.

(** ** Reading the outcome of a run *)

Definition result_of {A} (o : Completion A * State * list Event) : Completion A :=
  fst (fst o).

Definition state_after {A} (o : Completion A * State * list Event) : State :=
  snd (fst o).

Definition events_of {A} (o : Completion A * State * list Event) : list Event :=
  snd o.

(** The responses the server's own code wrote, in order. *)
Definition responses (evs : list Event) : list (Z * Json) :=
  flat_map (fun e => match e with
                     | EvRespond status payload => [(status, payload)]
                     | _ => []
                     end) evs.

(** The transports on which [handleRequest] was called, in order. *)
Definition handled_by (evs : list Event) : list loc :=
  flat_map (fun e => match e with
                     | EvHandleRequest l _ _ => [l]
                     | _ => []
                     end) evs.

(** The messages passed to [transport.send], in order. *)
Definition sent (evs : list Event) : list (loc * Json) :=
  flat_map (fun e => match e with
                     | EvSend l msg => [(l, msg)]
                     | _ => []
                     end) evs.

(** The error envelope of [createErrorResponse], for a given id. *)
Definition error_envelope (message id : string) : Json :=
  JObject [ ("jsonrpc", JString "2.0");
            ("error", JObject [ ("code", JNumber (-32000));
                                ("message", JString message) ]);
            ("id", JString id) ].

(** The notification [streamMessages] hands to [transport.send]. *)
Definition info_notification : Json :=
  JObject [ ("method", JString "notifications/message");
            ("params", JObject [ ("level", JString "info");
                                 ("data", JString "SSE Connection established") ]);
            ("jsonrpc", JString "2.0") ].

(** The draws numbered [lo] to [hi - 1] print to pairwise different ids. *)
Definition distinct_draws (lo hi : nat) : Prop :=
  forall i j, lo <= i -> i < j -> j < hi ->
    uuid_to_string (randomUUID i) <> uuid_to_string (randomUUID j).

(** Every registered transport has been allocated, and its key is the print
    of a draw already made. *)
Definition registry_ok (s : State) : Prop :=
  forall sid l, transports s !! sid = Some l ->
    l < allocated s
    /\ exists k, k < uuid_draws s /\ sid = uuid_to_string (randomUUID k).

(** No transport is registered under two ids. *)
Definition registry_injective (s : State) : Prop :=
  forall sid1 sid2 l,
    transports s !! sid1 = Some l -> transports s !! sid2 = Some l ->
    sid1 = sid2.

(** What one request can do to the registry and to the two counters: the
    registry is left alone, or the print of the draw numbered
    [uuid_draws s] is bound to the transport allocated at rank
    [allocated s]. *)
Definition step_ok (s s' : State) : Prop :=
  uuid_draws s <= uuid_draws s'
  /\ allocated s <= allocated s'
  /\ (transports s' = transports s
      \/ (uuid_draws s < uuid_draws s'
          /\ allocated s < allocated s'
          /\ transports s'
             = <[uuid_to_string (randomUUID (uuid_draws s)) := allocated s]>
                 (transports s))).

(** The SDK's part in a first submission [req] arriving in state [s]:
    [connect] resolves on the new transport, and [handleRequest] returns
    after having run the session id generator. *)
Definition sdk_starts_session (req : Request) (s : State) : bool :=
  let l := allocated s in
  let ids := delete l (session_ids s) in
  let c := sdk_connect ids l (sdk_construct l (world s)) in
  let r := sdk_handleRequest ids l req (Some (body req)) (snd c) in
  match fst c, hr_exn r with
  | None, None => hr_generates r
  | _, _ => false
  end.

(** ** The envelope builder as the specification words it *)

(** [makeError(message, id?)]: the id is the one supplied, or a freshly
    generated token when none is. *)
Definition makeError_spec (message : string) (id : option string) : M Json :=
  match id with
  | Some i => ret (error_envelope message i)
  | None => tok <- randomUUID_call ;; ret (error_envelope message tok)
  end.

End Server.

(** ** Two names of the specification for the failures of the tool handler *)

Definition InvalidArguments : Exn := Error "arguments undefined".
Definition ToolNotFound : Exn := Error "Tool not found".

(** [Array.isArray] *)
Definition is_array (j : Json) : bool :=
  match j with
  | JArray _ => true
  | _ => false
  end.

(** ** A small SDK to run the server on *)

(** A parse that accepts the objects whose [method] is ["initialize"]. *)
Definition has_method_initialize (j : Json) : bool :=
  match json_get "method" j with
  | Some (JString m) => String.eqb m "initialize"
  | _ => false
  end.

(** The messages of a submission: the elements of a batch, or the one
    message. *)
Definition submitted_messages (parsed : option Json) : list Json :=
  match parsed with
  | Some (JArray items) => items
  | Some j => [j]
  | None => []
  end.

(** Nothing ever throws and the world is trivial.  A transport that has no
    session id yet starts a session on a submission that consists of one
    initialize request; on any other submission it answers without starting
    one. *)
Definition stub_sdk (draw : nat -> Uuid) : SDK := {|
  World := unit;
  InitializeRequestSchema_safeParse := has_method_initialize;
  randomUUID := draw;
  sdk_construct := fun _ w => w;
  sdk_connect := fun _ _ w => (None, w);
  sdk_handleRequest := fun ids l _ parsed w =>
    mkHandleResult None
      (match ids !! l with Some _ => false | None => true end
       && existsb has_method_initialize (submitted_messages parsed)
       && Nat.eqb (length (submitted_messages parsed)) 1)
      true
      w;
  sdk_send := fun _ _ _ w => (None, w);
  sdk_close := fun _ w => (None, w)
|}.

(** The [k]-th draw is the number [k]. *)
Definition counting_sdk : SDK := stub_sdk N.of_nat.

(** A generator that draws the same number every time. *)
Definition repeating_sdk : SDK := stub_sdk (fun _ => 0%N).

Definition initialize_body : Json :=
  JObject [ ("jsonrpc", JString "2.0"); ("id", JNumber 1);
            ("method", JString "initialize"); ("params", JObject []) ].

Definition initialize_request : Request := mkRequest None initialize_body.

(** The print of the draw [0]. *)
Definition first_id : string := "00000000-0000-4000-8000-000000000000".

(** A request that is not an initialization and carries the id ["1"]. *)
Definition list_tools_body : Json :=
  JObject [ ("jsonrpc", JString "2.0"); ("id", JString "1");
            ("method", JString "tools/list") ].

(** A batch of two messages, the first of which is an initialize request. *)
Definition batch_request : Request :=
  mkRequest None (JArray [initialize_body; list_tools_body]).

(** ** More ways to read a run *)

(** The lines written with [console.error], in order. *)
Definition logged_errors (evs : list Event) : list (list LogItem) :=
  flat_map (fun e => match e with
                     | EvLogError items => [items]
                     | _ => []
                     end) evs.

(** The transports passed to [this.server.connect], in order. *)
Definition connected (evs : list Event) : list loc :=
  flat_map (fun e => match e with
                     | EvConnect l => [l]
                     | _ => []
                     end) evs.

(** The id of an envelope. *)
Definition envelope_id (payload : Json) : option Json := json_get "id" payload.

(** ** An SDK that fails on demand *)

(** As [stub_sdk], with [connect], [handleRequest] on a request to open the
    push channel (no parsed body), and [send] throwing when told to. *)
Definition faulty_sdk (connect_fails open_fails send_fails : bool) : SDK := {|
  World := unit;
  InitializeRequestSchema_safeParse := has_method_initialize;
  randomUUID := N.of_nat;
  sdk_construct := fun _ w => w;
  sdk_connect := fun _ _ w =>
    (if connect_fails then Some (Error "Already connected") else None, w);
  sdk_handleRequest := fun ids l _ parsed w =>
    mkHandleResult
      (match parsed with
       | None => if open_fails then Some (Error "stream failed") else None
       | Some _ => None
       end)
      (match ids !! l with Some _ => false | None => true end
       && existsb has_method_initialize (submitted_messages parsed)
       && Nat.eqb (length (submitted_messages parsed)) 1)
      (match parsed with
       | None => negb open_fails
       | Some _ => true
       end)
      w;
  sdk_send := fun _ _ _ w =>
    (if send_fails then Some (Error "Not connected") else None, w);
  sdk_close := fun _ w => (None, w)
|}.

(** ** The session transport of the specification *)

(** Modelled from the spec: the state of a Session Transport (section 4.2),
    whose code ([StreamableHTTPServerTransport] and [Server] of the SDK) is
    not under src/: whether the one outbound push channel of the session
    exists, and whether the session is Closed. *)
Record Session : Type := mkSession {
  push_open : bool;
  session_closed : bool
}.

Definition new_session : Session := mkSession false false.

Definition AlreadyOpen : Exn := Error "AlreadyOpen".

(** Modelled from the spec: [openPush()] of the Session Transport, which the
    server reaches through [transport.handleRequest] on a GET; it
    "establishes the one outbound streaming channel for this session; fails
    with [AlreadyOpen] if a push channel already exists for this session". *)
Definition openPush (x : Session) : option Exn * Session :=
  if push_open x then (Some AlreadyOpen, x)
  else (None, mkSession true (session_closed x)).

(** Modelled from the spec: [close()] of the Session Transport, which the
    server reaches through [this.server.close()]; it "closes the push
    channel if open, marks the session Closed, releases resources". *)
Definition close_session (x : Session) : Session :=
  mkSession false true.

(** Modelled from the spec: [remove(id)] of the Session Registry,
    "idempotent; removing an absent id is a no-op".  The server under src/
    has no operation that removes an id. *)
Definition registry_remove (id : string) (registry : gmap string loc)
  : gmap string loc :=
  delete id registry.

Definition has_push_channel (w : gmap loc Session) (l : loc) : bool :=
  match w !! l with
  | Some x => push_open x
  | None => false
  end.

(** Modelled from the spec: the SDK with the sessions above for its world.
    A GET is [openPush] on the session of the transport; a submission is
    answered as by [stub_sdk]; closing the server closes every session
    (section 6, process lifecycle). *)
Definition spec_sdk : SDK := {|
  World := gmap loc Session;
  InitializeRequestSchema_safeParse := has_method_initialize;
  randomUUID := N.of_nat;
  sdk_construct := fun l w => <[l := new_session]> w;
  sdk_connect := fun _ _ w => (None, w);
  sdk_handleRequest := fun ids l _ parsed w =>
    match parsed with
    | None =>
        let r := openPush (default new_session (w !! l)) in
        mkHandleResult (fst r) false
          (match fst r with Some _ => false | None => true end)
          (<[l := snd r]> w)
    | Some _ =>
        mkHandleResult None
          (match ids !! l with Some _ => false | None => true end
           && existsb has_method_initialize (submitted_messages parsed)
           && Nat.eqb (length (submitted_messages parsed)) 1)
          true
          w
    end;
  sdk_send := fun _ _ _ w => (None, w);
  sdk_close := fun _ w => (None, close_session <$> w)
|}.

(** As [stub_sdk], but a transport that has a session fails every
    submission after it has started to answer. *)
Definition late_failure_sdk : SDK := {|
  World := unit;
  InitializeRequestSchema_safeParse := has_method_initialize;
  randomUUID := N.of_nat;
  sdk_construct := fun _ w => w;
  sdk_connect := fun _ _ w => (None, w);
  sdk_handleRequest := fun ids l _ parsed w =>
    match ids !! l with
    | Some _ => mkHandleResult (Some (Error "write after end")) false true w
    | None =>
        mkHandleResult None
          (existsb has_method_initialize (submitted_messages parsed)
           && Nat.eqb (length (submitted_messages parsed)) 1)
          true
          w
    end;
  sdk_send := fun _ _ _ w => (None, w);
  sdk_close := fun _ w => (None, w)
|}.

(** A server that has served one initialize request, on an SDK whose
    failures are chosen. *)
Definition one_session (connect_fails open_fails send_fails : bool)
  : State (sdk_ops := faulty_sdk connect_fails open_fails send_fails) :=
  state_after
    (handlePostRequest (sdk_ops := faulty_sdk connect_fails open_fails send_fails)
       initialize_request
       (initial_state (sdk_ops := faulty_sdk connect_fails open_fails send_fails) tt)).

(** * The command-line client ([client/index.ts])

    The client is glue between three services: the MCP [Client] of the SDK,
    the Gemini model behind [genAI.models.generateContent], and the terminal
    behind [readline].  They appear here as an interface ([Services]), as
    the SDK does for the server.  What the user types is part of the state.

    [processQuery] runs one callback per function call under
    [Promise.all]: every callback runs to its first [await] when it is
    created, and from then on the callbacks advance in the order in which
    the services settle their promises, which the interface decides.  When a
    callback rejects, [processQuery] throws at once; what the callbacks
    still pending would do afterwards is not followed. *)

Module Client.

Definition newline : string := String (ascii_of_nat 10) EmptyString.

(** ** Data exchanged with the services *)

(** A tool as [mcp.listTools()] describes it. *)
Record Tool : Type := mkTool {
  tool_name : string;
  tool_description : option string;
  tool_inputSchema : list (string * Json)
}.

(** A function declaration as the client hands it to the model. *)
Record FunctionDeclaration : Type := mkFunctionDeclaration {
  fd_name : string;
  fd_description : option string;
  fd_parameters : list (string * Json)
}.

Record FunctionCall : Type := mkFunctionCall {
  fc_name : option string;
  fc_args : option Json
}.

Record Candidate : Type := mkCandidate {
  cand_content : option Json
}.

Record GenerateContentResponse : Type := mkResponse {
  resp_text : option string;
  resp_functionCalls : option (list FunctionCall);
  resp_candidates : option (list Candidate)
}.

Record CallToolResult : Type := mkCallToolResult {
  result_content : option (list Json)
}.

(** What [processQuery] returns: the array [finalText] itself, or its lines
    joined. *)
Inductive QueryResult : Type :=
| Lines (finalText : list string)
| Text (joined : string).

(** ** Events *)

Inductive LogArg : Type :=
| AText (s : string)
| AOptText (s : option string)
| ANames (names : list string)
| AExn (e : Exn)
| ACall (toolCall : FunctionCall)
| AContent (c : Json)
| AContents (contents : list Json)
| ATools (tools : list FunctionDeclaration).

Inductive Event : Type :=
| Log (args : list LogArg)                   (* console.log(...) *)
| LogError (args : list LogArg)              (* console.error(...) *)
| NewTransport (url : string)                (* new StreamableHTTPClientTransport(url) *)
| Connect                                    (* this.mcp.connect(this.transport) *)
| ListTools                                  (* this.mcp.listTools() *)
| Generate (contents : list Json) (tools : list FunctionDeclaration)
                                             (* this.genAI.models.generateContent(...) *)
| CallTool (name : string) (args : option Json)
                                             (* this.mcp.callTool({ name, arguments }) *)
| Close                                      (* this.mcp.close() *)
| CreateInterface                            (* readline.createInterface(...) *)
| Question (prompt : string)                 (* rl.question(prompt) *)
| CloseInterface                             (* rl.close() *)
| Exit (code : Z).                           (* process.exit(code) *)

(** ** Callbacks in flight *)

(** Where a callback of [processQuery] is suspended. *)
Inductive Stage : Type :=
| AwaitCallTool
| AwaitGenerate.

Record Task : Type := mkTask {
  task_name : string;
  task_args : option Json;
  task_stage : Stage
}.

(** The next promise to settle: the rank of its callback among those
    pending (taken modulo their number), and what the promise settles
    with, for either stage. *)
Record Settlement : Type := mkSettlement {
  pick : nat;
  tool_outcome : Completion CallToolResult;
  generate_outcome : Completion GenerateContentResponse
}.

(** ** The services as an interface *)

Class Services : Type := {
  Outside : Type;
  (* @google/genai *)
  Type_OBJECT : Json;
  generateContent :
    list Json -> list FunctionDeclaration -> Outside ->
    Completion GenerateContentResponse * Outside;
  start_generateContent :
    list Json -> list FunctionDeclaration -> Outside -> Outside;
  (* the MCP client *)
  mcp_connect : Outside -> option Exn * Outside;
  mcp_listTools : Outside -> Completion (list Tool) * Outside;
  start_callTool : string -> option Json -> Outside -> Outside;
  mcp_close : Outside -> option Exn * Outside;
  (* promises in flight *)
  settle : list Task -> Outside -> Settlement * Outside;
  (* built-ins *)
  URL_valid : string -> bool;
  JSON_stringify : option Json -> option string;
  JSON_stringify_indented : option Json -> option string;
  (* rl.question once the input has ended: it rejects, or never settles *)
  question_at_end : option Exn
}.

Section Program.
Context `{services : Services}.

(** ** State *)

(** [this.transport], once constructed: whether its two handlers are set. *)
Record Transport : Type := mkTransport {
  onclose_set : bool;
  onerror_set : bool
}.

Record State : Type := mkState {
  transport : option Transport;          (* this.transport, null at first *)
  tools : list FunctionDeclaration;      (* this.tools *)
  stdin : list string;                   (* the lines still to be typed *)
  outside : Outside
}.

Definition M (A : Type) : Type := State -> Completion A * State * list Event.

Definition ret {A} (a : A) : M A := fun s => (Normal a, s, []).

Definition throw {A} (e : Exn) : M A := fun s => (Throw e, s, []).

Definition bind {A B} (m : M A) (k : A -> M B) : M B :=
  fun s =>
    match m s with
    | (Normal a, s1, ev1) =>
        match k a s1 with
        | (r, s2, ev2) => (r, s2, ev1 ++ ev2)
        end
    | (Throw e, s1, ev1) => (Throw e, s1, ev1)
    end.

Definition try_catch {A} (m : M A) (h : Exn -> M A) : M A :=
  fun s =>
    match m s with
    | (Normal a, s1, ev1) => (Normal a, s1, ev1)
    | (Throw e, s1, ev1) =>
        match h e s1 with
        | (r, s2, ev2) => (r, s2, ev1 ++ ev2)
        end
    end.

Definition emit (e : Event) : M unit := fun s => (Normal tt, s, [e]).

Definition get_state : M State := fun s => (Normal s, s, []).

Notation "x <- m ;; k" := (bind m (fun x => k))
  (at level 100, m at next level, right associativity).
Notation "m ;; k" := (bind m (fun _ => k))
  (at level 100, right associativity).

Definition with_outside (s : State) (w : Outside) : State :=
  mkState (transport s) (tools s) (stdin s) w.

Definition set_transport (t : option Transport) : M unit :=
  fun s => (Normal tt, mkState t (tools s) (stdin s) (outside s), []).

Definition set_tools (l : list FunctionDeclaration) : M unit :=
  fun s => (Normal tt, mkState (transport s) l (stdin s) (outside s), []).

Definition set_stdin (l : list string) : M unit :=
  fun s => (Normal tt, mkState (transport s) (tools s) l (outside s), []).

Definition console_log (args : list LogArg) : M unit := emit (Log args).

Definition console_error (args : list LogArg) : M unit := emit (LogError args).

(** An awaited call of a service that returns nothing. *)
Definition call_unit (ev : Event) (f : Outside -> option Exn * Outside) : M unit :=
  fun s =>
    let r := f (outside s) in
    (match fst r with
     | None => Normal tt
     | Some e => Throw e
     end, with_outside s (snd r), [ev]).

(** An awaited call of a service that returns a value. *)
Definition call_value {A} (ev : Event)
    (f : Outside -> Completion A * Outside) : M A :=
  fun s =>
    let r := f (outside s) in
    (fst r, with_outside s (snd r), [ev]).

(** A call of a service whose promise is awaited later. *)
Definition call_start (ev : Event) (f : Outside -> Outside) : M unit :=
  fun s => (Normal tt, with_outside s (f (outside s)), [ev]).

(** ** The methods of [MCPClient] *)

Definition cleanup : M unit := call_unit Close mcp_close.

(** The handlers that [setUpTransport] puts on the transport.  They are
    run by the SDK, when and as often as it sees fit; a run of [main] holds
    the calls of the code of [main] only, and each run of a handler is a
    run of its own. *)
Definition onclose_handler : M unit :=
  console_log [AText "SSE transport closed."] ;;
  cleanup.

Definition onerror_handler (error : Exn) : M unit :=
  console_log [AText "SSE transport error: "; AExn error] ;;
  cleanup.

Definition setUpTransport : M unit :=
  s <- get_state ;;
  match transport s with
  | None => ret tt
  | Some _ => set_transport (Some (mkTransport true true))
  end.

(** The declaration built for one tool: [{ ...tool.inputSchema, type:
    Type.OBJECT, properties: tool.inputSchema.properties }] for its
    parameters. *)
Definition declare (tool : Tool) : FunctionDeclaration :=
  mkFunctionDeclaration
    (tool_name tool)
    (tool_description tool)
    (prop_set "properties"
       (match prop_get "properties" (tool_inputSchema tool) with
        | Some p => p
        | None => JUndefined
        end)
       (prop_set "type" Type_OBJECT (tool_inputSchema tool))).

Definition connectToServer (serverUrl : string) : M unit :=
  try_catch
    ((if URL_valid serverUrl then ret tt
      else throw (TypeError "Invalid URL")) ;;
     set_transport (Some (mkTransport false false)) ;;
     emit (NewTransport serverUrl) ;;
     call_unit Connect mcp_connect ;;
     setUpTransport ;;
     toolsResult <- call_value ListTools mcp_listTools ;;
     set_tools (map declare toolsResult) ;;
     s <- get_state ;;
     console_log [AText "Connected to server with tools:";
                  ANames (map fd_name (tools s))])
    (fun e =>
       console_log [AText "Failed to connect to MCP server: "; AExn e] ;;
       throw e).

(** [x ? x : ""] for a [string | undefined]. *)
Definition text_or_empty (t : option string) : string :=
  match t with
  | Some x => if truthy_string x then x else ""
  | None => ""
  end.

(** [${x}] in a template literal, for a [string | undefined]. *)
Definition in_template (x : option string) : string :=
  match x with
  | Some x => x
  | None => "undefined"
  end.

Definition user_text (query : string) : Json :=
  JObject [ ("role", JString "user");
            ("parts", JArray [ JObject [ ("text", JString query) ] ]) ].

Definition user_functionResponse (name : string) (response : Json) : Json :=
  JObject [ ("role", JString "user");
            ("parts",
             JArray [ JObject [ ("functionResponse",
                                 JObject [ ("name", JString name);
                                           ("response", response) ]) ] ]) ].

Definition calling_line (name : string) (args : option Json) : string :=
  ("[Calling tool " ++ name ++ " with args "
   ++ in_template (JSON_stringify args) ++ "]")%string.

(** [response.candidates && response.candidates[0] &&
    response.candidates[0].content], when truthy. *)
Definition first_candidate_content (response : GenerateContentResponse)
  : option Json :=
  match resp_candidates response with
  | Some (c :: _) => cand_content c
  | _ => None
  end.

(** What the callbacks of one [processQuery] share. *)
Record Shared : Type := mkShared {
  contents : list Json;
  finalText : list string;
  toolResults : list CallToolResult
}.

(** The part of a callback that runs when it is created: up to the call of
    [this.mcp.callTool], or to the end when the call has no name. *)
Definition start_callback (toolCall : FunctionCall) : M (option Task) :=
  match fc_name toolCall with
  | Some name =>
      if truthy_string name then
        console_log [AText ("Calling function: " ++ name)%string] ;;
        console_log [AText "Parameters:";
                     AOptText (JSON_stringify_indented (fc_args toolCall))] ;;
        call_start (CallTool name (fc_args toolCall))
                   (start_callTool name (fc_args toolCall)) ;;
        ret (Some (mkTask name (fc_args toolCall) AwaitCallTool))
      else
        console_error [AText "Tool call without a name:"; ACall toolCall] ;;
        ret None
  | None =>
      console_error [AText "Tool call without a name:"; ACall toolCall] ;;
      ret None
  end.

Fixpoint start_callbacks (calls : list FunctionCall) : M (list Task) :=
  match calls with
  | [] => ret []
  | toolCall :: rest =>
      t <- start_callback toolCall ;;
      ts <- start_callbacks rest ;;
      ret (match t with
           | Some task => task :: ts
           | None => ts
           end)
  end.

(** The part of a callback between the two awaits, once [callTool] has
    resolved with [toolResult]. *)
Definition after_callTool (config : list FunctionDeclaration)
    (response : GenerateContentResponse)
    (task : Task) (toolResult : CallToolResult) (sh : Shared) : M Shared :=
  let sh1 := mkShared (contents sh)
                      (finalText sh
                       ++ [calling_line (task_name task) (task_args task)])
                      (toolResults sh ++ [toolResult]) in
  match result_content toolResult with
  | None =>
      throw (TypeError "Cannot read properties of undefined (reading '0')")
  | Some content =>
      let functionResponse :=
        match content with
        | r :: _ => r
        | [] => JUndefined
        end in
      contents1 <-
        match first_candidate_content response with
        | Some c =>
            console_log [AText "Adding candidate content to contents:";
                         AContent c] ;;
            ret (contents sh1 ++ [c])
        | None => ret (contents sh1)
        end ;;
      let contents2 :=
        contents1 ++ [user_functionResponse (task_name task) functionResponse] in
      call_start (Generate contents2 config)
                 (start_generateContent contents2 config) ;;
      ret (mkShared contents2 (finalText sh1) (toolResults sh1))
  end.

(** The end of a callback, once the second [generateContent] has resolved. *)
Definition after_generate (nextResponse : GenerateContentResponse)
    (sh : Shared) : Shared :=
  mkShared (contents sh)
           (finalText sh ++ [text_or_empty (resp_text nextResponse)])
           (toolResults sh).

Definition ask_settlement (pending : list Task) : M Settlement :=
  fun s =>
    let r := settle pending (outside s) in
    (Normal (fst r), with_outside s (snd r), []).

(** [await Promise.all(...)]: the pending callbacks advance one settlement
    at a time until none is left, or until one of them rejects.  A callback
    needs two settlements at most, which bounds the number of rounds. *)
Fixpoint settle_all (rounds : nat) (config : list FunctionDeclaration)
    (response : GenerateContentResponse)
    (pending : list Task) (sh : Shared) : M Shared :=
  match rounds, pending with
  | _, [] => ret sh
  | 0, _ => ret sh
  | S rounds', _ =>
      st <- ask_settlement pending ;;
      let i := pick st mod length pending in
      match pending !! i with
      | None => ret sh
      | Some task =>
          match task_stage task with
          | AwaitCallTool =>
              match tool_outcome st with
              | Throw e => throw e
              | Normal toolResult =>
                  sh' <- after_callTool config response task toolResult sh ;;
                  let task' :=
                    mkTask (task_name task) (task_args task) AwaitGenerate in
                  settle_all rounds' config response (<[i := task']> pending)
                             sh'
              end
          | AwaitGenerate =>
              match generate_outcome st with
              | Throw e => throw e
              | Normal nextResponse =>
                  settle_all rounds' config response (delete i pending)
                             (after_generate nextResponse sh)
              end
          end
      end
  end.

Definition processQuery (query : string) : M QueryResult :=
  let contents0 := [user_text query] in
  s <- get_state ;;
  let config := tools s in
  console_log [AText "Processing query with contents {} and config {}";
               AContents contents0; ATools config] ;;
  response <- call_value (Generate contents0 config)
                         (generateContent contents0 config) ;;
  match resp_functionCalls response with
  | None => ret (Lines [text_or_empty (resp_text response)])
  | Some [] => ret (Lines [text_or_empty (resp_text response)])
  | Some calls =>
      pending <- start_callbacks calls ;;
      sh <- settle_all (2 * length pending) config response pending
                       (mkShared contents0 [] []) ;;
      console_log [AText "Final text after processing all tool calls:";
                   AText (String.concat newline (finalText sh))] ;;
      ret (Text (String.concat newline (finalText sh)))
  end.

(** [String.prototype.toLowerCase] on the letters A to Z.  Other characters
    are left alone; none of them lowers to one of the letters of "quit",
    which is all the comparison in [chatLoop] depends on. *)
Definition lower_ascii (c : ascii) : ascii :=
  let n := nat_of_ascii c in
  if Nat.leb 65 n && Nat.leb n 90 then ascii_of_nat (n + 32) else c.

Fixpoint toLowerCase (s : string) : string :=
  match s with
  | EmptyString => EmptyString
  | String c rest => String (lower_ascii c) (toLowerCase rest)
  end.

(** ["\n" + response] *)
Definition shown (response : QueryResult) : string :=
  (newline ++ match response with
              | Lines finalText => String.concat "," finalText
              | Text joined => joined
              end)%string.

(** Whether an async function has completed, or is suspended on a promise
    that never settles. *)
Inductive Progress : Type :=
| Finished
| Suspended.

(** The [while (true)] of [chatLoop], on the lines still to be typed. *)
Fixpoint chat_rounds (lines : list string) : M Progress :=
  emit (Question (newline ++ "Query: ")%string) ;;
  match lines with
  | [] =>
      match question_at_end with
      | Some e => throw e
      | None => ret Suspended
      end
  | message :: rest =>
      set_stdin rest ;;
      if String.eqb (toLowerCase message) "quit" then ret Finished
      else
        response <- processQuery message ;;
        console_log [AText (shown response)] ;;
        chat_rounds rest
  end.

(** [try { body } finally { rl.close() }], where [body] may never complete. *)
Definition chatLoop : M Progress :=
  emit CreateInterface ;;
  fun s =>
    match (console_log [AText "Type your queries or 'quit' to exit."] ;;
           s0 <- get_state ;;
           chat_rounds (stdin s0)) s with
    | (Normal Suspended, s1, ev1) => (Normal Suspended, s1, ev1)
    | (r, s1, ev1) => (r, s1, ev1 ++ [CloseInterface])
    end.

(** How [main()] ends. *)
Inductive Ending : Type :=
| Exited (code : Z)
| Rejected (e : Exn)
| Running.

Definition main : State -> Ending * State * list Event :=
  fun s =>
    let port := "3000" in
    match (connectToServer ("http://localhost:" ++ port ++ "/mcp")%string ;;
           chatLoop) s with
    | (Normal Suspended, s1, ev1) => (Running, s1, ev1)
    | (_, s1, ev1) =>
        match cleanup s1 with
        | (Normal _, s2, ev2) => (Exited 0, s2, ev1 ++ ev2 ++ [Exit 0])
        | (Throw e, s2, ev2) => (Rejected e, s2, ev1 ++ ev2)
        end
    end.

(** The module as a whole: it throws while loading when the key is missing
    or empty, and calls [main()] otherwise. *)
Definition start (GEMINI_API_KEY : option string)
  : State -> Ending * State * list Event :=
  fun s =>
    if truthy_header GEMINI_API_KEY then main s
    else (Rejected (Error "GEMINI_API_KEY is not set"), s, []).

(** The settlements a set of pending callbacks still needs. *)
Definition work (pending : list Task) : nat :=
  list_sum (map (fun t => match task_stage t with
                          | AwaitCallTool => 2
                          | AwaitGenerate => 1
                          end) pending).

(** The pending callbacks that have not been through [callTool] yet. *)
Definition awaiting_callTool (pending : list Task) : list Task :=
  flat_map (fun t => match task_stage t with
                     | AwaitCallTool => [t]
                     | AwaitGenerate => []
                     end) pending.

(** The part of the state a query has no business with. *)
Definition same_client (s s' : State) : Prop :=
  transport s' = transport s /\ tools s' = tools s /\ stdin s' = stdin s.

(** A client right after [new MCPClient()]. *)
Definition initial_state (lines : list string) (w : Outside) : State :=
  mkState None [] lines w.

(** ** Reading the outcome of a run *)

Definition result_of {A} (o : Completion A * State * list Event) : Completion A :=
  fst (fst o).

Definition state_after {A} (o : A * State * list Event) : State :=
  snd (fst o).

Definition events_of {A} (o : A * State * list Event) : list Event :=
  snd o.

Definition ending_of (o : Ending * State * list Event) : Ending :=
  fst (fst o).

(** The tools called, in order. *)
Definition tool_calls (evs : list Event) : list (string * option Json) :=
  flat_map (fun e => match e with
                     | CallTool name args => [(name, args)]
                     | _ => []
                     end) evs.

(** The number of calls of [generateContent]. *)
Definition generations (evs : list Event) : nat :=
  length (flat_map (fun e => match e with
                             | Generate _ _ => [tt]
                             | _ => []
                             end) evs).

(** The number of calls of [rl.question]. *)
Definition questions_asked (evs : list Event) : nat :=
  length (flat_map (fun e => match e with
                             | Question _ => [tt]
                             | _ => []
                             end) evs).

(** The number of calls of [rl.close]. *)
Definition interface_closings (evs : list Event) : nat :=
  length (flat_map (fun e => match e with
                             | CloseInterface => [tt]
                             | _ => []
                             end) evs).

(** The number of calls of [this.mcp.close]. *)
Definition mcp_closings (evs : list Event) : nat :=
  length (flat_map (fun e => match e with
                             | Close => [tt]
                             | _ => []
                             end) evs).

(** The number of calls of [readline.createInterface]. *)
Definition interfaces_created (evs : list Event) : nat :=
  length (flat_map (fun e => match e with
                             | CreateInterface => [tt]
                             | _ => []
                             end) evs).

(** The calls of [generateContent] made with one content only: that is how
    a query starts, later calls carry the exchange so far. *)
Definition queries_started (evs : list Event) : list Json :=
  flat_map (fun e => match e with
                     | Generate [c] _ => [c]
                     | _ => []
                     end) evs.

(** The events of a conversation with the model and the tools: logs and
    calls of [generateContent] and [callTool]. *)
Definition model_event (e : Event) : Prop :=
  match e with
  | Log _ | LogError _ | Generate _ _ | CallTool _ _ => True
  | _ => False
  end.

(** The URL that [main] connects to. *)
Definition server_url : string := "http://localhost:3000/mcp".

(** The function calls that have a name. *)
Definition named_calls (calls : list FunctionCall) : list (string * option Json) :=
  flat_map (fun c => match fc_name c with
                     | Some name =>
                         if truthy_string name then [(name, fc_args c)] else []
                     | None => []
                     end) calls.

End Program.

(** ** Services to run the client on *)

Definition echo_tool : Tool :=
  mkTool "echo" (Some "Repeats its input")
    [ ("type", JString "object");
      ("properties", JObject [ ("text", JObject [ ("type", JString "string") ]) ]);
      ("required", JArray [ JString "text" ]) ].

Definition echo_result : CallToolResult :=
  mkCallToolResult
    (Some [ JObject [ ("type", JString "text"); ("text", JString "hi") ] ]).

(** The server offers one tool; the model gives [answer] to every query and
    the text ["done"] once it has a tool result; the first pending promise
    always settles first; nothing fails but [connect], when told to. *)
Definition stub_services (connect_ok : bool) (answer : GenerateContentResponse)
  : Services := {|
  Outside := unit;
  Type_OBJECT := JString "OBJECT";
  generateContent := fun _ _ w => (Normal answer, w);
  start_generateContent := fun _ _ w => w;
  mcp_connect := fun w =>
    (if connect_ok then None else Some (Error "fetch failed"), w);
  mcp_listTools := fun w => (Normal [echo_tool], w);
  start_callTool := fun _ _ w => w;
  mcp_close := fun w => (None, w);
  settle := fun _ w =>
    (mkSettlement 0 (Normal echo_result)
       (Normal (mkResponse (Some "done") None None)), w);
  URL_valid := fun url => truthy_string url;
  JSON_stringify := fun _ => Some "{}";
  JSON_stringify_indented := fun _ => Some "{}";
  question_at_end := None
|}.

(** An answer in plain text, and an answer that asks for two function
    calls, the second of which has no name. *)
Definition plain_answer : GenerateContentResponse :=
  mkResponse (Some "hello") None None.

Definition calling_answer : GenerateContentResponse :=
  mkResponse None
    (Some [ mkFunctionCall (Some "echo") (Some (JObject [ ("text", JString "hi") ]));
            mkFunctionCall None None ])
    None.

(** As [stub_services], with a model that rejects every request. *)
Definition failing_model : Services := {|
  Outside := unit;
  Type_OBJECT := JString "OBJECT";
  generateContent := fun _ _ w => (Throw (Error "quota exceeded"), w);
  start_generateContent := fun _ _ w => w;
  mcp_connect := fun w => (None, w);
  mcp_listTools := fun w => (Normal [echo_tool], w);
  start_callTool := fun _ _ w => w;
  mcp_close := fun w => (None, w);
  settle := fun _ w =>
    (mkSettlement 0 (Normal echo_result) (Throw (Error "quota exceeded")), w);
  URL_valid := fun url => truthy_string url;
  JSON_stringify := fun _ => Some "{}";
  JSON_stringify_indented := fun _ => Some "{}";
  question_at_end := None
|}.

End Client.

(** * Properties *)

(** ** Session ids printed by [randomUUID] *)

Lemma uuid_length (u : Uuid) : String.length (uuid_to_string u) = 36.
Proof. reflexivity. Qed.

Lemma uuid_truthy (u : Uuid) : truthy_string (uuid_to_string u) = true.
Proof. reflexivity. Qed.

(** No printed id is a property name of [Object.prototype]: the names are
    all shorter than 36 characters. *)
Lemma uuid_not_prototype_key (u : Uuid) :
  uuid_to_string u ∉ Object_prototype_keys.
Proof.
  intros H.
  apply (list_elem_of_fmap_2 String.length) in H.
  rewrite uuid_length in H. apply list_elem_of_In in H.
  vm_compute in H. intuition discriminate.
Qed.

Lemma get_slot_own (own : gmap string loc) (key : string) (l : loc) :
  own !! key = Some l -> get_slot own key = STransport l.
Proof. intros H. unfold get_slot. by rewrite H. Qed.

Lemma get_slot_inherited (own : gmap string loc) (key : string) :
  key ∈ Object_prototype_keys -> own !! key = None ->
  get_slot own key = SInherited key.
Proof.
  intros Hin H. unfold get_slot. rewrite H.
  by rewrite bool_decide_eq_true_2.
Qed.

Lemma get_slot_absent (own : gmap string loc) (key : string) :
  key ∉ Object_prototype_keys -> own !! key = None ->
  get_slot own key = SUndefined.
Proof.
  intros Hin H. unfold get_slot. rewrite H.
  by rewrite bool_decide_eq_false_2.
Qed.

Lemma truthy_slot_get (own : gmap string loc) (key : string) :
  truthy_slot (get_slot own key) = true <->
  is_Some (own !! key) \/ key ∈ Object_prototype_keys.
Proof.
  unfold get_slot. destruct (own !! key) as [l|] eqn:E; cbn.
  - split; [intros _; left; eauto | done].
  - case_bool_decide; cbn; split; try done.
    + by right.
    + intros [[? ?]|?]; done.
Qed.

Section Properties.
Context `{sdk_ops : SDK}.

Ltac unfold_server :=
  unfold handleGetRequest, handlePostRequest, cleanup, on_SIGINT,
    callToolHandler, listToolsHandler, streamMessages, sendNotification,
    createErrorResponse, makeError_spec, call_handleRequest, call_send,
    transport_handleRequest, transport_send, transport_sessionId,
    set_transport, server_connect, server_close, new_transport,
    randomUUID_call, res_status_json, new_response, console_log,
    console_error, unawaited, try_catch, bind, ret, throw, emit, get_state,
    with_world, with_headersSent, state_after, result_of, events_of,
    completion_of in *.

(** ** The initialize predicate *)

(** C6. [isInitializeRequest] answers [true] on an array exactly when some
    element parses as an initialize request, and on any other body it
    answers what the parse of the body itself answers. *)
Theorem isInitializeRequest_spec :
  (forall items : list Json,
      isInitializeRequest (JArray items) = true <->
      exists request, request ∈ items
                      /\ InitializeRequestSchema_safeParse request = true)
  /\ (forall body : Json,
        is_array body = false ->
        isInitializeRequest body = InitializeRequestSchema_safeParse body).
Proof.
  split.
  - intros items. unfold isInitializeRequest. rewrite existsb_exists.
    split; intros (request & Hin & Hp); exists request; split; try done;
      by apply list_elem_of_In.
  - intros body Harr. by destruct body.
Qed.

(** ** Error envelopes *)

Lemma serve_cons_events (c : Call) (rest : list Call) (s : State) :
  events_of (serve (c :: rest) s)
  = events_of (route c s) ++ events_of (serve rest (state_after (route c s))).
Proof.
  cbn [serve]. unfold bind, events_of, state_after.
  assert (Hr : result_of (route c s) = Normal tt).
  { destruct c; unfold route, unawaited, result_of.
    - destruct (handlePostRequest req s) as [[[a|e] s1] ev1]; reflexivity.
    - destruct (handleGetRequest req s) as [[[a|e] s1] ev1]; reflexivity. }
  unfold result_of in Hr.
  destruct (route c s) as [[r s1] ev1]. cbn in Hr. subst r. cbn.
  by destruct (serve rest s1) as [[r2 s2] ev2].
Qed.

(** The two answers the server's own code can write. *)
Lemma route_responses (c : Call) (s : State) (status : Z) (payload : Json) :
  In (status, payload) (responses (events_of (route c s))) ->
  exists message k,
    payload = error_envelope message (uuid_to_string (randomUUID k))
    /\ ((status = 400%Z
         /\ message = "Bad Request: invalid session ID or method.")
        \/ (status = 500%Z /\ message = "Internal server error.")).
Proof.
  assert (Hleaf : forall message k st,
             In (status, payload)
                [(st, error_envelope message (uuid_to_string (randomUUID k)))] ->
             (st = 400%Z /\ message = "Bad Request: invalid session ID or method.")
             \/ (st = 500%Z /\ message = "Internal server error.") ->
             exists message k,
               payload = error_envelope message (uuid_to_string (randomUUID k))
               /\ ((status = 400%Z
                    /\ message = "Bad Request: invalid session ID or method.")
                   \/ (status = 500%Z /\ message = "Internal server error."))).
  { intros message k st [H|[]] Hcase. injection H as <- <-. eauto. }
  destruct c; unfold route; unfold_server; cbn.
  - destruct (truthy_header (session_header req)); cbn.
    + destruct (lookup_session (transports s) (session_header req))
        as [|l0|k]; cbn;
        try (intros H; eapply Hleaf; [exact H | tauto]).
      destruct (sdk_handleRequest _ _ _ _ _) as [[e|] [|] [|] w0]; cbn;
        try tauto; try (intros H; eapply Hleaf; [exact H | tauto]).
    + destruct (isInitializeRequest (body req)); cbn;
        try (intros H; eapply Hleaf; [exact H | tauto]).
      destruct (sdk_connect _ _ _) as [[e|] w1]; cbn;
        try (intros H; eapply Hleaf; [exact H | tauto]).
      destruct (sdk_handleRequest _ _ _ _ _) as [[e|] [|] [|] w2]; cbn;
        rewrite ?lookup_insert_eq, ?lookup_delete_eq; cbn;
        rewrite ?uuid_truthy; cbn;
        try tauto; try (intros H; eapply Hleaf; [exact H | tauto]).
  - destruct (truthy_header (session_header req)); cbn;
      try (intros H; eapply Hleaf; [exact H | tauto]).
    destruct (lookup_session (transports s) (session_header req))
      as [|l0|k]; cbn; try tauto;
      try (intros H; eapply Hleaf; [exact H | tauto]).
    destruct (sdk_handleRequest _ _ _ _ _) as [[e|] [|] [|] w0]; cbn; try tauto.
    all: destruct (sdk_send _ _ _ _) as [[e'|] w1]; cbn; tauto.
Qed.

Lemma responses_app (evs1 evs2 : list Event) :
  responses (evs1 ++ evs2) = responses evs1 ++ responses evs2.
Proof. unfold responses. apply flat_map_app. Qed.

Lemma serve_responses
    (calls : list Call) (s : State) (status : Z) (payload : Json) :
  In (status, payload) (responses (events_of (serve calls s))) ->
  exists message k,
    payload = error_envelope message (uuid_to_string (randomUUID k))
    /\ ((status = 400%Z
         /\ message = "Bad Request: invalid session ID or method.")
        \/ (status = 500%Z /\ message = "Internal server error.")).
Proof.
  revert s. induction calls as [|c rest IH]; intros s.
  - cbn. tauto.
  - rewrite serve_cons_events, responses_app, in_app_iff.
    intros [H|H]; [by eapply route_responses | by eapply IH].
Qed.

(** C5, as the code has it. [createErrorResponse] takes the message and
    nothing else; the envelope it builds has the three properties [jsonrpc],
    [error] and [id] in that order, with tag ["2.0"], code [-32000], the
    given message, and for id the print of the next [randomUUID] draw, which
    it consumes.  It is [makeError] with no id supplied.  Every response the
    server's own code writes, whatever the requests, carries such an
    envelope, with status 400 or 500 and the message that goes with it. *)
Theorem createErrorResponse_shape (message : string) (s : State) :
  let o := createErrorResponse message s in
  let token := uuid_to_string (randomUUID (uuid_draws s)) in
  o = makeError_spec message None s
  /\ result_of o = Normal (error_envelope message token)
  /\ uuid_draws (state_after o) = S (uuid_draws s)
  /\ transports (state_after o) = transports s
  /\ events_of o = []
  /\ json_keys (error_envelope message token) = ["jsonrpc"; "error"; "id"]
  /\ json_get "jsonrpc" (error_envelope message token) = Some (JString "2.0")
  /\ json_get "error" (error_envelope message token)
     = Some (JObject [("code", JNumber (-32000)); ("message", JString message)])
  /\ json_get "id" (error_envelope message token) = Some (JString token)
  /\ (forall calls s0 status payload,
        In (status, payload) (responses (events_of (serve calls s0))) ->
        exists message' k,
          payload = error_envelope message' (uuid_to_string (randomUUID k))
          /\ ((status = 400%Z
               /\ message' = "Bad Request: invalid session ID or method.")
              \/ (status = 500%Z /\ message' = "Internal server error."))).
Proof.
  cbn. do 9 (split; [reflexivity|]).
  intros calls s0 status payload. apply serve_responses.
Qed.

(** ** The tool-call handler *)

(** C4, as the code has it. The handler registered for tool calls ends
    every call by throwing an [Error], which is the value its caller, the
    request dispatch of the SDK, receives: [InvalidArguments] when the
    arguments are absent, whatever the name; [ToolNotFound] when the
    arguments are present and the name is not empty, whatever the name, as
    no tool is registered; and the error ["tool name undefined"] when the
    arguments are present and the name is empty.  The call writes no
    response, sends nothing and touches nothing of the server's state: its
    one effect is a line of [console.log]. *)
Theorem callToolHandler_failures :
  (forall (toolName : string) (s : State),
      result_of (callToolHandler (mkCallToolRequest toolName None) s)
      = Throw InvalidArguments)
  /\ (forall (toolName : string) (args : list (string * Json)) (s : State),
        toolName <> "" ->
        result_of (callToolHandler (mkCallToolRequest toolName (Some args)) s)
        = Throw ToolNotFound)
  /\ (forall (args : list (string * Json)) (s : State),
        result_of (callToolHandler (mkCallToolRequest "" (Some args)) s)
        = Throw (Error "tool name undefined"))
  /\ (forall (request : CallToolRequest) (s : State),
        state_after (callToolHandler request s) = s
        /\ events_of (callToolHandler request s)
           = [EvLog [LText "Received request for tool with argument:";
                     LText (params_name request);
                     LArgs (params_arguments request)]]
        /\ exists message,
            result_of (callToolHandler request s) = Throw (Error message)).
Proof.
  split; [|split; [|split]].
  - reflexivity.
  - intros toolName args s Hne. unfold_server. cbn.
    destruct toolName; [done | reflexivity].
  - reflexivity.
  - intros request s. unfold_server. cbn.
    destruct (params_arguments request); cbn;
      [destruct (truthy_string _)|]; cbn; eauto.
Qed.

(** ** Requests that name no session *)

Lemma prototype_key_truthy (key : string) :
  key ∈ Object_prototype_keys -> truthy_string key = true.
Proof.
  intros H. apply list_elem_of_In in H. cbn in H.
  repeat (destruct H as [<-|H]; [reflexivity|]). done.
Qed.

(** A submission with no usable session id that is not an initialize
    request, or with a session id that is neither registered nor a property
    name of [Object.prototype], is answered 400 with the error envelope. *)
Lemma handlePostRequest_bad_request (req : Request) (s : State) :
  (truthy_header (session_header req) = false
   /\ isInitializeRequest (body req) = false)
  \/ (exists sid, session_header req = Some sid /\ sid <> ""
                  /\ transports s !! sid = None
                  /\ sid ∉ Object_prototype_keys) ->
  responses (events_of (handlePostRequest req s))
  = [(400%Z, error_envelope "Bad Request: invalid session ID or method."
             (uuid_to_string (randomUUID (uuid_draws s))))]
  /\ handled_by (events_of (handlePostRequest req s)) = [].
Proof.
  intros [[Hh Hi] | (sid & Hh & Hne & Hnone & Hproto)]; unfold_server; cbn.
  - rewrite Hh, Hi. cbn. done.
  - rewrite Hh. cbn. rewrite (get_slot_absent _ _ Hproto Hnone).
    destruct sid; [done|]. cbn. done.
Qed.

Lemma handleGetRequest_bad_request (req : Request) (s : State) :
  truthy_header (session_header req) = false
  \/ (exists sid, session_header req = Some sid
                  /\ transports s !! sid = None
                  /\ sid ∉ Object_prototype_keys) ->
  responses (events_of (handleGetRequest req s))
  = [(400%Z, error_envelope "Bad Request: invalid session ID or method."
             (uuid_to_string (randomUUID (uuid_draws s))))]
  /\ handled_by (events_of (handleGetRequest req s)) = [].
Proof.
  intros [Hh | (sid & Hh & Hnone & Hproto)]; unfold_server; cbn.
  - rewrite Hh. cbn. done.
  - rewrite Hh. cbn. rewrite (get_slot_absent _ _ Hproto Hnone).
    rewrite orb_true_r. done.
Qed.

(** C2, at the session ids the code gets wrong. A session id that is a
    property name of [Object.prototype] was never registered, yet the read
    [this.transports[sessionId]] finds the inherited property and takes it
    for a transport: the submission is answered 500 with the message
    ["Internal server error."], and the request to open the push channel
    throws a [TypeError] without writing any response, a rejection that the
    route callback leaves unhandled. *)
Theorem prototype_key_not_rejected (key : string) (b : Json) (s : State) :
  key ∈ Object_prototype_keys ->
  transports s !! key = None ->
  let req := mkRequest (Some key) b in
  responses (events_of (handlePostRequest req s))
  = [(500%Z, error_envelope "Internal server error."
             (uuid_to_string (randomUUID (uuid_draws s))))]
  /\ result_of (handleGetRequest req s)
     = Throw (TypeError "transport.handleRequest is not a function")
  /\ responses (events_of (handleGetRequest req s)) = []
  /\ last (events_of (route (GetCall req) s))
     = Some (EvUnhandledRejection
               (TypeError "transport.handleRequest is not a function")).
Proof.
  intros Hkey Hnone req. subst req. unfold route. unfold_server. cbn.
  rewrite (get_slot_inherited _ _ Hkey Hnone).
  rewrite (prototype_key_truthy _ Hkey). cbn. done.
Qed.

(** ** Shutdown *)

(** C7, as the code has it. On SIGINT the server logs, closes the tool timer
    if there is one, and calls [this.server.close()]; when that resolves the
    process exits with code 0, and when it rejects nothing handles the
    rejection.  [this.transports] is not touched, and the server's own code
    calls no method of any registered transport. *)
Theorem on_SIGINT_effects (s : State) :
  let o := on_SIGINT s in
  let closing := sdk_close (session_ids s) (world s) in
  transports (state_after o) = transports s
  /\ session_ids (state_after o) = session_ids s
  /\ world (state_after o) = snd closing
  /\ events_of o
     = EvLog [LText "Shutting down server..."]
       :: match toolInterval s with
          | Some t => [EvTimeoutClose t]
          | None => []
          end
       ++ EvServerClose
       :: match fst closing with
          | None => [EvExit 0]
          | Some e => [EvUnhandledRejection e]
          end.
Proof.
  unfold_server. cbn.
  destruct (toolInterval s); cbn;
    destruct (sdk_close _ _) as [[e|] w]; cbn; done.
Qed.

(** ** Closing twice *)

(** The server's part in closing twice, on any SDK.  A second [cleanup]
    leaves every field of the server as the first call left it, the
    registry among them; and when closing the SDK server a second time
    leaves the SDK's world as it is, the whole state after the second call
    is the state after the first. *)
Theorem cleanup_idempotent (s : State) :
  let s1 := state_after (cleanup s) in
  let s2 := state_after (cleanup s1) in
  (transports s2 = transports s1
   /\ toolInterval s2 = toolInterval s1
   /\ session_ids s2 = session_ids s1
   /\ allocated s2 = allocated s1
   /\ uuid_draws s2 = uuid_draws s1)
  /\ ((forall ids w, snd (sdk_close ids (snd (sdk_close ids w)))
                     = snd (sdk_close ids w)) ->
      s2 = s1).
Proof.
  unfold_server. cbn.
  destruct (toolInterval s) eqn:Ht; cbn; rewrite ?Ht; cbn.
  all: split; [done|]; intros Hidem; f_equal; apply Hidem.
Qed.

(** ** One request at a time: what a handler can do to the state *)

Lemma handleGetRequest_step (req : Request) (s : State) :
  let s' := state_after (handleGetRequest req s) in
  transports s' = transports s
  /\ allocated s' = allocated s
  /\ uuid_draws s <= uuid_draws s'.
Proof.
  unfold_server. cbn.
  destruct (truthy_header (session_header req)); cbn; [|repeat split; lia].
  destruct (lookup_session (transports s) (session_header req)) as [|l|k]; cbn;
    try (repeat split; lia).
  destruct (sdk_handleRequest _ _ _ _ _) as [e g h w]; cbn.
  destruct g, e, h; cbn; try (repeat split; lia).
  all: destruct (sdk_send _ _ _ _) as [e' w']; destruct e'; cbn;
    repeat split; lia.
Qed.

Lemma handlePostRequest_step (req : Request) (s : State) :
  let s' := state_after (handlePostRequest req s) in
  uuid_draws s <= uuid_draws s'
  /\ allocated s <= allocated s'
  /\ (transports s' = transports s
      \/ (truthy_header (session_header req) = false
          /\ isInitializeRequest (body req) = true
          /\ sdk_starts_session req s = true
          /\ uuid_draws s' = S (uuid_draws s)
          /\ allocated s' = S (allocated s)
          /\ session_ids s' !! allocated s = Some (randomUUID (uuid_draws s))
          /\ transports s'
             = <[uuid_to_string (randomUUID (uuid_draws s)) := allocated s]>
                 (transports s))).
Proof.
  unfold sdk_starts_session. unfold_server. cbn.
  destruct (truthy_header (session_header req)) eqn:Hh; cbn.
  - destruct (lookup_session (transports s) (session_header req)) as [|l|k];
      cbn; try (repeat split; (lia || by left)).
    destruct (sdk_handleRequest _ _ _ _ _) as [e g h w]; cbn.
    destruct g, e, h; cbn; repeat split; (lia || by left).
  - destruct (isInitializeRequest (body req)) eqn:Hi; cbn;
      [|repeat split; (lia || by left)].
    destruct (sdk_connect _ _ _) as [[e|] w]; cbn;
      [repeat split; (lia || by left)|].
    destruct (sdk_handleRequest _ _ _ _ _) as [e g h w']; cbn.
    destruct g, e, h; cbn;
      rewrite ?lookup_insert_eq, ?lookup_delete_eq; cbn;
      rewrite ?uuid_truthy; cbn;
      try (repeat split; (lia || by left)).
    all: split; [lia|]; split; [lia|]; right;
      rewrite lookup_insert_eq; done.
Qed.

(** ** Opening the push channel leaves the registry alone *)

(** C10. Whatever the request and the state, and whether the call answers
    400, opens the stream or throws, [handleGetRequest] leaves
    [this.transports] as it found it; and a submission changes the registry
    only when it carries no usable session id and its body satisfies
    [isInitializeRequest]. *)
Theorem handleGetRequest_preserves_transports :
  (forall (req : Request) (s : State),
      transports (state_after (handleGetRequest req s)) = transports s)
  /\ (forall (req : Request) (s : State),
        transports (state_after (handlePostRequest req s)) <> transports s ->
        truthy_header (session_header req) = false
        /\ isInitializeRequest (body req) = true).
Proof.
  split.
  - intros req s. apply handleGetRequest_step.
  - intros req s Hchanged.
    destruct (handlePostRequest_step req s) as (_ & _ & [Hsame | Hnew]).
    + done.
    + by destruct Hnew as (Hh & Hi & _).
Qed.

Lemma unawaited_state (m : M unit) (s : State) :
  state_after (unawaited m s) = state_after (m s).
Proof.
  unfold unawaited, state_after.
  destruct (m s) as [[[a|e] s1] ev1]; reflexivity.
Qed.

Lemma route_result (c : Call) (s : State) : result_of (route c s) = Normal tt.
Proof.
  destruct c; unfold route, unawaited, result_of.
  - destruct (handlePostRequest req s) as [[[a|e] s1] ev1]; reflexivity.
  - destruct (handleGetRequest req s) as [[[a|e] s1] ev1]; reflexivity.
Qed.

Lemma route_step (c : Call) (s : State) : step_ok s (state_after (route c s)).
Proof.
  destruct c; unfold route; rewrite unawaited_state; unfold step_ok.
  - destruct (handlePostRequest_step req s) as (Hd & Ha & [Ht|Hins]).
    + by auto.
    + destruct Hins as (_ & _ & _ & Hd' & Ha' & _ & Ht).
      split; [done|]. split; [done|]. right. rewrite Hd', Ha'. auto.
  - destruct (handleGetRequest_step req s) as (Ht & Ha & Hd).
    rewrite Ha. auto.
Qed.

Lemma serve_cons_state (c : Call) (rest : list Call) (s : State) :
  state_after (serve (c :: rest) s)
  = state_after (serve rest (state_after (route c s))).
Proof.
  cbn [serve]. unfold bind, state_after.
  pose proof (route_result c s) as Hr. unfold result_of in Hr.
  destruct (route c s) as [[r s1] ev1]. cbn in Hr. subst r. cbn.
  by destruct (serve rest s1) as [[r2 s2] ev2].
Qed.

(** ** Invariants of the registry *)

Lemma registry_ok_initial (w : World) : registry_ok (initial_state w).
Proof. intros sid l H. cbn in H. by rewrite lookup_empty in H. Qed.

Lemma registry_injective_initial (w : World) :
  registry_injective (initial_state w).
Proof. intros sid1 sid2 l H. cbn in H. by rewrite lookup_empty in H. Qed.

Lemma step_registry_ok (s s' : State) :
  step_ok s s' -> registry_ok s -> registry_ok s'.
Proof.
  intros (Hd & Ha & Hcase) Hok sid l Hl.
  destruct Hcase as [Ht | (Hd' & Ha' & Ht)]; rewrite Ht in Hl.
  - destruct (Hok sid l Hl) as (Hlt & k & Hk & ->).
    split; [lia|]. exists k. split; [lia | done].
  - destruct (decide (uuid_to_string (randomUUID (uuid_draws s)) = sid))
      as [<- | Hne].
    + rewrite lookup_insert_eq in Hl. injection Hl as <-.
      split; [lia|]. exists (uuid_draws s). split; [lia | done].
    + rewrite lookup_insert_ne in Hl by done.
      destruct (Hok sid l Hl) as (Hlt & k & Hk & ->).
      split; [lia|]. exists k. split; [lia | done].
Qed.

Lemma step_registry_injective (s s' : State) :
  step_ok s s' -> registry_ok s -> registry_injective s ->
  registry_injective s'.
Proof.
  intros (Hd & Ha & Hcase) Hok Hinj sid1 sid2 l H1 H2.
  destruct Hcase as [Ht | (Hd' & Ha' & Ht)]; rewrite Ht in H1, H2.
  - by eapply Hinj.
  - set (key := uuid_to_string (randomUUID (uuid_draws s))) in *.
    destruct (decide (key = sid1)) as [E1|N1], (decide (key = sid2)) as [E2|N2].
    + congruence.
    + subst sid1. rewrite lookup_insert_eq in H1. injection H1 as <-.
      rewrite lookup_insert_ne in H2 by done.
      destruct (Hok sid2 _ H2) as [Hlt _]. lia.
    + subst sid2. rewrite lookup_insert_eq in H2. injection H2 as <-.
      rewrite lookup_insert_ne in H1 by done.
      destruct (Hok sid1 _ H1) as [Hlt _]. lia.
    + rewrite lookup_insert_ne in H1, H2 by done. by eapply Hinj.
Qed.

Lemma serve_invariants (calls : list Call) (s : State) :
  registry_ok s -> registry_injective s ->
  registry_ok (state_after (serve calls s))
  /\ registry_injective (state_after (serve calls s)).
Proof.
  revert s. induction calls as [|c rest IH]; intros s Hok Hinj.
  - by split.
  - rewrite serve_cons_state. apply IH.
    + by eapply step_registry_ok; [apply route_step|].
    + by eapply step_registry_injective; [apply route_step| |].
Qed.

Lemma serve_draws_mono (calls : list Call) (s : State) :
  uuid_draws s <= uuid_draws (state_after (serve calls s)).
Proof.
  revert s. induction calls as [|c rest IH]; intros s.
  - cbn. lia.
  - rewrite serve_cons_state.
    destruct (route_step c s) as (Hd & _). specialize (IH (state_after (route c s))).
    lia.
Qed.

(** An entry stays where it is as long as no later draw prints its key. *)
Lemma serve_keeps_entry (calls : list Call) (s : State) (sid : string) (l : loc) :
  transports s !! sid = Some l ->
  (forall k, uuid_draws s <= k ->
             k < uuid_draws (state_after (serve calls s)) ->
             uuid_to_string (randomUUID k) <> sid) ->
  transports (state_after (serve calls s)) !! sid = Some l.
Proof.
  revert s. induction calls as [|c rest IH]; intros s Hl Hfresh.
  - done.
  - rewrite serve_cons_state in *.
    pose proof (serve_draws_mono rest (state_after (route c s))) as Hmono.
    destruct (route_step c s) as (Hd & Ha & Hcase).
    apply IH.
    + destruct Hcase as [Ht | (Hd' & Ha' & Ht)]; rewrite Ht; [done|].
      rewrite lookup_insert_ne; [done|]. apply Hfresh; lia.
    + intros k Hk1 Hk2. apply Hfresh; lia.
Qed.

(** ** Insertion into the registry *)

(** C8, as the code has it. In a server that has served any sequence of
    requests, a further submission whose draws, with all those made before,
    print to pairwise different ids (the generator's uniqueness, which the
    code relies on and does not check) overwrites nothing: every
    entry of the registry is still there afterwards; if an entry was added,
    its key was free and its transport was registered under no id before;
    and no transport is registered under two ids. *)
Theorem registry_never_overwritten
    (calls : list Call) (req : Request) (w : World) :
  let s := state_after (serve calls (initial_state w)) in
  let s' := state_after (handlePostRequest req s) in
  distinct_draws 0 (uuid_draws s') ->
  (forall sid l, transports s !! sid = Some l -> transports s' !! sid = Some l)
  /\ (transports s' = transports s
      \/ exists sid,
           transports s !! sid = None
           /\ (forall sid', transports s !! sid' <> Some (allocated s))
           /\ transports s' = <[sid := allocated s]> (transports s))
  /\ registry_injective s'.
Proof.
  intros s s' Hdistinct.
  destruct (serve_invariants calls (initial_state w)
              (registry_ok_initial w) (registry_injective_initial w))
    as [Hok Hinj].
  fold s in Hok, Hinj.
  assert (Hstep : step_ok s s').
  { pose proof (route_step (PostCall req) s) as H.
    unfold route in H. by rewrite unawaited_state in H. }
  assert (Hinj' : registry_injective s')
    by (by eapply step_registry_injective).
  destruct Hstep as (Hd & Ha & [Ht | (Hd' & Ha' & Ht)]).
  - rewrite Ht. split; [done|]. split; [by left | done].
  - set (key := uuid_to_string (randomUUID (uuid_draws s))) in *.
    assert (Hfree : transports s !! key = None).
    { destruct (transports s !! key) as [l0|] eqn:E; [|done].
      destruct (Hok key l0 E) as (_ & k & Hk & Hkey).
      exfalso. apply (Hdistinct k (uuid_draws s)); [lia | lia | lia |].
      by rewrite <- Hkey. }
    split; [|split; [right; exists key; repeat split; try done|done]].
    + intros sid l Hl. rewrite Ht.
      rewrite lookup_insert_ne; [done|]. intros ->. congruence.
    + intros sid' Hl. destruct (Hok sid' _ Hl) as [Hlt _]. lia.
Qed.

(** ** Creating a session and finding it again *)

(** Requests that carry a registered, non-empty session id reach the
    transport registered under it, and no other. *)
Lemma handlers_route_to_registered
    (s : State) (sid : string) (l : loc) (b : Json) :
  transports s !! sid = Some l -> sid <> "" ->
  handled_by (events_of (handlePostRequest (mkRequest (Some sid) b) s)) = [l]
  /\ handled_by (events_of (handleGetRequest (mkRequest (Some sid) b) s)) = [l].
Proof.
  intros Hl Hne.
  assert (Ht : truthy_string sid = true) by (by destruct sid).
  unfold_server. cbn. rewrite (get_slot_own _ _ _ Hl), Ht. cbn.
  split.
  - destruct (sdk_handleRequest _ _ _ _ _) as [[e|] [|] [|] w0]; reflexivity.
  - destruct (sdk_handleRequest _ _ _ _ _) as [[e|] [|] [|] w0]; cbn;
      try reflexivity.
    all: destruct (sdk_send _ _ _ _) as [[e'|] w1]; reflexivity.
Qed.

(** C1, as the code has it. A submission with no usable session id whose
    body satisfies [isInitializeRequest] makes the server construct a new
    transport, connect it and hand it the request. When the SDK goes
    through with it ([connect] resolves, [handleRequest] returns and has
    run the id generator), the transport is registered under the id it then
    reports, which is the print of that draw; the server's own code writes
    no response (answering, session id included, is the transport's work).
    From then on, and as long as no later draw prints the same id, every
    request that carries this id is handed to that same transport.  When the
    SDK does not go through with it, the registry is left as it was. *)
Theorem initialize_registers_session
    (history : list Call) (req : Request) (w : World) :
  let s := state_after (serve history (initial_state w)) in
  let l := allocated s in
  let sid := uuid_to_string (randomUUID (uuid_draws s)) in
  let o := handlePostRequest req s in
  let s' := state_after o in
  truthy_header (session_header req) = false ->
  isInitializeRequest (body req) = true ->
  (sdk_starts_session req s = false -> transports s' = transports s)
  /\ (sdk_starts_session req s = true ->
      result_of o = Normal tt
      /\ transports s' = <[sid := l]> (transports s)
      /\ session_ids s' !! l = Some (randomUUID (uuid_draws s))
      /\ (forall sid', transports s !! sid' <> Some l)
      /\ handled_by (events_of o) = [l]
      /\ responses (events_of o) = []
      /\ forall (later : list Call) (b : Json),
           let s'' := state_after (serve later s') in
           (forall k, uuid_draws s' <= k -> k < uuid_draws s'' ->
                      uuid_to_string (randomUUID k) <> sid) ->
           handled_by
             (events_of (handlePostRequest (mkRequest (Some sid) b) s''))
           = [l]
           /\ handled_by
                (events_of (handleGetRequest (mkRequest (Some sid) b) s''))
              = [l]).
Proof.
  intros s l sid o s' Hh Hi. split.
  { intros Hsdk.
    destruct (handlePostRequest_step req s) as (_ & _ & [Hsame | Hnew]).
    - done.
    - destruct Hnew as (_ & _ & Hstarts & _). congruence. }
  intros Hsdk.
  destruct (serve_invariants history (initial_state w)
              (registry_ok_initial w) (registry_injective_initial w))
    as [Hok _].
  fold s in Hok.
  assert (Hrun : result_of o = Normal tt
                 /\ transports s' = <[sid := l]> (transports s)
                 /\ session_ids s' !! l = Some (randomUUID (uuid_draws s))
                 /\ handled_by (events_of o) = [l]
                 /\ responses (events_of o) = []).
  { subst o s' sid l. revert Hsdk. generalize s. clear Hok s. intros s Hsdk.
    unfold sdk_starts_session in Hsdk. unfold_server. cbn.
    rewrite Hh, Hi. cbn.
    destruct (sdk_connect _ _ _) as [[e|] w1]; cbn in *; [done|].
    destruct (sdk_handleRequest _ _ _ _ _) as [[e|] g h w2]; cbn in *; [done|].
    subst g. cbn. rewrite lookup_insert_eq. cbn. rewrite uuid_truthy. cbn.
    rewrite lookup_insert_eq. done. }
  destruct Hrun as (Hres & Ht & Hids & Hby & Hresp).
  do 3 (split; [done|]). split.
  { intros sid' Hl. destruct (Hok sid' _ Hl) as [Hlt _]. subst l. lia. }
  do 2 (split; [done|]).
  intros later b s'' Hfresh.
  apply handlers_route_to_registered.
  - apply serve_keeps_entry; [|done]. rewrite Ht. apply lookup_insert_eq.
  - intros E. pose proof (uuid_truthy (randomUUID (uuid_draws s))) as T.
    fold sid in T. by rewrite E in T.
Qed.

(** ** Opening the push channel *)

Lemma route_sent (c : Call) (s : State) (l : loc) (msg : Json) :
  In (l, msg) (sent (events_of (route c s))) -> msg = info_notification.
Proof.
  destruct c; unfold route; unfold_server; cbn.
  - destruct (truthy_header (session_header req)); cbn.
    + destruct (lookup_session (transports s) (session_header req))
        as [|l0|k]; cbn; try tauto.
      destruct (sdk_handleRequest _ _ _ _ _) as [[e|] [|] [|] w0]; cbn; tauto.
    + destruct (isInitializeRequest (body req)); cbn; [|tauto].
      destruct (sdk_connect _ _ _) as [[e|] w1]; cbn; [tauto|].
      destruct (sdk_handleRequest _ _ _ _ _) as [[e|] [|] [|] w2]; cbn;
        rewrite ?lookup_insert_eq, ?lookup_delete_eq; cbn;
        rewrite ?uuid_truthy; cbn; tauto.
  - destruct (truthy_header (session_header req)); cbn; [|tauto].
    destruct (lookup_session (transports s) (session_header req))
      as [|l0|k]; cbn; try tauto.
    destruct (sdk_handleRequest _ _ _ _ _) as [[e|] [|] [|] w0]; cbn; try tauto.
    all: destruct (sdk_send _ _ _ _) as [[e'|] w1]; cbn;
      intros [H|[]]; by injection H.
Qed.

Lemma sent_app (evs1 evs2 : list Event) :
  sent (evs1 ++ evs2) = sent evs1 ++ sent evs2.
Proof. unfold sent. apply flat_map_app. Qed.

(** Whatever the requests, the only message the server ever passes to
    [transport.send] is the info notification. *)
Lemma serve_sent (calls : list Call) (s : State) (l : loc) (msg : Json) :
  In (l, msg) (sent (events_of (serve calls s))) -> msg = info_notification.
Proof.
  revert s. induction calls as [|c rest IH]; intros s.
  - cbn. tauto.
  - rewrite serve_cons_events, sent_app, in_app_iff.
    intros [H|H]; [by eapply route_sent | by eapply IH].
Qed.

(** The server's part in opening the push channel, on any SDK.  A request
    to open the push channel that carries a registered session id is handed
    to the transport registered under it; when [handleRequest] returns, the
    server passes that transport exactly one message, the notification with
    [jsonrpc] ["2.0"], [method] ["notifications/message"] and [params] of
    level ["info"] and data ["SSE Connection established"], and writes no
    response of its own.  The server keeps no record of an open channel:
    whether a second opening is refused is for the transport to decide.  No
    other message is ever sent by the server, and the tool-call handler
    sends none. *)
Theorem handleGetRequest_opens_stream
    (req : Request) (s : State) (sid : string) (l : loc) :
  session_header req = Some sid ->
  sid <> "" ->
  transports s !! sid = Some l ->
  hr_exn (sdk_handleRequest (session_ids s) l req None (world s)) = None ->
  let o := handleGetRequest req s in
  result_of o = Normal tt
  /\ handled_by (events_of o) = [l]
  /\ sent (events_of o) = [(l, info_notification)]
  /\ responses (events_of o) = []
  /\ transports (state_after o) = transports s
  /\ (json_get "jsonrpc" info_notification = Some (JString "2.0")
      /\ json_get "method" info_notification
         = Some (JString "notifications/message")
      /\ json_get "params" info_notification
         = Some (JObject [ ("level", JString "info");
                           ("data", JString "SSE Connection established") ])
      /\ json_keys info_notification ≡ₚ ["jsonrpc"; "method"; "params"])
  /\ (forall calls s0 l' msg,
        In (l', msg) (sent (events_of (serve calls s0))) ->
        msg = info_notification)
  /\ (forall request s0, sent (events_of (callToolHandler request s0)) = []).
Proof.
  intros Hh Hne Hl Hok o.
  assert (Ht : truthy_string sid = true) by (by destruct sid).
  assert (Hrun : result_of o = Normal tt
                 /\ handled_by (events_of o) = [l]
                 /\ sent (events_of o) = [(l, info_notification)]
                 /\ responses (events_of o) = []).
  { subst o. unfold_server. cbn. rewrite Hh. cbn.
    rewrite (get_slot_own _ _ _ Hl), Ht. cbn.
    destruct (sdk_handleRequest _ _ _ _ _) as [e g h w0]; cbn in *. subst e.
    destruct g; cbn;
      destruct (sdk_send _ _ _ _) as [[e'|] w1]; cbn; done. }
  destruct Hrun as (H1 & H2 & H3 & H4).
  repeat split; try done.
  - apply handleGetRequest_step.
  - cbn. by rewrite (Permutation_swap "method" "jsonrpc"),
      (perm_swap "params" "jsonrpc").
  - intros calls s0 l' msg. apply serve_sent.
  - intros request s0. clear. unfold_server. cbn.
    destruct (params_arguments request); cbn;
      [destruct (truthy_string (params_name request))|]; reflexivity.
Qed.

End Properties.

(** * The server on the session transport of the specification *)

Section SpecTransport.

Local Existing Instance spec_sdk.

Ltac run_spec :=
  unfold handleGetRequest, handlePostRequest, cleanup, streamMessages,
    sendNotification, createErrorResponse, call_handleRequest, call_send,
    transport_handleRequest, transport_send, server_close,
    randomUUID_call, res_status_json, new_response, console_log,
    console_error, unawaited, try_catch, bind, ret, throw, emit, get_state,
    with_world, with_headersSent, state_after, result_of, events_of,
    completion_of, has_push_channel, openPush in *.

(** C3. On the session transport of the specification, a request to open
    the push channel of a registered session that has no push channel yet
    completes, and the server, as soon as the transport has opened the
    channel, sends on it one message, the info notification, with nothing
    sent before it; the session then has its channel, and a second request
    to open it fails with [AlreadyOpen], as does any such request on a
    session that has its channel already, and nothing more is sent.  The
    notification has [jsonrpc] ["2.0"], [method] ["notifications/message"]
    and [params] with [level] ["info"] and a text for [data], and no other
    property.  It is the only message the server ever sends, so that no
    tool-originated notification comes before it. *)
Theorem push_channel_opens_once
    (req : Request) (s : State) (sid : string) (l : loc) :
  session_header req = Some sid ->
  sid <> "" ->
  transports s !! sid = Some l ->
  let first := handleGetRequest req s in
  let second := handleGetRequest req (state_after first) in
  (has_push_channel (world s) l = false ->
   result_of first = Normal tt
   /\ events_of first
      = [EvLog [LText "Received GET request"];
         EvLog [LText "Establishing SSE stream for session "; LHeader (Some sid)];
         EvHandleRequest l req None;
         EvSend l info_notification]
   /\ has_push_channel (world (state_after first)) l = true
   /\ result_of second = Throw AlreadyOpen
   /\ sent (events_of second) = []
   /\ responses (events_of second) = [])
  /\ (has_push_channel (world s) l = true ->
      result_of first = Throw AlreadyOpen
      /\ sent (events_of first) = []
      /\ responses (events_of first) = []
      /\ has_push_channel (world (state_after first)) l = true)
  /\ (json_get "jsonrpc" info_notification = Some (JString "2.0")
      /\ json_get "method" info_notification
         = Some (JString "notifications/message")
      /\ json_get "params" info_notification
         = Some (JObject [ ("level", JString "info");
                           ("data", JString "SSE Connection established") ])
      /\ json_keys info_notification ≡ₚ ["jsonrpc"; "method"; "params"])
  /\ (forall calls s0 l' msg,
        In (l', msg) (sent (events_of (serve calls s0))) ->
        msg = info_notification).
Proof.
  intros Hh Hne Hl.
  assert (Ht : truthy_string sid = true) by (by destruct sid).
  cbn zeta. split; [|split; [|split]].
  - intros Hnone. run_spec. cbn. rewrite Hh. cbn.
    rewrite (get_slot_own _ _ _ Hl), Ht. cbn.
    destruct (world s !! l) as [[[|] c]|] eqn:Hw; cbn in *;
      rewrite ?Hw in *; cbn in *; try done.
    all: do 3 (rewrite ?(get_slot_own _ _ _ Hl), ?Ht, ?lookup_insert_eq;
               cbn).
    all: done.
  - intros Hopen. run_spec. cbn. rewrite Hh. cbn.
    rewrite (get_slot_own _ _ _ Hl), Ht. cbn.
    destruct (world s !! l) as [[[|] c]|] eqn:Hw; cbn in *;
      rewrite ?Hw in *; cbn in *; try done.
    rewrite lookup_insert_eq. done.
  - split; [done|]. split; [done|]. split; [done|].
    cbn. by rewrite (Permutation_swap "method" "jsonrpc"),
      (perm_swap "params" "jsonrpc").
  - intros calls s0 l' msg. apply serve_sent.
Qed.

Lemma close_session_twice (w : gmap loc Session) :
  close_session <$> (close_session <$> w) = close_session <$> w.
Proof. by rewrite <- map_fmap_compose. Qed.

(** C9. On the session transport of the specification, closing is
    idempotent.  The first [cleanup] leaves every session Closed and without
    push channel.  A second [cleanup] completes as the first did and leaves
    the whole state, the registry and every session with it, as the first
    call left it; it writes no response, sends nothing and logs nothing: it
    only repeats the two calls of the first, [this.toolInterval?.close()]
    and [this.server.close()].  Removing a session id from the registry, an
    operation of the specification that the server does not have, is
    idempotent too, and a no-op on an absent id. *)
Theorem closing_twice (s : State) :
  let first := cleanup s in
  let s1 := state_after first in
  let second := cleanup s1 in
  result_of first = Normal tt
  /\ (forall l x, world s1 !! l = Some x ->
        push_open x = false /\ session_closed x = true)
  /\ result_of second = Normal tt
  /\ state_after second = s1
  /\ events_of second
     = match toolInterval s with
       | Some t => [EvTimeoutClose t]
       | None => []
       end ++ [EvServerClose]
  /\ events_of second = events_of first
  /\ (forall (id : string) (registry : gmap string loc),
        registry_remove id (registry_remove id registry)
        = registry_remove id registry
        /\ (registry !! id = None -> registry_remove id registry = registry)).
Proof.
  run_spec. cbn.
  assert (Hclosed : forall l x,
             (close_session <$> world s) !! l = Some x ->
             push_open x = false /\ session_closed x = true).
  { intros l x. rewrite lookup_fmap.
    destruct (_ !! l) as [y|]; cbn; intros H; by inversion H. }
  assert (Hremove : forall (id : string) (registry : gmap string loc),
             registry_remove id (registry_remove id registry)
             = registry_remove id registry
             /\ (registry !! id = None -> registry_remove id registry = registry)).
  { intros id registry. unfold registry_remove. split.
    - apply delete_id. apply lookup_delete_eq.
    - apply delete_id. }
  destruct (toolInterval s) eqn:Hti; cbn; rewrite ?Hti; cbn;
    rewrite close_session_twice;
    (split; [done|]); (split; [exact Hclosed|]); do 4 (split; [done|]);
    exact Hremove.
Qed.

End SpecTransport.

(** * The properties on concrete runs *)

(** ** Instances of the theorems above *)

Lemma isInitializeRequest_spec_witness :
  is_array initialize_body = false
  /\ isInitializeRequest (sdk_ops := counting_sdk) initialize_body
     = has_method_initialize initialize_body.
Proof.
  split; [reflexivity|].
  apply (proj2 (isInitializeRequest_spec (sdk_ops := counting_sdk))).
  reflexivity.
Defined.

Lemma createErrorResponse_shape_witness :
  let run := serve (sdk_ops := counting_sdk)
               [PostCall (mkRequest None list_tools_body)]
               (initial_state (sdk_ops := counting_sdk) tt) in
  let payload :=
    error_envelope "Bad Request: invalid session ID or method." first_id in
  In (400%Z, payload) (responses (events_of run))
  /\ exists message k,
       payload = error_envelope message
                   (uuid_to_string (randomUUID (SDK := counting_sdk) k))
       /\ ((400%Z = 400%Z
            /\ message = "Bad Request: invalid session ID or method.")
           \/ (400%Z = 500%Z /\ message = "Internal server error.")).
Proof.
  intros run payload.
  assert (Hin : In (400%Z, payload) (responses (events_of run)))
    by (left; reflexivity).
  split; [exact Hin|].
  exact (proj2 (proj2 (proj2 (proj2 (proj2 (proj2 (proj2 (proj2 (proj2
           (createErrorResponse_shape (sdk_ops := counting_sdk) ""
              (initial_state (sdk_ops := counting_sdk) tt))))))))))
           _ _ _ _ Hin).
Defined.

Lemma callToolHandler_failures_witness :
  "echo" <> ""
  /\ result_of (callToolHandler (sdk_ops := counting_sdk)
                  (mkCallToolRequest "echo" (Some [])) (initial_state (sdk_ops := counting_sdk) tt))
     = Throw ToolNotFound.
Proof.
  split; [discriminate|].
  apply (proj1 (proj2 (callToolHandler_failures (sdk_ops := counting_sdk)))).
  discriminate.
Defined.

Lemma prototype_key_not_rejected_witness :
  "constructor" ∈ Object_prototype_keys
  /\ transports (initial_state (sdk_ops := counting_sdk) tt) !! "constructor"
     = None
  /\ responses (events_of (handlePostRequest (sdk_ops := counting_sdk)
                             (mkRequest (Some "constructor") list_tools_body)
                             (initial_state (sdk_ops := counting_sdk) tt)))
     = [(500%Z, error_envelope "Internal server error." first_id)]
  /\ result_of (handleGetRequest (sdk_ops := counting_sdk)
                  (mkRequest (Some "constructor") list_tools_body)
                  (initial_state (sdk_ops := counting_sdk) tt))
     = Throw (TypeError "transport.handleRequest is not a function").
Proof.
  assert (Hkey : "constructor" ∈ Object_prototype_keys)
    by (apply list_elem_of_In; cbn; tauto).
  assert (Hnone : transports (initial_state (sdk_ops := counting_sdk) tt)
                    !! "constructor" = None) by reflexivity.
  destruct (prototype_key_not_rejected (sdk_ops := counting_sdk)
              "constructor" list_tools_body (initial_state (sdk_ops := counting_sdk) tt) Hkey Hnone)
    as (Hpost & Hget & _).
  repeat split; assumption.
Defined.

Lemma handleGetRequest_preserves_transports_witness :
  transports (state_after (handlePostRequest (sdk_ops := counting_sdk)
                             initialize_request
                             (initial_state (sdk_ops := counting_sdk) tt)))
  <> transports (initial_state (sdk_ops := counting_sdk) tt)
  /\ truthy_header (session_header initialize_request) = false
  /\ isInitializeRequest (sdk_ops := counting_sdk) (body initialize_request)
     = true.
Proof.
  assert (Hchanged :
            transports (state_after (handlePostRequest (sdk_ops := counting_sdk)
                                       initialize_request
                                       (initial_state (sdk_ops := counting_sdk) tt)))
            <> transports (initial_state (sdk_ops := counting_sdk) tt))
    by (vm_compute; discriminate).
  split; [exact Hchanged|].
  exact (proj2 (handleGetRequest_preserves_transports (sdk_ops := counting_sdk))
           initialize_request (initial_state (sdk_ops := counting_sdk) tt)
           Hchanged).
Defined.

Lemma cleanup_idempotent_witness :
  (forall (ids : gmap loc Uuid) (w : World (SDK := counting_sdk)),
      snd (sdk_close ids (snd (sdk_close ids w))) = snd (sdk_close ids w))
  /\ state_after (cleanup (sdk_ops := counting_sdk)
                    (state_after (cleanup (initial_state (sdk_ops := counting_sdk) tt))))
     = state_after (cleanup (sdk_ops := counting_sdk) (initial_state (sdk_ops := counting_sdk) tt)).
Proof.
  assert (Hidem : forall (ids : gmap loc Uuid) (w : World (SDK := counting_sdk)),
             snd (sdk_close ids (snd (sdk_close ids w)))
             = snd (sdk_close ids w)) by reflexivity.
  split; [exact Hidem|].
  exact (proj2 (cleanup_idempotent (sdk_ops := counting_sdk)
                  (initial_state (sdk_ops := counting_sdk) tt))
           Hidem).
Defined.

Lemma counting_draws_distinct : distinct_draws (sdk_ops := counting_sdk) 0 2.
Proof.
  intros i j Hi Hij Hj.
  assert (i = 0) as -> by lia. assert (j = 1) as -> by lia.
  vm_compute. discriminate.
Qed.

Lemma registry_never_overwritten_witness :
  distinct_draws (sdk_ops := counting_sdk) 0 2
  /\ forall sid l,
       transports (state_after (serve (sdk_ops := counting_sdk)
                                  [PostCall initialize_request]
                                  (initial_state (sdk_ops := counting_sdk) tt))) !! sid = Some l ->
       transports (state_after
                     (handlePostRequest (sdk_ops := counting_sdk)
                        initialize_request
                        (state_after (serve [PostCall initialize_request]
                                        (initial_state (sdk_ops := counting_sdk) tt))))) !! sid
       = Some l.
Proof.
  split; [exact counting_draws_distinct|].
  exact (proj1 (registry_never_overwritten (sdk_ops := counting_sdk)
                  [PostCall initialize_request] initialize_request tt
                  counting_draws_distinct)).
Defined.

Lemma initialize_registers_session_witness :
  truthy_header (session_header initialize_request) = false
  /\ isInitializeRequest (sdk_ops := counting_sdk) (body initialize_request)
     = true
  /\ sdk_starts_session (sdk_ops := counting_sdk) initialize_request
       (initial_state (sdk_ops := counting_sdk) tt) = true
  /\ transports (state_after (handlePostRequest (sdk_ops := counting_sdk)
                                initialize_request (initial_state (sdk_ops := counting_sdk) tt)))
     = <[first_id := 0]> ∅.
Proof.
  assert (H1 : truthy_header (session_header initialize_request) = false)
    by reflexivity.
  assert (H2 : isInitializeRequest (sdk_ops := counting_sdk)
                 (body initialize_request) = true) by reflexivity.
  assert (H3 : sdk_starts_session (sdk_ops := counting_sdk) initialize_request
                 (initial_state (sdk_ops := counting_sdk) tt) = true) by reflexivity.
  destruct (proj2 (initialize_registers_session (sdk_ops := counting_sdk)
                     [] initialize_request tt H1 H2) H3) as (_ & Ht & _).
  repeat split; try assumption.
Defined.

Lemma handleGetRequest_opens_stream_witness :
  let s := state_after (handlePostRequest (sdk_ops := counting_sdk)
                          initialize_request (initial_state (sdk_ops := counting_sdk) tt)) in
  let req := mkRequest (Some first_id) JUndefined in
  first_id <> ""
  /\ transports s !! first_id = Some 0
  /\ hr_exn (sdk_handleRequest (session_ids s) 0 req None (world s)) = None
  /\ sent (events_of (handleGetRequest req s)) = [(0, info_notification)].
Proof.
  intros s req.
  assert (H1 : first_id <> "") by discriminate.
  assert (H2 : transports s !! first_id = Some 0) by (vm_compute; reflexivity).
  assert (H3 : hr_exn (sdk_handleRequest (session_ids s) 0 req None (world s))
               = None) by reflexivity.
  destruct (handleGetRequest_opens_stream (sdk_ops := counting_sdk)
              req s first_id 0 eq_refl H1 H2 H3) as (_ & _ & Hsent & _).
  repeat split; assumption.
Defined.

Lemma push_channel_opens_once_witness :
  let s := state_after (handlePostRequest (sdk_ops := spec_sdk)
                          initialize_request
                          (initial_state (sdk_ops := spec_sdk) ∅)) in
  let req := mkRequest (Some first_id) JUndefined in
  let first := handleGetRequest req s in
  let second := handleGetRequest req (state_after first) in
  first_id <> ""
  /\ transports s !! first_id = Some 0
  /\ has_push_channel (world s) 0 = false
  /\ result_of first = Normal tt
  /\ sent (events_of first) = [(0, info_notification)]
  /\ has_push_channel (world (state_after first)) 0 = true
  /\ result_of second = Throw AlreadyOpen
  /\ sent (events_of second) = [].
Proof.
  intros s req first second.
  assert (H1 : first_id <> "") by discriminate.
  assert (H2 : transports s !! first_id = Some 0) by (vm_compute; reflexivity).
  assert (H3 : has_push_channel (world s) 0 = false) by (vm_compute; reflexivity).
  destruct (proj1 (push_channel_opens_once req s first_id 0 eq_refl H1 H2) H3)
    as (Hfirst & Hevents & Hopen & Hsecond & Hsent & _).
  split; [exact H1|]. split; [exact H2|]. split; [exact H3|].
  split; [exact Hfirst|].
  split; [unfold first; rewrite Hevents; reflexivity|].
  split; [exact Hopen|]. split; [exact Hsecond | exact Hsent].
Defined.

Lemma closing_twice_witness :
  let s := state_after
             (serve (sdk_ops := spec_sdk)
                [PostCall initialize_request;
                 GetCall (mkRequest (Some first_id) JUndefined)]
                (initial_state (sdk_ops := spec_sdk) ∅)) in
  let s1 := state_after (cleanup s) in
  has_push_channel (world s) 0 = true
  /\ has_push_channel (world s1) 0 = false
  /\ result_of (cleanup s1) = Normal tt
  /\ state_after (cleanup s1) = s1
  /\ events_of (cleanup s1) = [EvServerClose].
Proof.
  intros s s1.
  destruct (closing_twice s) as (_ & _ & Hres & Hstate & Hevents & _).
  split; [vm_compute; reflexivity|]. split; [vm_compute; reflexivity|].
  split; [exact Hres|]. split; [exact Hstate | exact Hevents].
Defined.

(** ** Where the specification and the code part *)

(** C1, refuted as stated. The submission carries no session id and its body,
    a batch, satisfies [isInitializeRequest]; the transport is constructed,
    connected and handed the request, but it starts no session for such a
    submission, so that its [sessionId] stays undefined: nothing is
    registered. *)
Lemma initialize_not_always_registered :
  let o := handlePostRequest (sdk_ops := counting_sdk) batch_request
             (initial_state (sdk_ops := counting_sdk) tt) in
  session_header batch_request = None
  /\ isInitializeRequest (sdk_ops := counting_sdk) (body batch_request) = true
  /\ result_of o = Normal tt
  /\ handled_by (events_of o) = [0]
  /\ session_ids (state_after o) !! 0 = None
  /\ transports (state_after o) = ∅.
Proof. vm_compute. repeat split. Qed.

(** The refusal of a second opening is the transport's, not the server's:
    on the stub transport, which accepts every request, a second request to
    open the push channel runs exactly as the first, and the server sends
    the info notification again. *)
Lemma second_open_not_refused :
  let s0 := state_after (handlePostRequest (sdk_ops := counting_sdk)
                           initialize_request
                           (initial_state (sdk_ops := counting_sdk) tt)) in
  let req := mkRequest (Some first_id) JUndefined in
  let first := handleGetRequest req s0 in
  let second := handleGetRequest req (state_after first) in
  transports s0 !! first_id = Some 0
  /\ result_of first = Normal tt
  /\ result_of second = Normal tt
  /\ events_of second = events_of first
  /\ sent (events_of second) = [(0, info_notification)]
  /\ responses (events_of second) = [].
Proof. vm_compute. repeat split. Qed.

(** C4, refuted as stated. No tool is registered, so the empty name is not
    a registered name; yet a call with that name and its arguments present
    does not fail with [ToolNotFound] but with the error of the name check,
    which comes first. *)
Lemma empty_name_is_not_ToolNotFound :
  let o := callToolHandler (sdk_ops := counting_sdk)
             (mkCallToolRequest "" (Some []))
             (initial_state (sdk_ops := counting_sdk) tt) in
  result_of o = Throw (Error "tool name undefined")
  /\ result_of o <> Throw ToolNotFound.
Proof. vm_compute. split; [reflexivity | discriminate]. Qed.

(** C5, refuted as stated. The request carries the id ["1"]; the envelope
    the server answers with carries a drawn id instead, and so does every
    envelope of [createErrorResponse], which has no parameter for an id,
    where [makeError] with the id supplied would carry ["1"]. *)
Lemma createErrorResponse_ignores_request_id :
  let s0 := initial_state (sdk_ops := counting_sdk) tt in
  json_get "id" list_tools_body = Some (JString "1")
  /\ responses (events_of (handlePostRequest (mkRequest None list_tools_body) s0))
     = [(400%Z, error_envelope "Bad Request: invalid session ID or method."
                  first_id)]
  /\ result_of (makeError_spec "Bad Request: invalid session ID or method."
                  (Some "1") s0)
     = Normal (error_envelope "Bad Request: invalid session ID or method." "1")
  /\ result_of (createErrorResponse "Bad Request: invalid session ID or method." s0)
     <> result_of (makeError_spec "Bad Request: invalid session ID or method."
                     (Some "1") s0).
Proof. vm_compute. repeat split. discriminate. Qed.

(** C7, refuted as stated. One session is registered when SIGINT arrives:
    the handler logs, closes the SDK server and exits, and the registry
    still holds the session's transport. *)
Lemma shutdown_keeps_registry :
  let s0 := state_after (handlePostRequest (sdk_ops := counting_sdk)
                           initialize_request
                           (initial_state (sdk_ops := counting_sdk) tt)) in
  let o := on_SIGINT s0 in
  transports s0 !! first_id = Some 0
  /\ transports (state_after o) !! first_id = Some 0
  /\ transports (state_after o) <> ∅
  /\ events_of o
     = [EvLog [LText "Shutting down server..."]; EvServerClose; EvExit 0].
Proof.
  vm_compute. repeat split. discriminate.
Qed.

(** C8, refuted as stated. The uniqueness of the draws is what keeps
    entries apart, not a check in the code: when the generator repeats an
    id, the second session takes the entry of the first, the two transports
    carry the same session id, and the submission completes as any other,
    with no error logged or answered. *)
Lemma repeated_id_replaces_entry :
  let s1 := state_after (handlePostRequest (sdk_ops := repeating_sdk)
                           initialize_request
                           (initial_state (sdk_ops := repeating_sdk) tt)) in
  let second := handlePostRequest initialize_request s1 in
  let s2 := state_after second in
  transports s1 !! first_id = Some 0
  /\ transports s2 !! first_id = Some 1
  /\ session_ids s2 !! 0 = session_ids s2 !! 1
  /\ result_of second = Normal tt
  /\ responses (events_of second) = []
  /\ logged_errors (events_of second) = [].
Proof. vm_compute. repeat split. Qed.

(** * Further properties of the server *)

(** ** Object properties *)

Lemma prop_get_set_eq (k : string) (v : Json) (props : list (string * Json)) :
  prop_get k (prop_set k v props) = Some v.
Proof.
  induction props as [|[k' v'] rest IH]; cbn.
  - by rewrite String.eqb_refl.
  - destruct (String.eqb k k') eqn:E; cbn; rewrite E; [done | exact IH].
Qed.

Lemma prop_get_set_ne (k k' : string) (v : Json) (props : list (string * Json)) :
  k' <> k -> prop_get k' (prop_set k v props) = prop_get k' props.
Proof.
  intros Hne. induction props as [|[k0 v0] rest IH]; cbn.
  - by apply String.eqb_neq in Hne as ->.
  - destruct (String.eqb k k0) eqn:E; cbn.
    + apply String.eqb_eq in E as <-.
      by apply String.eqb_neq in Hne as ->.
    + by rewrite IH.
Qed.

Lemma prop_set_absent (k : string) (v : Json) (props : list (string * Json)) :
  prop_get k props = None -> prop_set k v props = props ++ [(k, v)].
Proof.
  induction props as [|[k0 v0] rest IH]; cbn; [done|].
  destruct (String.eqb k k0); [done|]. intros H. by rewrite IH.
Qed.

Lemma prop_set_keys (k : string) (v : Json) (props : list (string * Json)) :
  is_Some (prop_get k props) -> map fst (prop_set k v props) = map fst props.
Proof.
  induction props as [|[k0 v0] rest IH]; cbn.
  - by intros [? ?].
  - destruct (String.eqb k k0); cbn; [done|]. intros H. by rewrite IH.
Qed.

Section MoreProperties.
Context `{sdk_ops : SDK}.

Ltac run_server :=
  unfold handleGetRequest, handlePostRequest, cleanup, on_SIGINT,
    callToolHandler, listToolsHandler, streamMessages, sendNotification,
    createErrorResponse, call_handleRequest, call_send,
    transport_handleRequest, transport_send, transport_sessionId,
    set_transport, server_connect, server_close, new_transport,
    randomUUID_call, res_status_json, new_response, console_log,
    console_error, unawaited, try_catch, bind, ret, throw, emit, get_state,
    with_world, with_headersSent, state_after, result_of, events_of,
    completion_of in *.

(** ** Notifications *)

(** X1. Whatever notification object it is given, [sendNotification] passes
    the transport one message, which has [jsonrpc] ["2.0"] (replacing a
    [jsonrpc] the notification may carry) and every other property of the
    notification with its value; the property names keep their order, with
    [jsonrpc] added last when the notification has none. *)
Theorem sendNotification_stamps_jsonrpc
    (l : loc) (props : list (string * Json)) (s : State) :
  exists props',
    sent (events_of (sendNotification (STransport l) (JObject props) s))
    = [(l, JObject props')]
    /\ prop_get "jsonrpc" props' = Some (JString "2.0")
    /\ (forall k, k <> "jsonrpc" -> prop_get k props' = prop_get k props)
    /\ (prop_get "jsonrpc" props = None ->
        props' = props ++ [("jsonrpc", JString "2.0")])
    /\ (is_Some (prop_get "jsonrpc" props) ->
        map fst props' = map fst props).
Proof.
  exists (prop_set "jsonrpc" (JString "2.0") props). split.
  - run_server. cbn. reflexivity.
  - split; [apply prop_get_set_eq|].
    split; [intros k Hk; by apply prop_get_set_ne|].
    split; [apply prop_set_absent | apply prop_set_keys].
Qed.

Lemma streamMessages_on_transport (l : loc) (s : State) :
  streamMessages (STransport l) s
  = let r := sdk_send (session_ids s) l info_notification (world s) in
    (Normal tt, with_world s (snd r),
     EvSend l info_notification
     :: match fst r with
        | Some e => [EvUnhandledRejection e]
        | None => []
        end).
Proof.
  run_server. cbn. unfold info_notification, JSON_RPC.
  by destruct (sdk_send _ _ _ _) as [[e|] w].
Qed.

(** X2. [streamMessages] never throws and never reaches its [catch]: it
    writes nothing with [console.error], whatever the transport does.  When
    [transport.send] fails, the failure ends as an unhandled rejection. *)
Theorem streamMessages_catch_unreachable (transport : Slot) (s : State) :
  let o := streamMessages transport s in
  result_of o = Normal tt
  /\ logged_errors (events_of o) = []
  /\ (forall l e,
        transport = STransport l ->
        fst (sdk_send (session_ids s) l info_notification (world s)) = Some e ->
        events_of o = [EvSend l info_notification; EvUnhandledRejection e]).
Proof.
  destruct transport as [|l|k].
  - run_server. cbn. repeat split; intros; discriminate.
  - cbn zeta. rewrite streamMessages_on_transport. cbn.
    destruct (sdk_send _ _ _ _) as [[e|] w] eqn:E; cbn; repeat split;
      intros l0 e0 [= <-]; rewrite E; cbn; congruence.
  - run_server. cbn. repeat split; intros; discriminate.
Qed.

(** ** Exceptions in the two handlers *)

(** X3. [handlePostRequest] catches every exception thrown inside its
    [try].  Either nothing was thrown: nothing is written with
    [console.error], the handler completes, and the only answer the server
    may write itself is a 400.  Or one exception was caught: it is logged
    once, the registry is as it was, and the [catch] goes on to answer 500
    with the message ["Internal server error."] and the last id drawn.
    That last call is not protected: when the transport had sent the head of
    the response before its [handleRequest] threw, [res.status(500).json]
    throws itself, no answer is written and the handler throws.  On a
    registered session this is decided by the transport alone. *)
Theorem handlePostRequest_captures_exceptions (req : Request) (s : State) :
  let o := handlePostRequest req s in
  let s' := state_after o in
  ((logged_errors (events_of o) = []
    /\ result_of o = Normal tt
    /\ forall status payload,
         In (status, payload) (responses (events_of o)) -> status = 400%Z)
   \/ (exists e,
         logged_errors (events_of o)
         = [[LText "Error handling MCP request:"; LExn e]]
         /\ transports s' = transports s
         /\ ((result_of o = Normal tt
              /\ responses (events_of o)
                 = [(500%Z,
                     error_envelope "Internal server error."
                       (uuid_to_string (randomUUID (pred (uuid_draws s')))))])
             \/ (result_of o = Throw ERR_HTTP_HEADERS_SENT
                 /\ responses (events_of o) = []
                 /\ exists l, handled_by (events_of o) = [l]))))
  /\ (forall sid l e,
        session_header req = Some sid ->
        sid <> "" ->
        transports s !! sid = Some l ->
        let r := sdk_handleRequest (session_ids s) l req (Some (body req))
                   (world s) in
        hr_exn r = Some e ->
        logged_errors (events_of o)
        = [[LText "Error handling MCP request:"; LExn e]]
        /\ result_of o = if hr_headersSent r
                         then Throw ERR_HTTP_HEADERS_SENT
                         else Normal tt).
Proof.
  cbn zeta. split.
  - run_server. cbn.
    destruct (truthy_header (session_header req)); cbn.
    + destruct (lookup_session (transports s) (session_header req)) as [|l|k];
        cbn.
      * left. split; [done|]. split; [done|].
        intros st p [[= <- _]|[]]. done.
      * destruct (sdk_handleRequest _ _ _ _ _) as [[e|] [|] [|] w0]; cbn;
          try (left; split; [done|]; split; [done|]; by intros st p []);
          right; exists e; (split; [done|]); (split; [done|]);
          first [ by left | right; eauto ].
      * right. eexists. split; [done|]. split; [done|]. by left.
    + destruct (isInitializeRequest (body req)); cbn.
      * destruct (sdk_connect _ _ _) as [[e|] w1]; cbn.
        { right. exists e. split; [done|]. split; [done|]. by left. }
        destruct (sdk_handleRequest _ _ _ _ _) as [[e|] [|] [|] w2]; cbn;
          rewrite ?lookup_insert_eq, ?lookup_delete_eq; cbn;
          rewrite ?uuid_truthy; cbn;
          try (left; split; [done|]; split; [done|]; by intros st p []);
          right; exists e; (split; [done|]); (split; [done|]);
          first [ by left | right; eauto ].
      * left. split; [done|]. split; [done|].
        intros st p [[= <- _]|[]]. done.
  - intros sid l e Hh Hne Hl He.
    assert (Ht : truthy_string sid = true) by (by destruct sid).
    run_server. cbn. rewrite Hh. cbn.
    rewrite (get_slot_own _ _ _ Hl), Ht. cbn.
    destruct (sdk_handleRequest _ _ _ _ _) as [e0 g h w0]; cbn in *.
    subst e0. by destruct g, h.
Qed.

(** X4. [handleGetRequest] has no such capture: when [handleRequest] of the
    registered transport throws, the handler throws the same exception,
    having written no response, sent no notification and logged no error,
    and the route callback leaves the rejection unhandled. *)
Theorem handleGetRequest_propagates
    (req : Request) (s : State) (sid : string) (l : loc) (e : Exn) :
  session_header req = Some sid ->
  sid <> "" ->
  transports s !! sid = Some l ->
  hr_exn (sdk_handleRequest (session_ids s) l req None (world s)) = Some e ->
  let o := handleGetRequest req s in
  result_of o = Throw e
  /\ handled_by (events_of o) = [l]
  /\ responses (events_of o) = []
  /\ sent (events_of o) = []
  /\ logged_errors (events_of o) = []
  /\ last (events_of (route (GetCall req) s)) = Some (EvUnhandledRejection e).
Proof.
  intros Hh Hne Hl He.
  assert (Ht : truthy_string sid = true) by (by destruct sid).
  unfold route. run_server. cbn. rewrite Hh. cbn.
  rewrite (get_slot_own _ _ _ Hl), Ht. cbn.
  destruct (sdk_handleRequest _ _ _ _ _) as [e0 g h w0]; cbn in *. subst e0.
  destruct g; cbn; done.
Qed.

(** X5. When [this.server.connect] rejects on the first submission of a
    session, the new transport is never handed the request and is not
    registered: the exception is logged and answered with one 500. *)
Theorem connect_failure_answers_500 (req : Request) (s : State) (e : Exn) :
  truthy_header (session_header req) = false ->
  isInitializeRequest (body req) = true ->
  fst (sdk_connect (delete (allocated s) (session_ids s)) (allocated s)
         (sdk_construct (allocated s) (world s))) = Some e ->
  let o := handlePostRequest req s in
  connected (events_of o) = [allocated s]
  /\ handled_by (events_of o) = []
  /\ logged_errors (events_of o)
     = [[LText "Error handling MCP request:"; LExn e]]
  /\ responses (events_of o)
     = [(500%Z, error_envelope "Internal server error."
                  (uuid_to_string (randomUUID (uuid_draws s))))]
  /\ transports (state_after o) = transports s
  /\ allocated (state_after o) = S (allocated s).
Proof.
  intros Hh Hi He. run_server. cbn. rewrite Hh, Hi. cbn.
  destruct (sdk_connect _ _ _) as [e0 w1]; cbn in *. subst e0. cbn. done.
Qed.

(** ** When the server answers 400 *)

Lemma get_slot_undefined (own : gmap string loc) (key : string) :
  get_slot own key = SUndefined <->
  own !! key = None /\ key ∉ Object_prototype_keys.
Proof.
  unfold get_slot. destruct (own !! key) as [l|]; [split; [done|by intros [? _]]|].
  case_bool_decide; split; try done. by intros [_ ?].
Qed.

(** X6. The server's own 400 is written in these cases and no others.  For a
    submission: the session id is missing or empty and the body is not an
    initialize request, or the id is not empty, not registered, and not a
    property name of [Object.prototype].  For a request to open the push
    channel: the id is missing or empty, or not registered and not such a
    name.  The envelope carries the stated message and the next id drawn. *)
Theorem bad_request_exactly_when (req : Request) (s : State) (payload : Json) :
  let unknown :=
    exists sid, session_header req = Some sid /\ sid <> ""
                /\ transports s !! sid = None
                /\ sid ∉ Object_prototype_keys in
  let envelope :=
    error_envelope "Bad Request: invalid session ID or method."
      (uuid_to_string (randomUUID (uuid_draws s))) in
  (In (400%Z, payload) (responses (events_of (handlePostRequest req s))) <->
   payload = envelope
   /\ ((truthy_header (session_header req) = false
        /\ isInitializeRequest (body req) = false)
       \/ unknown))
  /\ (In (400%Z, payload) (responses (events_of (handleGetRequest req s))) <->
      payload = envelope
      /\ (truthy_header (session_header req) = false \/ unknown)).
Proof.
  cbn zeta.
  assert (Hunknown :
    (exists sid, session_header req = Some sid /\ sid <> ""
                 /\ transports s !! sid = None
                 /\ sid ∉ Object_prototype_keys)
    <-> truthy_header (session_header req) = true
        /\ lookup_session (transports s) (session_header req) = SUndefined).
  { split.
    - intros (sid & Hh & Hne & Hnone & Hp). rewrite Hh. cbn. split.
      + by destruct sid.
      + by apply get_slot_undefined.
    - intros [Ht Hu]. destruct (session_header req) as [sid|]; [|done].
      exists sid. cbn in *. apply get_slot_undefined in Hu as [? ?].
      repeat split; try done. intros ->. done. }
  rewrite Hunknown. clear Hunknown. split.
  - run_server. cbn.
    destruct (truthy_header (session_header req)); cbn.
    + destruct (lookup_session (transports s) (session_header req)) as [|l|k];
        cbn.
      * split; [intros [[= <-]|[]]; auto | intros [-> _]; by left].
      * destruct (sdk_handleRequest _ _ _ _ _) as [[e|] [|] [|] w0]; cbn;
          (split; [intros H; intuition discriminate
                  | intros [_ [[? _]|[_ ?]]]; discriminate]).
      * split; [intros H; intuition discriminate
               | intros [_ [[? _]|[_ ?]]]; discriminate].
    + destruct (isInitializeRequest (body req)); cbn.
      * destruct (sdk_connect _ _ _) as [[e|] w1]; cbn;
          [split; [intros H; intuition discriminate
                  | intros [_ [[_ ?]|[? _]]]; discriminate]|].
        destruct (sdk_handleRequest _ _ _ _ _) as [[e|] [|] [|] w2]; cbn;
          rewrite ?lookup_insert_eq, ?lookup_delete_eq; cbn;
          rewrite ?uuid_truthy; cbn;
          (split; [intros H; intuition discriminate
                  | intros [_ [[_ ?]|[? _]]]; discriminate]).
      * split; [intros [[= <-]|[]]; auto | intros [-> _]; by left].
  - run_server. cbn.
    destruct (truthy_header (session_header req)); cbn.
    + destruct (lookup_session (transports s) (session_header req)) as [|l|k];
        cbn.
      * split; [intros [[= <-]|[]]; auto | intros [-> _]; by left].
      * destruct (sdk_handleRequest _ _ _ _ _) as [[e|] [|] [|] w0]; cbn;
          try (split; [intros H; intuition discriminate
                      | intros [_ [?|[_ ?]]]; discriminate]).
        all: destruct (sdk_send _ _ _ _) as [[e'|] w1]; cbn;
          (split; [intros H; intuition discriminate
                  | intros [_ [?|[_ ?]]]; discriminate]).
      * split; [intros H; intuition discriminate
               | intros [_ [?|[_ ?]]]; discriminate].
    + split; [intros [[= <-]|[]]; auto | intros [-> _]; by left].
Qed.

(** ** Registered sessions *)

(** X7. In a server that has served any sequence of requests, a registered
    id is found again: a submission or a request to open the push channel
    that carries it is handed to the transport registered under it, whatever
    its body, initialize requests included.  Such a submission constructs
    and connects no transport, leaves the registry as it is, and the server
    itself never answers it 400. *)
Theorem registered_session_is_served
    (history : list Call) (w : World) (sid : string) (l : loc) (b : Json) :
  let s := state_after (serve history (initial_state w)) in
  let post := handlePostRequest (mkRequest (Some sid) b) s in
  let get := handleGetRequest (mkRequest (Some sid) b) s in
  transports s !! sid = Some l ->
  handled_by (events_of post) = [l]
  /\ handled_by (events_of get) = [l]
  /\ connected (events_of post) = []
  /\ allocated (state_after post) = allocated s
  /\ transports (state_after post) = transports s
  /\ (forall payload, ~ In (400%Z, payload) (responses (events_of post)))
  /\ (forall payload, ~ In (400%Z, payload) (responses (events_of get))).
Proof.
  intros s post get Hl.
  destruct (serve_invariants history (initial_state w)
              (registry_ok_initial w) (registry_injective_initial w))
    as [Hok _].
  fold s in Hok. destruct (Hok sid l Hl) as (_ & k & _ & Hsid).
  assert (Ht : truthy_string sid = true) by (subst sid; apply uuid_truthy).
  subst post get. clear Hok. generalize dependent s. intros s Hl.
  run_server. cbn. rewrite (get_slot_own _ _ _ Hl), Ht. cbn.
  destruct (sdk_handleRequest (session_ids s) l _ (Some b) _)
    as [[e|] [|] [|] w0]; cbn;
    destruct (sdk_handleRequest (session_ids s) l _ None _)
      as [[e'|] [|] [|] w1]; cbn;
    try destruct (sdk_send _ _ _ _) as [[e''|] w2]; cbn;
    repeat split; intros payload H; intuition discriminate.
Qed.

(** X8. No request removes a session, and neither does the shutdown
    handler: an id that is registered stays registered whatever requests
    follow. *)
Theorem sessions_never_removed (calls : list Call) (s : State) (sid : string) :
  is_Some (transports s !! sid) ->
  is_Some (transports (state_after (serve calls s)) !! sid)
  /\ is_Some (transports (state_after (on_SIGINT (state_after (serve calls s))))
               !! sid).
Proof.
  intros Hin.
  assert (Hserve : is_Some (transports (state_after (serve calls s)) !! sid)).
  { revert s Hin. induction calls as [|c rest IH]; intros s Hin; [done|].
    rewrite serve_cons_state. apply IH.
    destruct (route_step c s) as (_ & _ & [Ht | (_ & _ & Ht)]); rewrite Ht.
    - done.
    - apply lookup_insert_is_Some. destruct (decide (uuid_to_string (randomUUID (uuid_draws s)) = sid)); [by left | by right]. }
  split; [done|].
  run_server. cbn.
  destruct (toolInterval _); cbn;
    destruct (sdk_close _ _) as [[e|] w]; cbn; done.
Qed.

(** ** The tool timer *)

Lemma route_toolInterval (c : Call) (s : State) :
  toolInterval (state_after (route c s)) = toolInterval s.
Proof.
  destruct c; unfold route; run_server; cbn.
  - destruct (truthy_header (session_header req)); cbn.
    + destruct (lookup_session (transports s) (session_header req))
        as [|l0|k]; cbn; try done.
      by destruct (sdk_handleRequest _ _ _ _ _) as [[e|] [|] [|] w0].
    + destruct (isInitializeRequest (body req)); cbn; [|done].
      destruct (sdk_connect _ _ _) as [[e|] w1]; cbn; [done|].
      destruct (sdk_handleRequest _ _ _ _ _) as [[e|] [|] [|] w2]; cbn;
        rewrite ?lookup_insert_eq, ?lookup_delete_eq; cbn;
        rewrite ?uuid_truthy; cbn; done.
  - destruct (truthy_header (session_header req)); cbn; [|done].
    destruct (lookup_session (transports s) (session_header req))
      as [|l0|k]; cbn; try done.
    destruct (sdk_handleRequest _ _ _ _ _) as [[e|] [|] [|] w0]; cbn; try done.
    all: by destruct (sdk_send _ _ _ _) as [[e'|] w1].
Qed.

(** X9. [this.toolInterval] is never assigned: whatever requests the server
    has served it is still undefined, so that [cleanup] makes one call
    and one only, [this.server.close()], and completes as that call does. *)
Theorem toolInterval_never_set (history : list Call) (w : World) :
  let s := state_after (serve history (initial_state w)) in
  toolInterval s = None
  /\ events_of (cleanup s) = [EvServerClose]
  /\ result_of (cleanup s)
     = completion_of (fst (sdk_close (session_ids s) (world s))).
Proof.
  intros s.
  assert (Hnone : toolInterval s = None).
  { subst s. generalize (initial_state w) (eq_refl : toolInterval (initial_state w) = None).
    induction history as [|c rest IH]; intros s0 H0; [done|].
    rewrite serve_cons_state. apply IH. by rewrite route_toolInterval. }
  split; [done|]. run_server. cbn. rewrite Hnone. cbn.
  by destruct (sdk_close _ _) as [[e|] w0].
Qed.

(** ** Batches *)

(** X10. On batches, [isInitializeRequest] looks at the elements and no
    deeper: a batch of one message is judged by the parse of that message
    (even when the message is itself an array), a batch put together from
    two is an initialize request exactly when one of the two is, and the
    empty batch is none; a submission of the empty batch without a session
    id is answered 400. *)
Theorem isInitializeRequest_batches :
  (forall x : Json,
      isInitializeRequest (JArray [x]) = InitializeRequestSchema_safeParse x)
  /\ (forall l1 l2 : list Json,
        isInitializeRequest (JArray (l1 ++ l2))
        = isInitializeRequest (JArray l1) || isInitializeRequest (JArray l2))
  /\ isInitializeRequest (JArray []) = false
  /\ (forall s : State,
        responses (events_of (handlePostRequest (mkRequest None (JArray [])) s))
        = [(400%Z, error_envelope "Bad Request: invalid session ID or method."
                     (uuid_to_string (randomUUID (uuid_draws s))))]).
Proof.
  split; [intros x; cbn; apply orb_false_r|].
  split; [intros l1 l2; cbn; apply existsb_app|].
  split; [reflexivity|]. intros s. run_server. cbn. reflexivity.
Qed.

(** ** The ids of error envelopes *)

(** One request: either the server writes no answer of its own, or it writes
    one, whose id is the print of a draw made during this request, and then
    the registry is as it was. *)
Lemma route_accounting (c : Call) (s : State) :
  let s' := state_after (route c s) in
  let evs := events_of (route c s) in
  responses evs = []
  \/ exists status message k,
       responses evs
       = [(status, error_envelope message (uuid_to_string (randomUUID k)))]
       /\ uuid_draws s <= k /\ k < uuid_draws s'
       /\ transports s' = transports s.
Proof.
  destruct c; unfold route; run_server; cbn.
  - destruct (truthy_header (session_header req)); cbn.
    + destruct (lookup_session (transports s) (session_header req))
        as [|l0|k]; cbn.
      * right. do 2 eexists. exists (uuid_draws s). repeat split; lia.
      * destruct (sdk_handleRequest _ _ _ _ _) as [[e|] [|] [|] w0]; cbn;
          try (by left); right; do 2 eexists;
          [exists (S (uuid_draws s)) | exists (uuid_draws s)];
          repeat split; lia.
      * right. do 2 eexists. exists (uuid_draws s). repeat split; lia.
    + destruct (isInitializeRequest (body req)); cbn.
      * destruct (sdk_connect _ _ _) as [[e|] w1]; cbn.
        { right. do 2 eexists. exists (uuid_draws s). repeat split; lia. }
        destruct (sdk_handleRequest _ _ _ _ _) as [[e|] [|] [|] w2]; cbn;
          rewrite ?lookup_insert_eq, ?lookup_delete_eq; cbn;
          rewrite ?uuid_truthy; cbn;
          try (by left); right; do 2 eexists;
          [exists (S (uuid_draws s)) | exists (uuid_draws s)];
          repeat split; lia.
      * right. do 2 eexists. exists (uuid_draws s). repeat split; lia.
  - destruct (truthy_header (session_header req)); cbn.
    + destruct (lookup_session (transports s) (session_header req))
        as [|l0|k]; cbn.
      * right. do 2 eexists. exists (uuid_draws s). repeat split; lia.
      * destruct (sdk_handleRequest _ _ _ _ _) as [[e|] [|] [|] w0]; cbn;
          try (by left).
        all: destruct (sdk_send _ _ _ _) as [[e'|] w1]; cbn; by left.
      * by left.
    + right. do 2 eexists. exists (uuid_draws s). repeat split; lia.
Qed.

(** A run: the ids of the answers are the prints of pairwise different
    draws made during the run, and every key that entered the registry is
    the print of another draw of the run. *)
Lemma serve_accounting (calls : list Call) (s : State) :
  let s' := state_after (serve calls s) in
  let evs := events_of (serve calls s) in
  exists ks : list nat,
    map (fun k => Some (JString (uuid_to_string (randomUUID k)))) ks
    = map (fun r => envelope_id (snd r)) (responses evs)
    /\ NoDup ks
    /\ (forall k, k ∈ ks -> uuid_draws s <= k /\ k < uuid_draws s')
    /\ (forall sid, is_Some (transports s' !! sid) ->
          is_Some (transports s !! sid)
          \/ exists k, uuid_draws s <= k /\ k < uuid_draws s' /\ (k ∉ ks)
                       /\ sid = uuid_to_string (randomUUID k)).
Proof.
  revert s. induction calls as [|c rest IH]; intros s.
  - exists []. split; [done|]. split; [constructor|].
    split; [intros k Hk; by apply not_elem_of_nil in Hk|].
    intros sid Hsid. by left.
  - cbn zeta. rewrite serve_cons_state, serve_cons_events, responses_app.
    set (s1 := state_after (route c s)).
    destruct (IH s1) as (ks2 & Hmap2 & Hnd2 & Hrange2 & Hkeys2).
    pose proof (serve_draws_mono rest s1) as Hmono.
    fold s1 in Hmono.
    destruct (route_step c s) as (Hd & _ & Hcase). fold s1 in Hd, Hcase.
    destruct (route_accounting c s) as [Hnone | (st & msg & k & Hone & Hk1 & Hk2 & Ht)].
    + exists ks2. rewrite Hnone. cbn [app]. split; [done|]. split; [done|].
      split; [intros k Hk; destruct (Hrange2 k Hk); lia|].
      intros sid Hsid. destruct (Hkeys2 sid Hsid) as [Hin | (k & Hk1 & Hk2 & Hk3 & ->)].
      * destruct Hcase as [Ht | (Hd' & _ & Ht)]; rewrite Ht in Hin; [by left|].
        destruct (decide (uuid_to_string (randomUUID (uuid_draws s)) = sid))
          as [<- | Hne].
        -- right. exists (uuid_draws s). repeat split; try lia.
           intros Hin'. destruct (Hrange2 _ Hin'). lia.
        -- left. by rewrite lookup_insert_ne in Hin.
      * right. exists k. repeat split; try done; lia.
    + fold s1 in Hk2, Ht. exists (k :: ks2). rewrite Hone. cbn [app map].
      split; [cbn; by rewrite Hmap2|].
      split; [constructor; [|done]; intros Hin;
              destruct (Hrange2 _ Hin); lia|].
      split.
      { intros k' Hk'. apply elem_of_cons in Hk' as [-> | Hk'];
          [lia | destruct (Hrange2 _ Hk'); lia]. }
      intros sid Hsid. destruct (Hkeys2 sid Hsid) as [Hin | (k' & Hk1' & Hk2' & Hk3' & ->)].
      * left. by rewrite Ht in Hin.
      * right. exists k'. repeat split; try done; try lia.
        intros Hin. apply elem_of_cons in Hin as [-> | Hin]; [lia | done].
Qed.

(** X11. In a run from a new server whose draws print to pairwise different
    ids, no two answers written by the server carry the same id, and no
    answer carries the id of a registered session. *)
Theorem error_ids_are_fresh (calls : list Call) (w : World) :
  let o := serve calls (initial_state w) in
  distinct_draws 0 (uuid_draws (state_after o)) ->
  NoDup (map (fun r => envelope_id (snd r)) (responses (events_of o)))
  /\ forall status payload sid,
       In (status, payload) (responses (events_of o)) ->
       is_Some (transports (state_after o) !! sid) ->
       envelope_id payload <> Some (JString sid).
Proof.
  intros o Hdistinct.
  destruct (serve_accounting calls (initial_state w))
    as (ks & Hmap & Hnd & Hrange & Hkeys).
  fold o in Hmap, Hrange, Hkeys.
  assert (Hinj : forall i j,
             i < uuid_draws (state_after o) -> j < uuid_draws (state_after o) ->
             uuid_to_string (randomUUID i) = uuid_to_string (randomUUID j) ->
             i = j).
  { intros i j Hi Hj Heq.
    destruct (Nat.lt_trichotomy i j) as [Hlt | [-> | Hgt]]; [|done|].
    - exfalso. by apply (Hdistinct i j); [lia | | | ].
    - exfalso. by apply (Hdistinct j i); [lia | | | ]. }
  split.
  - rewrite <- Hmap. apply NoDup_ListNoDup.
    apply NoDup_map_NoDup_ForallPairs; [|by apply NoDup_ListNoDup].
    intros i j Hi Hj Heq. rewrite <- list_elem_of_In in Hi, Hj.
    apply Hinj; [apply Hrange, Hi | apply Hrange, Hj | congruence].
  - intros status payload sid Hin Hsid Heq.
    assert (Hid : In (envelope_id payload)
                     (map (fun r => envelope_id (snd r)) (responses (events_of o)))).
    { apply in_map_iff. by exists (status, payload). }
    rewrite <- Hmap in Hid. apply in_map_iff in Hid as (k & Hk & Hkin).
    rewrite <- list_elem_of_In in Hkin.
    destruct (Hkeys sid Hsid) as [Hinit | (k' & _ & Hk' & Hnot & ->)].
    + cbn in Hinit. rewrite lookup_empty in Hinit. by destruct Hinit.
    + rewrite Heq in Hk.
      assert (Hk'' : uuid_to_string (randomUUID k)
                     = uuid_to_string (randomUUID k')) by congruence.
      apply Hinj in Hk''; [|apply Hrange, Hkin | done]. by subst k'.
Qed.

End MoreProperties.

(** ** Instances on concrete runs *)

Lemma sendNotification_stamps_jsonrpc_witness :
  exists props',
    sent (events_of (sendNotification (sdk_ops := counting_sdk) (STransport 0)
                       (JObject [("method", JString "notifications/message")])
                       (initial_state (sdk_ops := counting_sdk) tt)))
    = [(0, JObject props')]
    /\ prop_get "jsonrpc" [("method", JString "notifications/message")] = None
    /\ props' = [("method", JString "notifications/message");
                 ("jsonrpc", JString "2.0")].
Proof.
  destruct (sendNotification_stamps_jsonrpc (sdk_ops := counting_sdk) 0
              [("method", JString "notifications/message")]
              (initial_state (sdk_ops := counting_sdk) tt))
    as (props' & Hsent & _ & _ & Habsent & _).
  exists props'. split; [exact Hsent|]. split; [reflexivity|].
  apply Habsent. reflexivity.
Defined.

Lemma streamMessages_catch_unreachable_witness :
  let s := one_session false false true in
  fst (sdk_send (session_ids s) 0 info_notification (world s))
  = Some (Error "Not connected")
  /\ events_of (streamMessages (STransport 0) s)
     = [EvSend 0 info_notification;
        EvUnhandledRejection (Error "Not connected")].
Proof.
  intros s. split; [reflexivity|].
  apply (proj2 (proj2 (streamMessages_catch_unreachable
                         (sdk_ops := faulty_sdk false false true)
                         (STransport 0) s)) 0 (Error "Not connected"));
    reflexivity.
Defined.

Lemma handlePostRequest_captures_exceptions_witness :
  let s := state_after (handlePostRequest (sdk_ops := late_failure_sdk)
                          initialize_request
                          (initial_state (sdk_ops := late_failure_sdk) tt)) in
  let req := mkRequest (Some first_id) list_tools_body in
  let r := sdk_handleRequest (session_ids s) 0 req (Some (body req)) (world s) in
  first_id <> ""
  /\ transports s !! first_id = Some 0
  /\ hr_exn r = Some (Error "write after end")
  /\ hr_headersSent r = true
  /\ logged_errors (events_of (handlePostRequest req s))
     = [[LText "Error handling MCP request:"; LExn (Error "write after end")]]
  /\ result_of (handlePostRequest req s) = Throw ERR_HTTP_HEADERS_SENT.
Proof.
  intros s req r.
  assert (H1 : first_id <> "") by discriminate.
  assert (H2 : transports s !! first_id = Some 0) by (vm_compute; reflexivity).
  assert (H3 : hr_exn r = Some (Error "write after end")) by reflexivity.
  destruct (proj2 (handlePostRequest_captures_exceptions
                     (sdk_ops := late_failure_sdk) req s)
              first_id 0 (Error "write after end") eq_refl H1 H2 H3)
    as [Hlog Hres].
  split; [exact H1|]. split; [exact H2|]. split; [exact H3|].
  split; [reflexivity|]. split; [exact Hlog | exact Hres].
Defined.

Lemma handleGetRequest_propagates_witness :
  let s := one_session false true false in
  let req := mkRequest (Some first_id) JUndefined in
  first_id <> ""
  /\ transports s !! first_id = Some 0
  /\ hr_exn (sdk_handleRequest (session_ids s) 0 req None (world s))
     = Some (Error "stream failed")
  /\ result_of (handleGetRequest req s) = Throw (Error "stream failed")
  /\ responses (events_of (handleGetRequest req s)) = [].
Proof.
  intros s req.
  assert (H1 : first_id <> "") by discriminate.
  assert (H2 : transports s !! first_id = Some 0) by (vm_compute; reflexivity).
  assert (H3 : hr_exn (sdk_handleRequest (session_ids s) 0 req None (world s))
               = Some (Error "stream failed")) by reflexivity.
  destruct (handleGetRequest_propagates (sdk_ops := faulty_sdk false true false)
              req s first_id 0 (Error "stream failed") eq_refl H1 H2 H3)
    as (Hres & _ & Hresp & _).
  repeat split; assumption.
Defined.

Lemma connect_failure_answers_500_witness :
  let s := initial_state (sdk_ops := faulty_sdk true false false) tt in
  truthy_header (session_header initialize_request) = false
  /\ isInitializeRequest (sdk_ops := faulty_sdk true false false)
       (body initialize_request) = true
  /\ responses (events_of (handlePostRequest initialize_request s))
     = [(500%Z, error_envelope "Internal server error." first_id)]
  /\ transports (state_after (handlePostRequest initialize_request s)) = ∅.
Proof.
  intros s.
  assert (H1 : truthy_header (session_header initialize_request) = false)
    by reflexivity.
  assert (H2 : isInitializeRequest (sdk_ops := faulty_sdk true false false)
                 (body initialize_request) = true) by reflexivity.
  destruct (connect_failure_answers_500 (sdk_ops := faulty_sdk true false false)
              initialize_request s (Error "Already connected") H1 H2 eq_refl)
    as (_ & _ & _ & Hresp & Ht & _).
  repeat split; assumption.
Defined.

Lemma no_such_session_not_inherited :
  "no-such-session" ∉ Object_prototype_keys.
Proof.
  unfold Object_prototype_keys. rewrite !not_elem_of_cons.
  repeat split; try discriminate. apply not_elem_of_nil.
Qed.

Lemma bad_request_exactly_when_witness :
  In (400%Z, error_envelope "Bad Request: invalid session ID or method." first_id)
    (responses (events_of (handleGetRequest (sdk_ops := counting_sdk)
                             (mkRequest (Some "no-such-session") JUndefined)
                             (initial_state (sdk_ops := counting_sdk) tt)))).
Proof.
  apply (proj2 (bad_request_exactly_when (sdk_ops := counting_sdk)
                  (mkRequest (Some "no-such-session") JUndefined)
                  (initial_state (sdk_ops := counting_sdk) tt)
                  (error_envelope "Bad Request: invalid session ID or method."
                     first_id))).
  split; [reflexivity|]. right. exists "no-such-session".
  split; [reflexivity|]. split; [discriminate|]. split; [reflexivity|].
  exact no_such_session_not_inherited.
Defined.

Lemma registered_session_is_served_witness :
  let s := state_after (serve (sdk_ops := counting_sdk)
                          [PostCall initialize_request]
                          (initial_state (sdk_ops := counting_sdk) tt)) in
  transports s !! first_id = Some 0
  /\ handled_by (events_of (handlePostRequest
                              (mkRequest (Some first_id) initialize_body) s))
     = [0]
  /\ transports (state_after (handlePostRequest
                                (mkRequest (Some first_id) initialize_body) s))
     = transports s.
Proof.
  intros s.
  assert (H : transports s !! first_id = Some 0) by (vm_compute; reflexivity).
  destruct (registered_session_is_served (sdk_ops := counting_sdk)
              [PostCall initialize_request] tt first_id 0 initialize_body H)
    as (Hpost & _ & _ & _ & Ht & _).
  repeat split; assumption.
Defined.

Lemma sessions_never_removed_witness :
  let s := state_after (serve (sdk_ops := counting_sdk)
                          [PostCall initialize_request]
                          (initial_state (sdk_ops := counting_sdk) tt)) in
  let calls := [PostCall initialize_request;
                GetCall (mkRequest (Some first_id) JUndefined);
                PostCall (mkRequest (Some "no-such-session") list_tools_body)] in
  is_Some (transports s !! first_id)
  /\ is_Some (transports (state_after (serve calls s)) !! first_id).
Proof.
  intros s calls.
  assert (H : is_Some (transports s !! first_id))
    by (exists 0; vm_compute; reflexivity).
  split; [exact H|].
  exact (proj1 (sessions_never_removed (sdk_ops := counting_sdk)
                  calls s first_id H)).
Defined.

Lemma counting_draws_distinct_3 : distinct_draws (sdk_ops := counting_sdk) 0 3.
Proof.
  intros i j Hi Hij Hj.
  assert (Hcases : (i = 0 /\ j = 1) \/ (i = 0 /\ j = 2) \/ (i = 1 /\ j = 2))
    by lia.
  destruct Hcases as [[-> ->] | [[-> ->] | [-> ->]]]; vm_compute; discriminate.
Qed.

Lemma error_ids_are_fresh_witness :
  let calls := [PostCall (mkRequest None list_tools_body);
                PostCall initialize_request;
                GetCall (mkRequest None JUndefined)] in
  let o := serve (sdk_ops := counting_sdk) calls
             (initial_state (sdk_ops := counting_sdk) tt) in
  distinct_draws (sdk_ops := counting_sdk) 0 (uuid_draws (state_after o))
  /\ length (responses (events_of o)) = 2
  /\ NoDup (map (fun r => envelope_id (snd r)) (responses (events_of o))).
Proof.
  intros calls o.
  assert (H : distinct_draws (sdk_ops := counting_sdk) 0
                (uuid_draws (state_after o)))
    by exact counting_draws_distinct_3.
  split; [exact H|]. split; [reflexivity|].
  exact (proj1 (error_ids_are_fresh (sdk_ops := counting_sdk) calls tt H)).
Defined.

(** * Properties of the client *)

Module ClientFacts.
Import Client.

Section Facts.
Context `{services : Services}.

Ltac run_client :=
  unfold connectToServer, setUpTransport, cleanup, processQuery,
    start_callback, after_callTool, ask_settlement,
    call_unit, call_value, call_start, set_transport, set_tools, set_stdin,
    console_log, console_error, try_catch, bind, ret, throw, emit, get_state,
    with_outside, result_of, state_after, events_of in *.

(** ** Connecting *)

Lemma type_properties_differ : "type" <> "properties".
Proof. discriminate. Qed.

(** X12. When the URL is valid and [connect] and [listTools] succeed,
    [connectToServer] keeps one declaration per tool of the server, in the
    server's order and under the tool's name and description, and sets both
    handlers of the transport.  In the parameters of a declaration, [type]
    is [Type.OBJECT] whatever the schema says, [properties] is what the
    schema has under that name (undefined when it has none), and every
    other property of the schema is kept. *)
Theorem connectToServer_declares_tools
    (serverUrl : string) (s : State) (listed : list Tool) :
  URL_valid serverUrl = true ->
  fst (mcp_connect (outside s)) = None ->
  fst (mcp_listTools (snd (mcp_connect (outside s)))) = Normal listed ->
  let o := connectToServer serverUrl s in
  result_of o = Normal tt
  /\ tools (state_after o) = map declare listed
  /\ map fd_name (tools (state_after o)) = map tool_name listed
  /\ map fd_description (tools (state_after o)) = map tool_description listed
  /\ transport (state_after o) = Some (mkTransport true true)
  /\ last (events_of o)
     = Some (Log [AText "Connected to server with tools:";
                  ANames (map tool_name listed)])
  /\ forall tool, In tool listed ->
       prop_get "type" (fd_parameters (declare tool)) = Some Type_OBJECT
       /\ prop_get "properties" (fd_parameters (declare tool))
          = Some (match prop_get "properties" (tool_inputSchema tool) with
                  | Some p => p
                  | None => JUndefined
                  end)
       /\ forall k, k <> "type" -> k <> "properties" ->
            prop_get k (fd_parameters (declare tool))
            = prop_get k (tool_inputSchema tool).
Proof.
  intros Hurl Hconnect Hlist.
  assert (Hnames : map fd_name (map declare listed) = map tool_name listed)
    by (rewrite map_map; reflexivity).
  assert (Hdescr : map fd_description (map declare listed)
                   = map tool_description listed)
    by (rewrite map_map; reflexivity).
  run_client. cbn. rewrite Hurl. cbn.
  destruct (mcp_connect (outside s)) as [c w1]. cbn in *. subst c. cbn.
  destruct (mcp_listTools w1) as [r w2]. cbn in *. subst r. cbn.
  rewrite Hnames.
  repeat split; try done.
  - unfold declare. cbn.
    rewrite prop_get_set_ne by apply type_properties_differ.
    apply prop_get_set_eq.
  - unfold declare. cbn. apply prop_get_set_eq.
  - intros k Hk1 Hk2. unfold declare. cbn.
    by rewrite !prop_get_set_ne.
Qed.

(** X13. When [connectToServer] fails, it throws the exception it caught
    after logging it, and [this.tools] is as before.  With an invalid URL no
    service is called and [this.transport] is untouched; when [connect]
    fails, the handlers of the new transport are not set and the tools are
    not asked for. *)
Theorem connectToServer_failure (serverUrl : string) (s : State) (e : Exn) :
  let o := connectToServer serverUrl s in
  result_of o = Throw e ->
  tools (state_after o) = tools s
  /\ last (events_of o)
     = Some (Log [AText "Failed to connect to MCP server: "; AExn e])
  /\ (URL_valid serverUrl = false ->
      e = TypeError "Invalid URL"
      /\ events_of o
         = [Log [AText "Failed to connect to MCP server: "; AExn e]]
      /\ transport (state_after o) = transport s)
  /\ (URL_valid serverUrl = true ->
      fst (mcp_connect (outside s)) = Some e ->
      events_of o
      = [NewTransport serverUrl; Connect;
         Log [AText "Failed to connect to MCP server: "; AExn e]]
      /\ transport (state_after o) = Some (mkTransport false false)).
Proof.
  run_client. cbn.
  destruct (URL_valid serverUrl); cbn.
  - destruct (mcp_connect (outside s)) as [[c|] w1]; cbn.
    + intros [= <-]. repeat split; try done.
    + destruct (mcp_listTools w1) as [[r|x] w2]; cbn; [done|].
      intros [= <-]. repeat split; try done.
  - intros [= <-]. repeat split; try done.
Qed.

(** ** One query *)

Lemma same_client_refl (s : State) : same_client s s.
Proof. by repeat split. Qed.

Lemma same_client_trans (s1 s2 s3 : State) :
  same_client s1 s2 -> same_client s2 s3 -> same_client s1 s3.
Proof. intros (?&?&?) (?&?&?). repeat split; congruence. Qed.

Lemma tool_calls_app (evs1 evs2 : list Event) :
  tool_calls (evs1 ++ evs2) = tool_calls evs1 ++ tool_calls evs2.
Proof. unfold tool_calls. apply flat_map_app. Qed.

Lemma generations_app (evs1 evs2 : list Event) :
  generations (evs1 ++ evs2) = generations evs1 + generations evs2.
Proof. unfold generations. by rewrite flat_map_app, length_app. Qed.

Lemma bind_normal {A B} (m : M A) (k : A -> M B) (s s1 : State)
    (a : A) (ev1 : list Event) :
  m s = (Normal a, s1, ev1) ->
  bind m k s = (fst (fst (k a s1)), snd (fst (k a s1)), ev1 ++ snd (k a s1)).
Proof. intros H. unfold bind. rewrite H. by destruct (k a s1) as [[r s2] ev2]. Qed.

Lemma bind_throw {A B} (m : M A) (k : A -> M B) (s s1 : State)
    (e : Exn) (ev1 : list Event) :
  m s = (Throw e, s1, ev1) -> bind m k s = (Throw e, s1, ev1).
Proof. intros H. unfold bind. by rewrite H. Qed.

Lemma start_callback_spec (toolCall : FunctionCall) (s : State) :
  exists t s' evs,
    start_callback toolCall s = (Normal t, s', evs)
    /\ same_client s s'
    /\ generations evs = 0
    /\ tool_calls evs = named_calls [toolCall]
    /\ match t with
       | Some task =>
           named_calls [toolCall] = [(task_name task, task_args task)]
           /\ task_stage task = AwaitCallTool
       | None => named_calls [toolCall] = []
       end.
Proof.
  run_client. unfold named_calls. cbn.
  destruct (fc_name toolCall) as [name|]; cbn.
  - destruct (truthy_string name); cbn; do 3 eexists; repeat split.
  - do 3 eexists; repeat split.
Qed.

Lemma named_calls_cons (c : FunctionCall) (rest : list FunctionCall) :
  named_calls (c :: rest) = named_calls [c] ++ named_calls rest.
Proof. unfold named_calls. cbn. by rewrite app_nil_r. Qed.

Lemma start_callbacks_spec (calls : list FunctionCall) (s : State) :
  exists pending s' evs,
    start_callbacks calls s = (Normal pending, s', evs)
    /\ same_client s s'
    /\ generations evs = 0
    /\ tool_calls evs = named_calls calls
    /\ map (fun t => (task_name t, task_args t)) pending = named_calls calls
    /\ awaiting_callTool pending = pending.
Proof.
  revert s. induction calls as [|c rest IH]; intros s.
  - exists [], s, []. repeat split.
  - destruct (start_callback_spec c s)
      as (t & s1 & ev1 & Hrun & Hsame & Hgen & Htc & Ht).
    destruct (IH s1) as (ts & s2 & ev2 & Hrun' & Hsame' & Hgen' & Htc' & Hmap & Hstage).
    cbn [start_callbacks].
    rewrite (bind_normal _ _ _ _ _ _ Hrun), (bind_normal _ _ _ _ _ _ Hrun').
    unfold ret. cbn [fst snd].
    do 3 eexists. split; [reflexivity|].
    rewrite app_nil_r, generations_app, tool_calls_app, Hgen, Hgen', Htc, Htc'.
    rewrite (named_calls_cons c rest).
    split; [by eapply same_client_trans|]. split; [done|]. split; [done|].
    destruct t as [task|].
    + destruct Ht as [Hn Hs]. rewrite Hn. cbn [map app]. rewrite Hmap.
      split; [done|].
      unfold awaiting_callTool in *. cbn [flat_map]. rewrite Hs. cbn [app].
      by rewrite Hstage.
    + rewrite Ht. cbn [app]. by split.
Qed.

Lemma after_callTool_spec (config : list FunctionDeclaration)
    (response : GenerateContentResponse) (task : Task)
    (toolResult : CallToolResult) (sh : Shared) (s : State) :
  exists r s' evs,
    after_callTool config response task toolResult sh s = (r, s', evs)
    /\ same_client s s'
    /\ tool_calls evs = []
    /\ forall sh', r = Normal sh' ->
         finalText sh'
         = finalText sh ++ [calling_line (task_name task) (task_args task)]
         /\ generations evs = 1.
Proof.
  run_client. cbn.
  destruct (result_content toolResult) as [content|]; cbn.
  - destruct (first_candidate_content response); cbn;
      do 3 eexists; (split; [reflexivity|]);
      (split; [by repeat split|]); (split; [reflexivity|]);
      intros sh' [= <-]; done.
  - do 3 eexists. split; [reflexivity|]. split; [by repeat split|].
    split; [reflexivity|]. intros sh' [=].
Qed.

Lemma awaiting_elem (pending : list Task) (t : Task) :
  t ∈ awaiting_callTool pending <->
  t ∈ pending /\ task_stage t = AwaitCallTool.
Proof.
  unfold awaiting_callTool. induction pending as [|t0 rest IH]; cbn.
  - split; [intros H; by apply not_elem_of_nil in H
           | intros [H _]; by apply not_elem_of_nil in H].
  - rewrite elem_of_app, IH, elem_of_cons.
    destruct (task_stage t0) eqn:E.
    + rewrite list_elem_of_singleton. split.
      * intros [-> | [? ?]]; auto.
      * intros [[-> | ?] ?]; auto.
    + split.
      * intros [H | [? ?]]; [by apply not_elem_of_nil in H | auto].
      * intros [[-> | ?] ?]; [congruence | auto].
Qed.

Lemma work_positive (t : Task) (rest : list Task) : 0 < work (t :: rest).
Proof. unfold work. cbn. destruct (task_stage t); lia. Qed.

Lemma work_to_generate (pending : list Task) (i : nat) (t : Task) :
  pending !! i = Some t -> task_stage t = AwaitCallTool ->
  work (<[i := mkTask (task_name t) (task_args t) AwaitGenerate]> pending) + 1
  = work pending
  /\ length (awaiting_callTool
               (<[i := mkTask (task_name t) (task_args t) AwaitGenerate]> pending))
     + 1
     = length (awaiting_callTool pending).
Proof.
  revert i. induction pending as [|t0 rest IH]; intros i Hi Hs; [done|].
  destruct i as [|i]; cbn [lookup list_lookup] in Hi.
  - injection Hi as ->. unfold work, awaiting_callTool. cbn. rewrite Hs. cbn. lia.
  - destruct (IH i Hi Hs) as [H1 H2].
    change (<[S i := ?x]> (t0 :: rest)) with (t0 :: <[i := x]> rest).
    unfold work, awaiting_callTool in *. cbn [map flat_map].
    change (list_sum (?a :: ?l)) with (a + list_sum l).
    rewrite !length_app. split; lia.
Qed.

Lemma work_delete (pending : list Task) (i : nat) (t : Task) :
  pending !! i = Some t -> task_stage t = AwaitGenerate ->
  work (delete i pending) + 1 = work pending
  /\ length (awaiting_callTool (delete i pending))
     = length (awaiting_callTool pending).
Proof.
  revert i. induction pending as [|t0 rest IH]; intros i Hi Hs; [done|].
  destruct i as [|i]; cbn [lookup list_lookup] in Hi.
  - injection Hi as ->. unfold work, awaiting_callTool. cbn. rewrite Hs. cbn. lia.
  - destruct (IH i Hi Hs) as [H1 H2].
    change (delete (S i) (t0 :: rest)) with (t0 :: delete i rest).
    unfold work, awaiting_callTool in *. cbn [map flat_map].
    change (list_sum (?a :: ?l)) with (a + list_sum l).
    rewrite !length_app. split; lia.
Qed.

Lemma pick_in_range (pending : list Task) (n : nat) :
  pending <> [] -> is_Some (pending !! (n mod length pending)).
Proof.
  intros Hne. apply lookup_lt_is_Some_2. apply Nat.mod_upper_bound.
  destruct pending; [done | cbn; lia].
Qed.

(** What [await Promise.all(...)] does, whatever the order of the
    settlements: no tool is called any more; and when it resolves, every
    pending callback has added its lines, one call of [generateContent] has
    been made for each callback that was still to go through [callTool],
    and the line announcing each of these is in [finalText]. *)
Lemma settle_all_spec (config : list FunctionDeclaration)
    (response : GenerateContentResponse) (rounds : nat) :
  forall (pending : list Task) (sh : Shared) (s : State),
    work pending <= rounds ->
    exists r s' evs,
      settle_all rounds config response pending sh s = (r, s', evs)
      /\ same_client s s'
      /\ tool_calls evs = []
      /\ forall sh', r = Normal sh' ->
           length (finalText sh') = length (finalText sh) + work pending
           /\ generations evs = length (awaiting_callTool pending)
           /\ (forall line, In line (finalText sh) -> In line (finalText sh'))
           /\ (forall t, t ∈ awaiting_callTool pending ->
                 In (calling_line (task_name t) (task_args t)) (finalText sh')).
Proof.
  induction rounds as [|rounds IH]; intros pending sh s Hwork.
  - destruct pending as [|t rest].
    + exists (Normal sh), s, []. split; [done|]. split; [apply same_client_refl|].
      split; [done|]. intros sh' [= <-]. cbn. repeat split; try lia; try done.
      intros t Ht. by apply not_elem_of_nil in Ht.
    + pose proof (work_positive t rest). lia.
  - destruct pending as [|t0 rest].
    { exists (Normal sh), s, []. split; [done|]. split; [apply same_client_refl|].
      split; [done|]. intros sh' [= <-]. cbn. repeat split; try lia; try done.
      intros t Ht. by apply not_elem_of_nil in Ht. }
    cbn [settle_all]. unfold bind at 1, ask_settlement.
    destruct (settle (t0 :: rest) (outside s)) as [st w1]. cbn [fst snd].
    set (pending := t0 :: rest) in *.
    assert (Hne : pending <> []) by done.
    set (s1 := with_outside s w1).
    assert (Hs1 : same_client s s1) by (by repeat split).
    set (i := pick st mod length pending).
    destruct (pick_in_range pending (pick st) Hne) as [task Htask].
    fold i in Htask. rewrite Htask.
    destruct (task_stage task) eqn:Hstage.
    + destruct (tool_outcome st) as [toolResult|e].
      * destruct (after_callTool_spec config response task toolResult sh s1)
          as (r1 & s2 & ev2 & Hrun & Hsame2 & Htc2 & Hok2).
        destruct r1 as [sh1|e].
        -- rewrite (bind_normal _ _ _ _ _ _ Hrun).
           destruct (Hok2 sh1 eq_refl) as [Hft Hgen2].
           destruct (work_to_generate pending i task Htask Hstage) as [Hw Ha].
           set (pending' := <[i := mkTask (task_name task) (task_args task)
                                          AwaitGenerate]> pending) in *.
           destruct (IH pending' sh1 s2 ltac:(lia))
             as (r & s3 & ev3 & Hrun3 & Hsame3 & Htc3 & Hok3).
           rewrite Hrun3. cbn [fst snd app].
           exists r, s3, (ev2 ++ ev3). split; [done|].
           split; [eapply same_client_trans; [exact Hs1|];
                   by eapply same_client_trans|].
           split; [by rewrite tool_calls_app, Htc2, Htc3|].
           intros sh' Hr. destruct (Hok3 sh' Hr) as (Hlen & Hgen & Hkeep & Hlines).
           rewrite Hft, length_app in Hlen. cbn [length] in Hlen.
           split; [lia|]. split; [rewrite generations_app; lia|].
           split.
           { intros line Hin. apply Hkeep. rewrite Hft. apply in_app_iff. by left. }
           intros t Ht. apply awaiting_elem in Ht as [Hin Hst].
           apply list_elem_of_lookup in Hin as [j Hj].
           destruct (decide (j = i)) as [-> | Hji].
           ++ assert (t = task) as -> by congruence.
              apply Hkeep. rewrite Hft. apply in_app_iff. right. by left.
           ++ apply Hlines. apply awaiting_elem. split; [|done].
              apply list_elem_of_lookup. exists j. unfold pending'.
              by rewrite list_lookup_insert_ne.
        -- rewrite (bind_throw _ _ _ _ _ _ Hrun). cbn [app].
           exists (Throw e), s2, ev2. split; [done|].
           split; [by eapply same_client_trans|]. split; [done|].
           intros sh' [=].
      * exists (Throw e), s1, []. split; [done|]. split; [done|].
        split; [done|]. intros sh' [=].
    + destruct (generate_outcome st) as [nextResponse|e].
      * destruct (work_delete pending i task Htask Hstage) as [Hw Ha].
        destruct (IH (delete i pending) (after_generate nextResponse sh) s1
                    ltac:(lia))
          as (r & s3 & ev3 & Hrun3 & Hsame3 & Htc3 & Hok3).
        rewrite Hrun3. cbn [app].
        exists r, s3, ev3. split; [done|].
        split; [by eapply same_client_trans|]. split; [done|].
        intros sh' Hr. destruct (Hok3 sh' Hr) as (Hlen & Hgen & Hkeep & Hlines).
        unfold after_generate in Hlen, Hkeep. cbn [finalText] in Hlen, Hkeep.
        rewrite length_app in Hlen. cbn [length] in Hlen.
        split; [lia|]. split; [lia|].
        split.
        { intros line Hin. apply Hkeep. apply in_app_iff. by left. }
        intros t Ht. apply awaiting_elem in Ht as [Hin Hst].
        apply list_elem_of_lookup in Hin as [j Hj].
        apply Hlines. apply awaiting_elem. split; [|done].
        assert (Hji : j <> i) by (intros ->; congruence).
        apply list_elem_of_lookup.
        destruct (decide (j < i)) as [Hlt | Hge].
        -- exists j. by rewrite list_lookup_delete_lt.
        -- exists (pred j). rewrite list_lookup_delete_ge by lia.
           replace (S (pred j)) with j by lia. done.
      * exists (Throw e), s1, []. split; [done|]. split; [done|].
        split; [done|]. intros sh' [=].
Qed.

Lemma work_all_callTool (pending : list Task) :
  awaiting_callTool pending = pending -> work pending = 2 * length pending.
Proof.
  intros Hall.
  assert (Hstage : forall t, t ∈ pending -> task_stage t = AwaitCallTool).
  { intros t Ht. rewrite <- Hall in Ht. by apply awaiting_elem in Ht as [_ ?]. }
  clear Hall. unfold work. induction pending as [|t rest IH]; [done|].
  cbn [map length]. change (list_sum (?a :: ?l)) with (a + list_sum l).
  rewrite IH by (intros t' Ht'; apply Hstage; by apply list_elem_of_further).
  rewrite (Hstage t) by apply list_elem_of_here. lia.
Qed.

(** A query that the model answers with function calls. *)
Lemma processQuery_with_calls (query : string) (s : State)
    (response : GenerateContentResponse) (w1 : Outside)
    (c : FunctionCall) (rest : list FunctionCall) :
  generateContent [user_text query] (tools s) (outside s) = (Normal response, w1) ->
  resp_functionCalls response = Some (c :: rest) ->
  exists res s' evs,
    processQuery query s = (res, s', evs)
    /\ same_client s s'
    /\ tool_calls evs = named_calls (c :: rest)
    /\ forall qr, res = Normal qr ->
         exists lines,
           qr = Text (String.concat newline lines)
           /\ length lines = 2 * length (named_calls (c :: rest))
           /\ generations evs = 1 + length (named_calls (c :: rest))
           /\ forall name args,
                In (name, args) (named_calls (c :: rest)) ->
                In (calling_line name args) lines.
Proof.
  intros Hgen Hcalls.
  unfold processQuery, get_state, console_log, emit, call_value.
  unfold bind at 1. cbn [fst snd]. unfold bind at 1. cbn [fst snd].
  unfold bind at 1. rewrite Hgen. cbn [fst snd]. rewrite Hcalls.
  set (s1 := with_outside s w1).
  assert (Hs1 : same_client s s1) by (by repeat split).
  destruct (start_callbacks_spec (c :: rest) s1)
    as (pending & s2 & ev2 & Hrun2 & Hsame2 & Hgen2 & Htc2 & Hmap2 & Hall2).
  rewrite (bind_normal _ _ _ _ _ _ Hrun2).
  destruct (settle_all_spec (tools s) response (2 * length pending) pending
              (mkShared [user_text query] [] []) s2)
    as (r3 & s3 & ev3 & Hrun3 & Hsame3 & Htc3 & Hok3).
  { by rewrite work_all_callTool. }
  destruct r3 as [sh|e].
  - rewrite (bind_normal _ _ _ _ _ _ Hrun3). unfold bind, emit, ret.
    cbn [fst snd app].
    do 3 eexists. split; [reflexivity|].
    split; [eapply same_client_trans; [exact Hs1|];
            by eapply same_client_trans|].
    split.
    { change (?a :: ?b :: ?l) with ([a; b] ++ l).
      rewrite !tool_calls_app, Htc2, Htc3. cbn. by rewrite !app_nil_r. }
    intros qr [= <-]. exists (finalText sh).
    destruct (Hok3 sh eq_refl) as (Hlen & Hgens & _ & Hlines).
    rewrite work_all_callTool in Hlen by done. rewrite Hall2 in Hgens.
    assert (Hcount : length pending = length (named_calls (c :: rest)))
      by (by rewrite <- Hmap2, length_map).
    cbn [finalText length] in Hlen.
    split; [done|]. split; [lia|]. split.
    { change (?a :: ?b :: ?l) with ([a; b] ++ l).
      rewrite !generations_app, Hgen2, Hgens, <- Hcount. cbn. lia. }
    intros name args Hin. rewrite <- Hmap2 in Hin.
    apply in_map_iff in Hin as (t & [= <- <-] & Hin).
    apply Hlines. rewrite Hall2. by apply list_elem_of_In.
  - rewrite (bind_throw _ _ _ _ _ _ Hrun3). cbn [fst snd app].
    do 3 eexists. split; [reflexivity|].
    split; [eapply same_client_trans; [exact Hs1|];
            by eapply same_client_trans|].
    split.
    { change (?a :: ?b :: ?l) with ([a; b] ++ l).
      rewrite !tool_calls_app, Htc2, Htc3. cbn. by rewrite !app_nil_r. }
    intros qr [=].
Qed.

(** X14. Whatever happens later, [processQuery] calls [callTool] once for
    each function call of the model's answer that has a name, in the order
    of the answer and with its arguments, and for no other; when the first
    [generateContent] fails, or the answer has no function calls, it calls
    no tool.  A query changes neither [this.tools] nor [this.transport]. *)
Theorem processQuery_calls_named_tools (query : string) (s : State) :
  let o := processQuery query s in
  tool_calls (events_of o)
  = match fst (generateContent [user_text query] (tools s) (outside s)) with
    | Normal response =>
        named_calls (match resp_functionCalls response with
                     | Some calls => calls
                     | None => []
                     end)
    | Throw _ => []
    end
  /\ same_client s (state_after o).
Proof.
  cbn zeta.
  destruct (generateContent [user_text query] (tools s) (outside s))
    as [[response|e] w1] eqn:Hgen; cbn [fst].
  - destruct (resp_functionCalls response) as [[|c rest]|] eqn:Hcalls.
    + unfold processQuery, get_state, console_log, emit, call_value, bind, ret.
      cbn [fst snd]. rewrite Hgen. cbn [fst snd]. rewrite Hcalls.
      unfold events_of, state_after. cbn. by repeat split.
    + destruct (processQuery_with_calls query s response w1 c rest Hgen Hcalls)
        as (res & s' & evs & Hrun & Hsame & Htc & _).
      rewrite Hrun. by split.
    + unfold processQuery, get_state, console_log, emit, call_value, bind, ret.
      cbn [fst snd]. rewrite Hgen. cbn [fst snd]. rewrite Hcalls.
      unfold events_of, state_after. cbn. by repeat split.
  - unfold processQuery, get_state, console_log, emit, call_value, bind, ret.
    cbn [fst snd]. rewrite Hgen. unfold events_of, state_after. cbn.
    by repeat split.
Qed.

(** X15. When the model answers without function calls, [processQuery]
    has made one call of [generateContent] and nothing else, and returns
    the array that holds the text of the answer, or the empty string when
    the answer has no text; what [chatLoop] prints for it is a new line
    followed by that text. *)
Theorem processQuery_without_calls (query : string) (s : State)
    (response : GenerateContentResponse) (w1 : Outside) :
  generateContent [user_text query] (tools s) (outside s) = (Normal response, w1) ->
  resp_functionCalls response = None \/ resp_functionCalls response = Some [] ->
  let o := processQuery query s in
  let answer := text_or_empty (resp_text response) in
  result_of o = Normal (Lines [answer])
  /\ events_of o
     = [Log [AText "Processing query with contents {} and config {}";
             AContents [user_text query]; ATools (tools s)];
        Generate [user_text query] (tools s)]
  /\ shown (Lines [answer]) = (newline ++ answer)%string.
Proof.
  intros Hgen Hcalls.
  unfold processQuery, get_state, console_log, emit, call_value, bind, ret.
  cbn [fst snd]. rewrite Hgen. cbn [fst snd].
  destruct Hcalls as [-> | ->]; by repeat split.
Qed.

(** X16. When the model answers with function calls and [processQuery]
    returns, it returns one text: the lines of [finalText] joined by new
    lines, two lines for each function call that has a name, among them the
    line that announces the call; and [generateContent] has been called
    once more for each of these calls. *)
Theorem processQuery_with_calls_returns (query : string) (s : State)
    (response : GenerateContentResponse) (w1 : Outside)
    (calls : list FunctionCall) (qr : QueryResult) :
  generateContent [user_text query] (tools s) (outside s) = (Normal response, w1) ->
  resp_functionCalls response = Some calls ->
  calls <> [] ->
  let o := processQuery query s in
  result_of o = Normal qr ->
  exists lines,
    qr = Text (String.concat newline lines)
    /\ length lines = 2 * length (named_calls calls)
    /\ generations (events_of o) = 1 + length (named_calls calls)
    /\ forall name args,
         In (name, args) (named_calls calls) ->
         In (calling_line name args) lines.
Proof.
  intros Hgen Hcalls Hne o Hres. destruct calls as [|c rest]; [done|].
  destruct (processQuery_with_calls query s response w1 c rest Hgen Hcalls)
    as (res & s' & evs & Hrun & _ & _ & Hok).
  subst o. rewrite Hrun in *. by apply Hok.
Qed.

(** ** The events of a query *)

Lemma queries_started_app (evs1 evs2 : list Event) :
  queries_started (evs1 ++ evs2) = queries_started evs1 ++ queries_started evs2.
Proof. unfold queries_started. apply flat_map_app. Qed.

Lemma start_callbacks_events (calls : list FunctionCall) (s : State) :
  Forall model_event (events_of (start_callbacks calls s))
  /\ queries_started (events_of (start_callbacks calls s)) = [].
Proof.
  revert s. induction calls as [|c rest IH]; intros s.
  - cbn. by split.
  - destruct (start_callback_spec c s) as (t & s1 & ev1 & Hrun & _).
    assert (Hev1 : Forall model_event ev1 /\ queries_started ev1 = []).
    { revert Hrun. run_client. cbn.
      destruct (fc_name c) as [name|]; cbn;
        [destruct (truthy_string name); cbn|];
        intros [= _ _ <-]; split; try done; repeat constructor. }
    cbn [start_callbacks]. rewrite (bind_normal _ _ _ _ _ _ Hrun).
    destruct (IH s1) as [Hall Hq]. unfold bind, ret, events_of in *. cbn [snd].
    destruct (start_callbacks rest s1) as [[[ts|e] s2] ev2]; cbn [fst snd] in *.
    + rewrite app_nil_r, queries_started_app.
      destruct Hev1 as [H1 H2]. rewrite H2, Hq. split; [|done].
      by apply Forall_app.
    + rewrite queries_started_app.
      destruct Hev1 as [H1 H2]. rewrite H2, Hq. split; [|done].
      by apply Forall_app.
Qed.

Lemma after_callTool_events (config : list FunctionDeclaration)
    (response : GenerateContentResponse) (task : Task)
    (toolResult : CallToolResult) (sh : Shared) (s : State) :
  contents sh <> [] ->
  let o := after_callTool config response task toolResult sh s in
  Forall model_event (events_of o)
  /\ queries_started (events_of o) = []
  /\ forall sh', result_of o = Normal sh' -> contents sh' <> [].
Proof.
  intros Hne. run_client. cbn.
  destruct (result_content toolResult) as [content|]; cbn.
  - destruct (first_candidate_content response) as [c|]; cbn.
    + split; [repeat constructor|]. split.
      * by destruct (contents sh) as [|a [|b l]].
      * intros sh' [= <-]. cbn. by destruct (contents sh).
    + split; [repeat constructor|]. split.
      * by destruct (contents sh) as [|a [|b l]].
      * intros sh' [= <-]. cbn. by destruct (contents sh).
  - split; [constructor|]. split; [done|]. intros sh' [=].
Qed.

Lemma settle_all_events (config : list FunctionDeclaration)
    (response : GenerateContentResponse) (rounds : nat) :
  forall (pending : list Task) (sh : Shared) (s : State) r s' evs,
    contents sh <> [] ->
    settle_all rounds config response pending sh s = (r, s', evs) ->
    Forall model_event evs /\ queries_started evs = [].
Proof.
  induction rounds as [|rounds IH]; intros pending sh s r s' evs Hne Hrun.
  - destruct pending; cbn in Hrun; injection Hrun as <- <- <-; by split.
  - destruct pending as [|t0 rest];
      [cbn in Hrun; injection Hrun as <- <- <-; by split|].
    cbn [settle_all] in Hrun. unfold bind at 1, ask_settlement in Hrun.
    destruct (settle (t0 :: rest) (outside s)) as [st w1]. cbn [fst snd] in Hrun.
    set (pending := t0 :: rest) in *. set (s1 := with_outside s w1) in *.
    destruct (pending !! (pick st mod length pending)) as [task|];
      [|cbn in Hrun; injection Hrun as <- <- <-; by split].
    destruct (task_stage task).
    + destruct (tool_outcome st) as [toolResult|e];
        [|cbn in Hrun; injection Hrun as <- <- <-; by split].
      destruct (after_callTool_events config response task toolResult sh s1 Hne)
        as (Hall & Hq & Hcont).
      unfold bind, result_of, events_of in *.
      destruct (after_callTool config response task toolResult sh s1)
        as [[[sh1|e] s2] ev2]; cbn [fst snd] in *.
      * destruct (settle_all rounds config response _ sh1 s2)
          as [[r3 s3] ev3] eqn:Hrun3.
        destruct (IH _ _ _ _ _ _ (Hcont sh1 eq_refl) Hrun3) as [Hall3 Hq3].
        cbn [app] in Hrun. injection Hrun as <- <- <-.
        rewrite queries_started_app, Hq, Hq3.
        split; [by apply Forall_app | done].
      * cbn [app] in Hrun. injection Hrun as <- <- <-. by split.
    + destruct (generate_outcome st) as [nextResponse|e];
        [|cbn in Hrun; injection Hrun as <- <- <-; by split].
      destruct (settle_all rounds config response _ _ s1)
        as [[r3 s3] ev3] eqn:Hrun3.
      destruct (IH _ (after_generate nextResponse sh) _ _ _ _ Hne Hrun3)
        as [Hall3 Hq3].
      cbn [app] in Hrun. injection Hrun as <- <- <-. by split.
Qed.

Lemma processQuery_events (query : string) (s : State) :
  Forall model_event (events_of (processQuery query s))
  /\ queries_started (events_of (processQuery query s)) = [user_text query].
Proof.
  destruct (processQuery query s) as [[r s'] evs] eqn:Hrun.
  unfold events_of. cbn [snd]. revert Hrun.
  unfold processQuery, get_state, console_log, emit, call_value.
  unfold bind at 1. cbn [fst snd]. unfold bind at 1. cbn [fst snd].
  unfold bind at 1.
  destruct (generateContent [user_text query] (tools s) (outside s))
    as [[response|e] w1]; cbn [fst snd];
    [|intros [= <- <- <-]; split; [repeat constructor | done]].
  destruct (resp_functionCalls response) as [[|c rest]|];
    try (unfold ret; cbn; intros [= <- <- <-];
         split; [repeat constructor | done]).
  set (s1 := with_outside s w1).
  destruct (start_callbacks_spec (c :: rest) s1)
    as (pending & s2 & ev2 & Hrun2 & _).
  destruct (start_callbacks_events (c :: rest) s1) as [Hall2 Hq2].
  rewrite Hrun2 in Hall2, Hq2. unfold events_of in Hall2, Hq2. cbn [snd] in *.
  rewrite (bind_normal _ _ _ _ _ _ Hrun2).
  unfold bind, emit, ret.
  assert (Hc : contents (mkShared [user_text query] [] []) <> []) by done.
  destruct (settle_all (2 * length pending) (tools s) response pending _ s2)
    as [[[sh|e] s3] ev3] eqn:Hrun3;
    destruct (settle_all_events _ _ _ _ _ _ _ _ _ Hc Hrun3)
      as [Hall3 Hq3];
    cbn [fst snd app]; intros [= <- <- <-].
  - change (?a :: ?b :: ?l) with ([a; b] ++ l).
    rewrite !queries_started_app, Hq2, Hq3. split; [|done].
    apply Forall_app. split; [repeat constructor|].
    apply Forall_app. split; [done|].
    apply Forall_app. split; [done | repeat constructor].
  - change (?a :: ?b :: ?l) with ([a; b] ++ l).
    rewrite !queries_started_app, Hq2, Hq3. split; [|done].
    apply Forall_app. split; [repeat constructor|].
    by apply Forall_app.
Qed.

Lemma processQuery_same_client (query : string) (s : State) :
  same_client s (state_after (processQuery query s)).
Proof.
  destruct (generateContent [user_text query] (tools s) (outside s))
    as [[response|e] w1] eqn:Hgen.
  - destruct (resp_functionCalls response) as [[|c rest]|] eqn:Hcalls.
    + unfold processQuery, get_state, console_log, emit, call_value, bind, ret.
      cbn [fst snd]. rewrite Hgen. cbn [fst snd]. rewrite Hcalls.
      unfold state_after. cbn. by repeat split.
    + destruct (processQuery_with_calls query s response w1 c rest Hgen Hcalls)
        as (res & s' & evs & Hrun & Hsame & _).
      by rewrite Hrun.
    + unfold processQuery, get_state, console_log, emit, call_value, bind, ret.
      cbn [fst snd]. rewrite Hgen. cbn [fst snd]. rewrite Hcalls.
      unfold state_after. cbn. by repeat split.
  - unfold processQuery, get_state, console_log, emit, call_value, bind, ret.
    cbn [fst snd]. rewrite Hgen. unfold state_after. cbn. by repeat split.
Qed.

(** ** The chat loop *)

Lemma model_events_quiet (evs : list Event) :
  Forall model_event evs ->
  questions_asked evs = 0 /\ interface_closings evs = 0
  /\ mcp_closings evs = 0 /\ interfaces_created evs = 0.
Proof.
  induction 1 as [|e evs He _ IH]; [done|].
  unfold questions_asked, interface_closings, mcp_closings, interfaces_created
    in *.
  destruct e; cbn in *; try done.
Qed.

Lemma questions_asked_app (evs1 evs2 : list Event) :
  questions_asked (evs1 ++ evs2) = questions_asked evs1 + questions_asked evs2.
Proof. unfold questions_asked. by rewrite flat_map_app, length_app. Qed.

Lemma interface_closings_app (evs1 evs2 : list Event) :
  interface_closings (evs1 ++ evs2)
  = interface_closings evs1 + interface_closings evs2.
Proof. unfold interface_closings. by rewrite flat_map_app, length_app. Qed.

Lemma mcp_closings_app (evs1 evs2 : list Event) :
  mcp_closings (evs1 ++ evs2) = mcp_closings evs1 + mcp_closings evs2.
Proof. unfold mcp_closings. by rewrite flat_map_app, length_app. Qed.

Lemma interfaces_created_app (evs1 evs2 : list Event) :
  interfaces_created (evs1 ++ evs2)
  = interfaces_created evs1 + interfaces_created evs2.
Proof. unfold interfaces_created. by rewrite flat_map_app, length_app. Qed.

(** One round of the loop on a line that is not the quit command. *)
Lemma chat_rounds_step (message : string) (rest : list string) (s : State) :
  String.eqb (toLowerCase message) "quit" = false ->
  let s1 := mkState (transport s) (tools s) rest (outside s) in
  let q := processQuery message s1 in
  chat_rounds (message :: rest) s
  = match q with
    | (Normal response, s2, ev2) =>
        (fst (fst (chat_rounds rest s2)), snd (fst (chat_rounds rest s2)),
         Question (newline ++ "Query: ")%string
         :: ev2 ++ Log [AText (shown response)] :: snd (chat_rounds rest s2))
    | (Throw e, s2, ev2) =>
        (Throw e, s2, Question (newline ++ "Query: ")%string :: ev2)
    end.
Proof.
  intros Hq. cbn [chat_rounds]. unfold emit, set_stdin, console_log.
  unfold bind at 1. cbn [fst snd]. unfold bind at 1. cbn [fst snd].
  rewrite Hq. unfold bind at 1.
  destruct (processQuery message _) as [[[response|e] s2] ev2]; [|done].
  unfold bind at 1. unfold emit. cbn [fst snd].
  by destruct (chat_rounds rest s2) as [[r3 s3] ev3].
Qed.

(** The loop never closes anything itself, and leaves the tools and the
    transport alone. *)
Lemma chat_rounds_quiet (lines : list string) :
  forall s : State,
    let o := chat_rounds lines s in
    interface_closings (events_of o) = 0
    /\ mcp_closings (events_of o) = 0
    /\ interfaces_created (events_of o) = 0
    /\ transport (state_after o) = transport s
    /\ tools (state_after o) = tools s.
Proof.
  induction lines as [|message rest IH]; intros s.
  - cbn. unfold emit, bind. cbn.
    destruct question_at_end; cbn; by repeat split.
  - cbn zeta. destruct (String.eqb (toLowerCase message) "quit") eqn:Hq.
    + cbn [chat_rounds]. unfold emit, set_stdin, bind, ret. cbn. rewrite Hq.
      cbn. by repeat split.
    + rewrite (chat_rounds_step _ _ _ Hq). cbn zeta.
      set (s1 := mkState (transport s) (tools s) rest (outside s)).
      destruct (processQuery_events message s1) as [Hall _].
      destruct (processQuery_same_client message s1) as (Ht & Hto & _).
      apply model_events_quiet in Hall as (_ & H2 & H3 & H4).
      unfold events_of, state_after in *.
      destruct (processQuery message s1) as [[[response|e] s2] ev2];
        cbn [fst snd] in *.
      * destruct (IH s2) as (I1 & I2 & I3 & I4 & I5).
        change (?a :: ?l ++ ?b :: ?m) with ([a] ++ l ++ [b] ++ m).
        rewrite !interface_closings_app, !mcp_closings_app,
          !interfaces_created_app, I1, I2, I3, H2, H3, H4, I4, I5.
        by repeat split.
      * change (?a :: ?l) with ([a] ++ l).
        rewrite !interface_closings_app, !mcp_closings_app,
          !interfaces_created_app, H2, H3, H4.
        by repeat split.
Qed.

(** The loop on input that contains the quit command. *)
Lemma chat_rounds_quit (before : list string) (q : string) (after : list string) :
  toLowerCase q = "quit" ->
  Forall (fun m => toLowerCase m <> "quit") before ->
  forall s : State,
    let o := chat_rounds (before ++ q :: after) s in
    result_of o <> Normal Suspended
    /\ questions_asked (events_of o) <= length before + 1
    /\ (exists consumed, stdin (state_after o) = consumed ++ after)
    /\ (result_of o = Normal Finished ->
        stdin (state_after o) = after
        /\ questions_asked (events_of o) = length before + 1
        /\ queries_started (events_of o) = map user_text before).
Proof.
  intros Hquit Hbefore.
  induction Hbefore as [|message before Hm _ IH]; intros s.
  - cbn [app chat_rounds]. unfold emit, set_stdin, bind, ret. cbn [fst snd].
    rewrite Hquit. cbn. repeat split; try done; try lia. by exists [].
  - assert (Hq : String.eqb (toLowerCase message) "quit" = false)
      by (by apply String.eqb_neq).
    cbn [app]. cbn zeta. rewrite (chat_rounds_step _ _ _ Hq). cbn zeta.
    set (s1 := mkState (transport s) (tools s) (before ++ q :: after) (outside s)).
    destruct (processQuery_events message s1) as [Hall Hstarted].
    destruct (processQuery_same_client message s1) as (_ & _ & Hstdin).
    apply model_events_quiet in Hall as (H1 & _).
    unfold events_of, state_after, result_of in *.
    destruct (processQuery message s1) as [[[response|e] s2] ev2];
      cbn [fst snd] in *.
    + destruct (IH s2) as (I1 & I2 & I3 & I4).
      change (?a :: ?l ++ ?b :: ?m) with ([a] ++ l ++ [b] ++ m).
      rewrite !questions_asked_app, !queries_started_app, H1, Hstarted.
      split; [done|]. split; [cbn; lia|]. split; [done|].
      intros Hfin. destruct (I4 Hfin) as (J1 & J2 & J3).
      split; [done|]. split; [cbn; lia|]. cbn. by rewrite J3.
    + change (?a :: ?l) with ([a] ++ l).
      rewrite !questions_asked_app, H1.
      split; [done|]. split; [cbn; lia|].
      split; [|done]. exists (before ++ [q]).
      rewrite Hstdin. cbn. by rewrite <- app_assoc.
Qed.

Lemma chatLoop_run (s : State) :
  chatLoop s
  = match chat_rounds (stdin s) s with
    | (Normal Suspended, s1, ev1) =>
        (Normal Suspended, s1,
         CreateInterface
         :: Log [AText "Type your queries or 'quit' to exit."] :: ev1)
    | (r, s1, ev1) =>
        (r, s1,
         CreateInterface
         :: Log [AText "Type your queries or 'quit' to exit."]
         :: ev1 ++ [CloseInterface])
    end.
Proof.
  unfold chatLoop, console_log, get_state, bind, emit. cbn [fst snd app].
  by destruct (chat_rounds (stdin s) s) as [[[[|]|e] s1] ev1].
Qed.

(** X17. When the command quit is among the lines the user types,
    [chatLoop] completes or throws, and in either case it has closed the
    readline interface exactly once, as the last thing it did, and asked no
    question beyond the command.  When it completes, the lines before the
    command have each started one query, in order, and the lines after the
    command have not been read. *)
Theorem chatLoop_stops_at_quit
    (s : State) (before : list string) (q : string) (after : list string) :
  stdin s = before ++ q :: after ->
  toLowerCase q = "quit" ->
  Forall (fun m => toLowerCase m <> "quit") before ->
  let o := chatLoop s in
  result_of o <> Normal Suspended
  /\ interface_closings (events_of o) = 1
  /\ last (events_of o) = Some CloseInterface
  /\ questions_asked (events_of o) <= length before + 1
  /\ (exists consumed, stdin (state_after o) = consumed ++ after)
  /\ (result_of o = Normal Finished ->
      stdin (state_after o) = after
      /\ queries_started (events_of o) = map user_text before).
Proof.
  intros Hstdin Hquit Hbefore.
  cbn zeta. rewrite chatLoop_run, Hstdin.
  destruct (chat_rounds_quit before q after Hquit Hbefore s)
    as (Hres & Hasked & Hleft & Hfin).
  destruct (chat_rounds_quiet (before ++ q :: after) s) as (Hclosed & _).
  unfold result_of, events_of, state_after in *.
  destruct (chat_rounds (before ++ q :: after) s) as [[r s1] ev1].
  cbn [fst snd app] in *.
  assert (Hshape : exists r', r' <> Normal Suspended /\ r = r') by eauto.
  destruct r as [[|]|e]; [|done|]; cbn [fst snd].
  - change (?a :: ?b :: ?l ++ ?m) with ([a; b] ++ l ++ m).
    rewrite !interface_closings_app, !questions_asked_app, Hclosed.
    rewrite !last_app. cbn.
    split; [done|]. split; [done|]. split; [done|]. split; [lia|].
    split; [done|]. intros _. destruct (Hfin eq_refl) as (J1 & _ & J3).
    split; [done|].
    change (?a :: ?b :: ?l ++ ?m) with ([a; b] ++ l ++ m).
    rewrite !queries_started_app, J3. cbn. by rewrite app_nil_r.
  - change (?a :: ?b :: ?l ++ ?m) with ([a; b] ++ l ++ m).
    rewrite !interface_closings_app, !questions_asked_app, Hclosed.
    rewrite !last_app. cbn.
    split; [done|]. split; [done|]. split; [done|]. split; [lia|].
    split; [done|]. intros [=].
Qed.

(** ** The quit command *)

Lemma lower_ascii_q (c : ascii) :
  lower_ascii c = "q"%char -> c = "q"%char \/ c = "Q"%char.
Proof.
  destruct c as [[] [] [] [] [] [] [] []]; vm_compute; intros H;
    try discriminate; auto.
Qed.

Lemma lower_ascii_u (c : ascii) :
  lower_ascii c = "u"%char -> c = "u"%char \/ c = "U"%char.
Proof.
  destruct c as [[] [] [] [] [] [] [] []]; vm_compute; intros H;
    try discriminate; auto.
Qed.

Lemma lower_ascii_i (c : ascii) :
  lower_ascii c = "i"%char -> c = "i"%char \/ c = "I"%char.
Proof.
  destruct c as [[] [] [] [] [] [] [] []]; vm_compute; intros H;
    try discriminate; auto.
Qed.

Lemma lower_ascii_t (c : ascii) :
  lower_ascii c = "t"%char -> c = "t"%char \/ c = "T"%char.
Proof.
  destruct c as [[] [] [] [] [] [] [] []]; vm_compute; intros H;
    try discriminate; auto.
Qed.

(** X18. [chatLoop] takes a line for the quit command exactly when the line
    is the four letters of "quit", each in upper or lower case, and nothing
    else: no space before or after is forgiven. *)
Theorem quit_in_any_case (message : string) :
  String.eqb (toLowerCase message) "quit" = true <->
  exists a b c d : ascii,
    message = String a (String b (String c (String d EmptyString)))
    /\ (a = "q"%char \/ a = "Q"%char)
    /\ (b = "u"%char \/ b = "U"%char)
    /\ (c = "i"%char \/ c = "I"%char)
    /\ (d = "t"%char \/ d = "T"%char).
Proof.
  rewrite String.eqb_eq. split.
  - destruct message as [|a [|b [|c [|d [|x rest]]]]]; cbn; try discriminate.
    intros [= Ha Hb Hc Hd]. exists a, b, c, d.
    split; [done|].
    split; [by apply lower_ascii_q|]. split; [by apply lower_ascii_u|].
    split; [by apply lower_ascii_i | by apply lower_ascii_t].
  - intros (a & b & c & d & -> & Ha & Hb & Hc & Hd).
    destruct Ha as [-> | ->], Hb as [-> | ->], Hc as [-> | ->], Hd as [-> | ->];
      reflexivity.
Qed.

(** ** The whole program *)

Lemma connectToServer_quiet (serverUrl : string) (s : State) :
  let o := connectToServer serverUrl s in
  mcp_closings (events_of o) = 0
  /\ interfaces_created (events_of o) = 0
  /\ questions_asked (events_of o) = 0
  /\ stdin (state_after o) = stdin s.
Proof.
  run_client. cbn.
  destruct (URL_valid serverUrl); cbn; [|done].
  destruct (mcp_connect (outside s)) as [[c|] w1]; cbn; [done|].
  by destruct (mcp_listTools w1) as [[r|x] w2].
Qed.

Lemma chatLoop_quiet (s : State) :
  mcp_closings (events_of (chatLoop s)) = 0.
Proof.
  rewrite chatLoop_run.
  destruct (chat_rounds_quiet (stdin s) s) as (_ & Hclosed & _).
  unfold events_of in *.
  destruct (chat_rounds (stdin s) s) as [[[[|]|e] s1] ev1]; cbn [fst snd] in *.
  - change (?a :: ?b :: ?l ++ ?m) with ([a; b] ++ l ++ m).
    by rewrite !mcp_closings_app, Hclosed.
  - change (?a :: ?b :: ?l) with ([a; b] ++ l).
    by rewrite !mcp_closings_app, Hclosed.
  - change (?a :: ?b :: ?l ++ ?m) with ([a; b] ++ l ++ m).
    by rewrite !mcp_closings_app, Hclosed.
Qed.

Lemma main_run (s : State) :
  main s
  = match bind (connectToServer server_url) (fun _ => chatLoop) s with
    | (Normal Suspended, s1, ev1) => (Running, s1, ev1)
    | (_, s1, ev1) =>
        match cleanup s1 with
        | (Normal _, s2, ev2) => (Exited 0, s2, ev1 ++ ev2 ++ [Exit 0])
        | (Throw e, s2, ev2) => (Rejected e, s2, ev1 ++ ev2)
        end
    end.
Proof. reflexivity. Qed.

(** X19. However [main] ends, unless the chat is still waiting for
    input, it has called [this.mcp.close()] in its [finally]; the process
    exits with code 0 when that call resolves, whatever failed before, and
    [main] rejects with the exception of that call otherwise; no other exit
    code and no other exception comes out of [main].  When connecting
    fails, no interface is created and no question asked, and the process
    still exits with code 0 unless closing fails too.  The call of [main] is
    not the only one there can be: each run of one of the two handlers that
    [setUpTransport] puts on the transport, whenever the SDK invokes it,
    logs one line and calls [this.mcp.close()] once more, and completes as
    that call does. *)
Theorem main_exits_with_zero (s : State) :
  let o := main s in
  ((ending_of o <> Running -> In Close (events_of o))
   /\ (forall code, ending_of o = Exited code ->
         code = 0%Z /\ last (events_of o) = Some (Exit 0))
   /\ (forall e, result_of (connectToServer server_url s) = Throw e ->
         interfaces_created (events_of o) = 0
         /\ questions_asked (events_of o) = 0
         /\ ending_of o
            = match fst (mcp_close
                           (outside (state_after (connectToServer server_url s))))
              with
              | None => Exited 0
              | Some e' => Rejected e'
              end)
   /\ (ending_of o <> Running ->
       exists w, ending_of o = match fst (mcp_close w) with
                               | None => Exited 0
                               | Some e' => Rejected e'
                               end))
  /\ (forall (s0 : State) (error : Exn),
        let closing := mcp_close (outside s0) in
        events_of (onclose_handler s0)
        = [Log [AText "SSE transport closed."]; Close]
        /\ events_of (onerror_handler error s0)
           = [Log [AText "SSE transport error: "; AExn error]; Close]
        /\ result_of (onclose_handler s0)
           = match fst closing with None => Normal tt | Some e => Throw e end
        /\ result_of (onerror_handler error s0)
           = match fst closing with None => Normal tt | Some e => Throw e end).
Proof.
  cbn zeta. split.
  2: { intros s0 error.
       unfold onclose_handler, onerror_handler, cleanup, call_unit,
         console_log, emit, bind, events_of, result_of.
       cbn [fst snd app].
       by destruct (mcp_close (outside s0)) as [[e|] w]. }
  rewrite main_run. unfold bind.
  destruct (connectToServer_quiet server_url s) as (Hc1 & Hc2 & Hc3 & _).
  unfold events_of, state_after, result_of, ending_of in *.
  destruct (connectToServer server_url s) as [[[[]|e0] s1] ev1];
    cbn [fst snd] in *.
  - destruct (chatLoop s1) as [[[[|]|e1] s2] ev2]; cbn [fst snd] in *.
    + unfold cleanup, call_unit.
      destruct (mcp_close (outside s2)) as [[e2|] w3] eqn:Hclose; cbn [fst snd].
      * split; [intros _; rewrite !in_app_iff; cbn; tauto|].
        split; [intros code [=]|]. split; [intros e [=]|].
        intros _. exists (outside s2). by rewrite Hclose.
      * split; [intros _; rewrite !in_app_iff; cbn; tauto|].
        split; [intros code [= <-]; split; [done|];
                by rewrite !app_assoc, last_snoc|].
        split; [intros e [=]|].
        intros _. exists (outside s2). by rewrite Hclose.
    + split; [done|]. split; [intros code [=]|]. split; [intros e [=]|].
      intros H. by destruct H.
    + unfold cleanup, call_unit.
      destruct (mcp_close (outside s2)) as [[e2|] w3] eqn:Hclose; cbn [fst snd].
      * split; [intros _; rewrite !in_app_iff; cbn; tauto|].
        split; [intros code [=]|]. split; [intros e [=]|].
        intros _. exists (outside s2). by rewrite Hclose.
      * split; [intros _; rewrite !in_app_iff; cbn; tauto|].
        split; [intros code [= <-]; split; [done|];
                by rewrite !app_assoc, last_snoc|].
        split; [intros e [=]|].
        intros _. exists (outside s2). by rewrite Hclose.
  - unfold cleanup, call_unit.
    destruct (mcp_close (outside s1)) as [[e2|] w3] eqn:Hclose; cbn [fst snd].
    + split; [intros _; rewrite !in_app_iff; cbn; tauto|].
      split; [intros code [=]|].
      split; [intros e _;
              by rewrite !interfaces_created_app, !questions_asked_app, Hc2, Hc3|].
      intros _. exists (outside s1). by rewrite Hclose.
    + split; [intros _; rewrite !in_app_iff; cbn; tauto|].
      split; [intros code [= <-]; split; [done|];
              by rewrite !app_assoc, last_snoc|].
      split; [intros e _;
              by rewrite !interfaces_created_app, !questions_asked_app, Hc2, Hc3|].
      intros _. exists (outside s1). by rewrite Hclose.
Qed.

(** X20. [chatLoop] catches nothing: when a query fails, the loop ends with
    the exception of the query, having printed no answer for it, closed the
    readline interface as its last action and left the lines that follow
    unread. *)
Theorem failed_query_ends_the_chat
    (s : State) (message : string) (rest : list string) (e : Exn) :
  stdin s = message :: rest ->
  toLowerCase message <> "quit" ->
  result_of (processQuery message
               (mkState (transport s) (tools s) rest (outside s))) = Throw e ->
  let o := chatLoop s in
  let q := processQuery message
             (mkState (transport s) (tools s) rest (outside s)) in
  result_of o = Throw e
  /\ events_of o
     = [CreateInterface; Log [AText "Type your queries or 'quit' to exit."];
        Question (newline ++ "Query: ")%string]
       ++ events_of q ++ [CloseInterface]
  /\ questions_asked (events_of o) = 1
  /\ stdin (state_after o) = rest.
Proof.
  intros Hstdin Hquit Hres. cbn zeta.
  assert (Hq : String.eqb (toLowerCase message) "quit" = false)
    by (by apply String.eqb_neq).
  destruct (processQuery_events message
              (mkState (transport s) (tools s) rest (outside s)))
    as (Hmodel & _).
  destruct (processQuery_same_client message
              (mkState (transport s) (tools s) rest (outside s)))
    as (_ & _ & Hkept).
  rewrite chatLoop_run, Hstdin, (chat_rounds_step message rest s Hq).
  unfold result_of, events_of, state_after in *.
  destruct (processQuery message _) as [[r s2] ev2]. cbn [fst snd] in *.
  subst r. cbn [fst snd].
  split; [done|]. split; [done|]. split; [|done].
  change (?a :: ?b :: (?c :: ?l) ++ ?m) with ([a; b; c] ++ l ++ m).
  rewrite !questions_asked_app.
  destruct (model_events_quiet ev2 Hmodel) as (Hasked & _).
  rewrite Hasked. done.
Qed.

End Facts.

(** ** Instances on concrete runs *)

Lemma connectToServer_declares_tools_witness :
  let services := stub_services true plain_answer in
  let s := initial_state (services := services) [] tt in
  URL_valid server_url = true
  /\ fst (mcp_connect (outside s)) = None
  /\ fst (mcp_listTools (snd (mcp_connect (outside s)))) = Normal [echo_tool]
  /\ map fd_name (tools (state_after (connectToServer server_url s))) = ["echo"]
  /\ transport (state_after (connectToServer server_url s))
     = Some (mkTransport true true).
Proof.
  intros services s.
  destruct (connectToServer_declares_tools (services := services)
              server_url s [echo_tool] eq_refl eq_refl eq_refl)
    as (_ & _ & Hnames & _ & Htransport & _).
  repeat split; assumption.
Defined.

Lemma connectToServer_failure_witness :
  let services := stub_services false plain_answer in
  let s := initial_state (services := services) [] tt in
  result_of (connectToServer server_url s) = Throw (Error "fetch failed")
  /\ tools (state_after (connectToServer server_url s)) = []
  /\ last (events_of (connectToServer server_url s))
     = Some (Log [AText "Failed to connect to MCP server: ";
                  AExn (Error "fetch failed")]).
Proof.
  intros services s.
  assert (H : result_of (connectToServer server_url s)
              = Throw (Error "fetch failed")) by reflexivity.
  destruct (connectToServer_failure (services := services)
              server_url s (Error "fetch failed") H)
    as (Htools & Hlast & _).
  repeat split; assumption.
Defined.

Lemma processQuery_without_calls_witness :
  let services := stub_services true plain_answer in
  let s := initial_state (services := services) [] tt in
  generateContent [user_text "hi"] (tools s) (outside s)
  = (Normal plain_answer, tt)
  /\ resp_functionCalls plain_answer = None
  /\ result_of (processQuery "hi" s) = Normal (Lines ["hello"]).
Proof.
  intros services s.
  assert (H1 : generateContent [user_text "hi"] (tools s) (outside s)
               = (Normal plain_answer, tt)) by reflexivity.
  assert (H2 : resp_functionCalls plain_answer = None) by reflexivity.
  destruct (processQuery_without_calls (services := services)
              "hi" s plain_answer tt H1 (or_introl H2))
    as (Hres & _).
  repeat split; assumption.
Defined.

Lemma processQuery_with_calls_returns_witness :
  let services := stub_services true calling_answer in
  let s := initial_state (services := services) [] tt in
  let calls := [ mkFunctionCall (Some "echo")
                   (Some (JObject [ ("text", JString "hi") ]));
                 mkFunctionCall None None ] in
  generateContent [user_text "hi"] (tools s) (outside s)
  = (Normal calling_answer, tt)
  /\ resp_functionCalls calling_answer = Some calls
  /\ calls <> []
  /\ exists qr lines,
       result_of (processQuery "hi" s) = Normal qr
       /\ qr = Text (String.concat newline lines)
       /\ length lines = 2
       /\ generations (events_of (processQuery "hi" s)) = 2.
Proof.
  intros services s calls.
  assert (H1 : generateContent [user_text "hi"] (tools s) (outside s)
               = (Normal calling_answer, tt)) by reflexivity.
  assert (H2 : resp_functionCalls calling_answer = Some calls) by reflexivity.
  assert (H3 : calls <> []) by discriminate.
  split; [exact H1|]. split; [exact H2|]. split; [exact H3|].
  destruct (result_of (processQuery "hi" s)) as [qr|e] eqn:Hres.
  - destruct (processQuery_with_calls_returns (services := services)
                "hi" s calling_answer tt calls qr H1 H2 H3 Hres)
      as (lines & Hqr & Hlen & Hgen & _).
    exists qr, lines. repeat split; assumption.
  - vm_compute in Hres. discriminate Hres.
Defined.

Lemma chatLoop_stops_at_quit_witness :
  let services := stub_services true plain_answer in
  let s := initial_state (services := services) ["hello"; "QUIT"; "ignored"] tt in
  stdin s = ["hello"] ++ "QUIT" :: ["ignored"]
  /\ toLowerCase "QUIT" = "quit"
  /\ Forall (fun m => toLowerCase m <> "quit") ["hello"]
  /\ interface_closings (events_of (chatLoop s)) = 1
  /\ exists consumed, stdin (state_after (chatLoop s)) = consumed ++ ["ignored"].
Proof.
  intros services s.
  assert (H1 : stdin s = ["hello"] ++ "QUIT" :: ["ignored"]) by reflexivity.
  assert (H2 : toLowerCase "QUIT" = "quit") by reflexivity.
  assert (H3 : Forall (fun m => toLowerCase m <> "quit") ["hello"])
    by (constructor; [discriminate | constructor]).
  destruct (chatLoop_stops_at_quit (services := services)
              s ["hello"] "QUIT" ["ignored"] H1 H2 H3)
    as (_ & Hclosed & _ & _ & Hleft & _).
  repeat split; assumption.
Defined.

Lemma failed_query_ends_the_chat_witness :
  let services := failing_model in
  let s := initial_state (services := services) ["hello"; "quit"] tt in
  stdin s = "hello" :: ["quit"]
  /\ toLowerCase "hello" <> "quit"
  /\ result_of (processQuery "hello"
                  (mkState (transport s) (tools s) ["quit"] (outside s)))
     = Throw (Error "quota exceeded")
  /\ result_of (chatLoop s) = Throw (Error "quota exceeded")
  /\ stdin (state_after (chatLoop s)) = ["quit"].
Proof.
  intros services s.
  assert (H1 : stdin s = "hello" :: ["quit"]) by reflexivity.
  assert (H2 : toLowerCase "hello" <> "quit") by discriminate.
  assert (H3 : result_of (processQuery "hello"
                            (mkState (transport s) (tools s) ["quit"] (outside s)))
               = Throw (Error "quota exceeded")) by reflexivity.
  destruct (failed_query_ends_the_chat (services := services)
              s "hello" ["quit"] (Error "quota exceeded") H1 H2 H3)
    as (Hres & _ & _ & Hleft).
  repeat split; assumption.
Defined.

Lemma quit_in_any_case_witness :
  String.eqb (toLowerCase "QuIt") "quit" = true.
Proof.
  apply (proj2 (quit_in_any_case "QuIt")).
  exists "Q"%char, "u"%char, "I"%char, "t"%char.
  split; [reflexivity|].
  split; [by right|]. split; [by left|]. split; [by right | by left].
Defined.

Lemma main_exits_with_zero_witness :
  let services := stub_services false plain_answer in
  let s := initial_state (services := services) ["hello"] tt in
  result_of (connectToServer server_url s) = Throw (Error "fetch failed")
  /\ interfaces_created (events_of (main s)) = 0
  /\ questions_asked (events_of (main s)) = 0
  /\ ending_of (main s) = Exited 0.
Proof.
  intros services s.
  assert (H : result_of (connectToServer server_url s)
              = Throw (Error "fetch failed")) by reflexivity.
  destruct (proj1 (proj2 (proj2 (proj1
              (main_exits_with_zero (services := services) s))))
              (Error "fetch failed") H)
    as (Hcreated & Hasked & Hending).
  repeat split; assumption.
Defined.

End ClientFacts.
